(** * QueryStore: the query-management and access-control contract

    A shallow embedding of two backends of the repository:

    - [Mongo]: the Express + Mongoose server of [src/server.js]
      (tags embedded in the query document);
    - [D1]: the Hono + Cloudflare D1 function, first file of
      [src/unnamed/part_000] (relational schema of [src/schema.sql],
      tags in the join table [query_tags]).

    Strings are sequences of code units in the range 0..255 (Rocq's
    [ascii]); [trim] and [toLowerCase] are ECMAScript's restricted to
    that range.  The request body is typed as the API documents it:
    [title] and [text] are strings or absent, [tags] is an array of
    strings or absent.  The caller identity is the one the
    authentication middleware has bound to the request. *)

From Stdlib Require Import Bool Arith ZArith NArith Lia List.
From Stdlib Require Import Sorting.Permutation Sorting.Sorted.
From Stdlib.Strings Require Import Ascii String Byte.
Import ListNotations.

Local Open Scope string_scope.
Local Open Scope list_scope.

(* ================================================================== *)
(** ** JavaScript strings *)

Module JS.

(** ECMAScript WhiteSpace and LineTerminator code units below 256:
    TAB, LF, VT, FF, CR, SP and NBSP. *)
Definition is_ws (c : ascii) : bool :=
  let n := N_of_ascii c in
  (N.leb 9 n && N.leb n 13) || N.eqb n 32 || N.eqb n 160.

(** Simple lower-case mapping of the code units below 256: A-Z and
    the Latin-1 capitals U+00C0..U+00DE except the multiplication sign
    U+00D7 move up by 32. *)
Definition lower_char (c : ascii) : ascii :=
  let n := N_of_ascii c in
  if (N.leb 65 n && N.leb n 90)
     || (N.leb 192 n && N.leb n 222 && negb (N.eqb n 215))
  then ascii_of_N (n + 32) else c.

(** [String.prototype.toLowerCase] *)
Fixpoint toLowerCase (s : string) : string :=
  match s with
  | EmptyString => EmptyString
  | String c s' => String (lower_char c) (toLowerCase s')
  end.

Fixpoint trimStart (s : string) : string :=
  match s with
  | EmptyString => EmptyString
  | String c s' => if is_ws c then trimStart s' else s
  end.

Fixpoint trimEnd (s : string) : string :=
  match s with
  | EmptyString => EmptyString
  | String c s' =>
      match trimEnd s' with
      | EmptyString => if is_ws c then EmptyString else String c EmptyString
      | r => String c r
      end
  end.

(** [String.prototype.trim] *)
Definition trim (s : string) : string := trimEnd (trimStart s).

(** ToBoolean on a string: only the empty string is falsy. *)
Definition truthy (s : string) : bool :=
  match s with EmptyString => false | String _ _ => true end.

(** ToBoolean on a value that may be [undefined]. *)
Definition truthy_opt (o : option string) : bool :=
  match o with None => false | Some s => truthy s end.

(** [String.prototype.split] with a one-character separator. *)
Fixpoint split (sep : ascii) (s : string) : list string :=
  match s with
  | EmptyString => [EmptyString]
  | String c s' =>
      if Ascii.eqb c sep then EmptyString :: split sep s'
      else match split sep s' with
           | [] => [String c EmptyString]
           | h :: t => String c h :: t
           end
  end.

(** [Array.prototype.join] *)
Fixpoint join (sep : string) (l : list string) : string :=
  match l with
  | [] => EmptyString
  | [x] => x
  | x :: rest => x ++ sep ++ join sep rest
  end.

(** A string that does not begin with white space. *)
Definition starts_clean (s : string) : bool :=
  match s with
  | EmptyString => true
  | String c _ => negb (is_ws c)
  end.

(** [s.includes(c)] for a single character. *)
Fixpoint has_char (c : ascii) (s : string) : bool :=
  match s with
  | EmptyString => false
  | String d s' => Ascii.eqb d c || has_char c s'
  end.

(** [String.prototype.includes] *)
Fixpoint includes (needle hay : string) : bool :=
  String.prefix needle hay
  || match hay with
     | EmptyString => false
     | String _ rest => includes needle rest
     end.

End JS.

(* ================================================================== *)
(** ** Tag normalisation, shared by every backend

    [tags.map(tag => tag.trim().toLowerCase()).filter(tag => tag)] *)

Definition normalise_tag (tag : string) : string :=
  JS.toLowerCase (JS.trim tag).

Definition tagValues (tags : list string) : list string :=
  filter JS.truthy (map normalise_tag tags).

(** [tags ? tags.map(...).filter(...) : []] *)
Definition processedTags (tags : option (list string)) : list string :=
  match tags with
  | Some l => tagValues l
  | None => []
  end.

(** A normalised tag: what normalisation leaves as it is, and not
    empty. *)
Definition tag_normal (t : string) : Prop :=
  normalise_tag t = t /\ JS.truthy t = true.

(* ================================================================== *)
(** ** Distinct values in ascending order

    What [{ $group: { _id: '$tags' } }, { $sort: { _id: 1 } }] and
    [SELECT DISTINCT ... ORDER BY ... ASC] compute on strings, compared
    code unit by code unit. *)

Definition distinct (l : list string) : list string :=
  nodup string_dec l.

Fixpoint insert_asc (x : string) (l : list string) : list string :=
  match l with
  | [] => [x]
  | h :: t => if String.leb x h then x :: h :: t else h :: insert_asc x t
  end.

Definition sort_asc (l : list string) : list string :=
  fold_right insert_asc [] l.

(* ================================================================== *)
(** ** The browser code ([src/share.js]) *)

Module Frontend.

(** [processTags]: the tags field of the form, split at commas. *)
Definition processTags (tagsString : string) : list string :=
  filter JS.truthy (map normalise_tag (JS.split "," tagsString)).

End Frontend.

(* ================================================================== *)
(** ** JSON values and HTTP responses *)

#[warnings="-register-all"]
Inductive json : Type :=
| JNull
| JBool (b : bool)
| JNum (z : Z)
| JStr (s : string)
| JArr (l : list json)
| JObj (fields : list (string * json)).

Definition keys (j : json) : list string :=
  match j with
  | JObj fields => map fst fields
  | _ => []
  end.

Fixpoint assoc (k : string) (fields : list (string * json)) : option json :=
  match fields with
  | [] => None
  | (k', v) :: rest => if String.eqb k k' then Some v else assoc k rest
  end.

(** Property read [j.k]; [None] is [undefined]. *)
Definition obj_get (k : string) (j : json) : option json :=
  match j with
  | JObj fields => assoc k fields
  | _ => None
  end.

(** Property write on an object literal: an existing key keeps its
    place and takes the new value, a new key goes last. *)
Fixpoint obj_set (k : string) (v : json) (fields : list (string * json))
  : list (string * json) :=
  match fields with
  | [] => [(k, v)]
  | (k', v') :: rest =>
      if String.eqb k k' then (k', v) :: rest else (k', v') :: obj_set k v rest
  end.

Definition str_array (l : list string) : json := JArr (map JStr l).

Definition json_opt_str (o : option string) : json :=
  match o with Some s => JStr s | None => JNull end.

Record Response : Type := mkResponse { status : Z; body : json }.

Definition message (code : Z) (msg : string) : Response :=
  mkResponse code (JObj [("message", JStr msg)]).

(** Outcome of a storage call that may throw. *)
Inductive result (A : Type) : Type :=
| Ok (a : A)
| Throw (err : string).
Arguments Ok {A} a.
Arguments Throw {A} err.

(* ================================================================== *)
(** ** Random tokens *)

Definition hex_digit (n : N) : ascii :=
  match n with
  | 0%N => "0" | 1%N => "1" | 2%N => "2" | 3%N => "3"
  | 4%N => "4" | 5%N => "5" | 6%N => "6" | 7%N => "7"
  | 8%N => "8" | 9%N => "9" | 10%N => "a" | 11%N => "b"
  | 12%N => "c" | 13%N => "d" | 14%N => "e" | _ => "f"
  end%char.

Definition hex_byte (b : byte) : string :=
  let n := Byte.to_N b in
  String (hex_digit (N.div n 16))
         (String (hex_digit (N.modulo n 16)) EmptyString).

(** [Buffer.prototype.toString('hex')] *)
Fixpoint hex (bs : list byte) : string :=
  match bs with
  | [] => EmptyString
  | b :: rest => hex_byte b ++ hex rest
  end.

(** The entropy a request draws on: an unbounded stream of bytes. *)
Definition Entropy : Type := nat -> byte.

(** [crypto.randomBytes(n)] reads the first [n] bytes of the stream
    starting at offset [off]. *)
Definition randomBytes (e : Entropy) (off n : nat) : list byte :=
  map e (seq off n).

(* ================================================================== *)
(** ** The Express + Mongoose backend ([src/server.js]) *)

Module Mongo.

(** Well-formed ObjectIds; their rendering is left abstract. *)
Definition ObjectId : Type := nat.

Definition oid_json (o : ObjectId) : json := JNum (Z.of_nat o).

(** [userSchema] *)
Record UserDoc : Type := mkUser {
  u_id : ObjectId;
  username : string;
  passwordHash : string
}.

(** [querySchema]; [shareId = None] is a document without the field.
    Mongoose gives an array path the default [[]], so every document
    has its [tags]. *)
Record QueryDoc : Type := mkQuery {
  _id : ObjectId;
  title : string;
  text : string;
  tags : list string;
  user : ObjectId;
  isPublic : bool;
  shareId : option string;
  createdAt : Z
}.

Record DB : Type := mkDB {
  users : list UserDoc;
  queries : list QueryDoc
}.

(** What a request reads from outside the store: the clock, the
    ObjectId the driver generates for a new document, and entropy. *)
Record Env : Type := mkEnv {
  now : Z;
  new_oid : ObjectId;
  entropy : Entropy
}.

(** [req.body] of the query endpoints.  The handlers destructure
    [title], [text] and [tags] only; the other fields are what a
    client may send besides. *)
Record Body : Type := mkBody {
  b_title : option string;
  b_text : option string;
  b_tags : option (list string);
  b_user : option ObjectId;
  b_isPublic : option bool;
  b_shareId : option string;
  b_createdAt : option Z
}.

(** [res.json(doc)] *)
Definition toJSON (q : QueryDoc) : json :=
  JObj ([("_id", oid_json (_id q));
         ("title", JStr (title q));
         ("text", JStr (text q));
         ("tags", str_array (tags q));
         ("user", oid_json (user q));
         ("isPublic", JBool (isPublic q))]
        ++ match shareId q with
           | Some s => [("shareId", JStr s)]
           | None => []
           end
        ++ [("createdAt", JNum (createdAt q)); ("__v", JNum 0)]).

(** *** Collection primitives *)

(** The filter [{ _id: id, user: caller }]. *)
Definition owned_by (id caller : ObjectId) (q : QueryDoc) : bool :=
  Nat.eqb (_id q) id && Nat.eqb (user q) caller.

(** The filter [{ user: caller }]. *)
Definition of_user (caller : ObjectId) (q : QueryDoc) : bool :=
  Nat.eqb (user q) caller.

(** The filter [{ shareId: sid, isPublic: true }]. *)
Definition shared_as (sid : string) (q : QueryDoc) : bool :=
  match shareId q with
  | Some s => String.eqb s sid
  | None => false
  end && isPublic q.

Definition has_id (id : ObjectId) (q : QueryDoc) : bool :=
  Nat.eqb (_id q) id.

Fixpoint remove_first (p : QueryDoc -> bool) (c : list QueryDoc)
  : list QueryDoc :=
  match c with
  | [] => []
  | q :: rest => if p q then rest else q :: remove_first p rest
  end.

Fixpoint update_first (p : QueryDoc -> bool) (f : QueryDoc -> QueryDoc)
  (c : list QueryDoc) : list QueryDoc :=
  match c with
  | [] => []
  | q :: rest => if p q then f q :: rest else q :: update_first p f rest
  end.

(** [.sort({ createdAt: -1 })], ties in collection order. *)
Fixpoint insert_desc (q : QueryDoc) (l : list QueryDoc) : list QueryDoc :=
  match l with
  | [] => [q]
  | h :: t =>
      if Z.leb (createdAt h) (createdAt q) then q :: h :: t
      else h :: insert_desc q t
  end.

Definition sort_desc (l : list QueryDoc) : list QueryDoc :=
  fold_right insert_desc [] l.

(** The unique index on [_id]. *)
Definition id_taken (id : ObjectId) (c : list QueryDoc) : bool :=
  existsb (has_id id) c.

(** The unique sparse index on [shareId]: another document already
    carries the value. *)
Definition shareId_taken (s : string) (self : ObjectId)
  (c : list QueryDoc) : bool :=
  existsb (fun q => negb (has_id self q)
                    && match shareId q with
                       | Some s' => String.eqb s s'
                       | None => false
                       end) c.

(** *** Schema *)

(** [required: true] on a String path: present and not empty. *)
Definition required (o : option string) : option string :=
  match o with
  | Some s => if JS.truthy s then Some s else None
  | None => None
  end.

(** [tags: [{ type: String, trim: true }]] *)
Definition schema_tags (l : list string) : list string := map JS.trim l.

(** The argument of [new Query({ title, text, tags, user })]. *)
Record Draft : Type := mkDraft {
  d_title : option string;
  d_text : option string;
  d_tags : list string;
  d_user : ObjectId
}.

(** [new Query(d).save()]: schema defaults, validation, insertion. *)
Definition save_new (env : Env) (d : Draft) (c : list QueryDoc)
  : result (QueryDoc * list QueryDoc) :=
  match required (d_title d), required (d_text d) with
  | Some t, Some x =>
      let doc := {| _id := new_oid env;
                    title := t;
                    text := x;
                    tags := schema_tags (d_tags d);
                    user := d_user d;
                    isPublic := false;
                    shareId := None;
                    createdAt := now env |} in
      if id_taken (_id doc) c then Throw "E11000 duplicate key error"
      else Ok (doc, c ++ [doc])
  | _, _ => Throw "ValidationError"
  end.

(** The update document [{ title, text, tags: processedTags }]. *)
Definition set_content (t x : string) (tg : list string) (q : QueryDoc)
  : QueryDoc :=
  {| _id := _id q;
     title := t;
     text := x;
     tags := schema_tags tg;
     user := user q;
     isPublic := isPublic q;
     shareId := shareId q;
     createdAt := createdAt q |}.

(** [query.shareId = shareId; query.isPublic = true] *)
Definition set_shared (s : string) (q : QueryDoc) : QueryDoc :=
  {| _id := _id q;
     title := title q;
     text := text q;
     tags := tags q;
     user := user q;
     isPublic := true;
     shareId := Some s;
     createdAt := createdAt q |}.

Definition with_queries (db : DB) (c : list QueryDoc) : DB :=
  {| users := users db; queries := c |}.

(** *** Handlers *)

Definition missing_title_or_text (b : Body) : bool :=
  negb (JS.truthy_opt (b_title b)) || negb (JS.truthy_opt (b_text b)).

Definition not_found : Response :=
  message 404 "Query not found or user not authorized.".

(** [Query.find({ user }).sort({ createdAt: -1 })] *)
Definition listByOwner (caller : ObjectId) (db : DB) : list QueryDoc :=
  sort_desc (filter (of_user caller) (queries db)).

(** GET /api/queries *)
Definition get_queries (caller : ObjectId) (db : DB) : Response * DB :=
  (mkResponse 200 (JArr (map toJSON (listByOwner caller db))), db).

(** POST /api/queries *)
Definition post_queries (caller : ObjectId) (b : Body) (env : Env) (db : DB)
  : Response * DB :=
  if missing_title_or_text b then
    (message 400 "Title and text are required.", db)
  else
    let processedTags := processedTags (b_tags b) in
    match save_new env {| d_title := b_title b;
                          d_text := b_text b;
                          d_tags := processedTags;
                          d_user := caller |} (queries db) with
    | Ok (newQuery, c) => (mkResponse 201 (toJSON newQuery), with_queries db c)
    | Throw _ => (message 500 "Error creating query.", db)
    end.

(** DELETE /api/queries/:id *)
Definition delete_queries (caller id : ObjectId) (db : DB) : Response * DB :=
  match find (owned_by id caller) (queries db) with
  | None => (not_found, db)
  | Some _ =>
      (message 200 "Query deleted successfully.",
       with_queries db (remove_first (owned_by id caller) (queries db)))
  end.

(** PUT /api/queries/:id, with [{ new: true, runValidators: true }] *)
Definition put_queries (caller id : ObjectId) (b : Body) (db : DB)
  : Response * DB :=
  if missing_title_or_text b then
    (message 400 "Title and text are required.", db)
  else
    let processedTags := processedTags (b_tags b) in
    match required (b_title b), required (b_text b) with
    | Some t, Some x =>
        match find (owned_by id caller) (queries db) with
        | None => (not_found, db)
        | Some q =>
            let updatedQuery := set_content t x processedTags q in
            (mkResponse 200 (toJSON updatedQuery),
             with_queries db
               (update_first (owned_by id caller)
                             (set_content t x processedTags) (queries db)))
        end
    | _, _ => (message 500 "Error updating query.", db)
    end.

(** [crypto.randomBytes(12).toString('hex')] *)
Definition new_shareId (env : Env) : string :=
  hex (randomBytes (entropy env) 0 12).

(** POST /api/queries/:id/share; [query.save()] writes the two
    modified paths to the document with the query's [_id]. *)
Definition post_share (caller id : ObjectId) (env : Env) (db : DB)
  : Response * DB :=
  match find (owned_by id caller) (queries db) with
  | None => (not_found, db)
  | Some query =>
      if isPublic query && JS.truthy_opt (shareId query) then
        (mkResponse 200 (JObj [("shareId", json_opt_str (shareId query))]), db)
      else
        let shareId := new_shareId env in
        if shareId_taken shareId (_id query) (queries db) then
          (message 500 "Error sharing query.", db)
        else
          (mkResponse 200 (JObj [("shareId", JStr shareId)]),
           with_queries db
             (update_first (has_id (_id query)) (set_shared shareId)
                           (queries db)))
  end.

(** GET /api/public/queries/:shareId *)
Definition get_public (sid : string) (db : DB) : Response * DB :=
  match find (shared_as sid) (queries db) with
  | None => (message 404 "Shared query not found.", db)
  | Some query =>
      (mkResponse 200 (JObj [("title", JStr (title query));
                             ("text", JStr (text query));
                             ("tags", str_array (tags query));
                             ("createdAt", JNum (createdAt query))]), db)
  end.

Section Auth.

(** [bcrypt.compare(password, hash)] and [jwt.sign] with the server's
    secret are trusted black boxes. *)
Variable bcrypt_compare : string -> string -> bool.
Variable jwt_sign : ObjectId -> string -> Z -> string.

Definition invalid_credentials : Response :=
  message 401 "Invalid credentials.".

(** POST /login.  [User.findOne({ username })] casts its filter with
    [userSchema], whose [username] path has [trim: true]: the user is
    looked up under the trimmed name. *)
Definition login (uname password : option string) (env : Env) (db : DB)
  : Response :=
  if negb (JS.truthy_opt uname) || negb (JS.truthy_opt password) then
    message 400 "Username and password are required."
  else
    match find (fun u => match uname with
                         | Some n => String.eqb (username u) (JS.trim n)
                         | None => false
                         end) (users db) with
    | None => invalid_credentials
    | Some u =>
        let isMatch := match password with
                       | Some p => bcrypt_compare p (passwordHash u)
                       | None => false
                       end in
        if negb isMatch then invalid_credentials
        else
          let token := jwt_sign (u_id u) (username u) (now env) in
          mkResponse 200
            (JObj [("token", JStr token);
                   ("user", JObj [("username", JStr (username u))])])
    end.

End Auth.

(** *** Requests and reachable stores *)

Inductive Request : Type :=
| ListQueries (caller : ObjectId)
| CreateQuery (caller : ObjectId) (b : Body)
| UpdateQuery (caller id : ObjectId) (b : Body)
| DeleteQuery (caller id : ObjectId)
| ShareQuery (caller id : ObjectId)
| GetPublic (sid : string).

Definition handle (r : Request) (env : Env) (db : DB) : Response * DB :=
  match r with
  | ListQueries caller => get_queries caller db
  | CreateQuery caller b => post_queries caller b env db
  | UpdateQuery caller id b => put_queries caller id b db
  | DeleteQuery caller id => delete_queries caller id db
  | ShareQuery caller id => post_share caller id env db
  | GetPublic sid => get_public sid db
  end.

(** Stores the server can be in: it starts with no queries and serves
    requests one after the other. *)
Inductive reachable : DB -> Prop :=
| reach_init : forall us, reachable {| users := us; queries := [] |}
| reach_step : forall db r env,
    reachable db -> reachable (snd (handle r env db)).

(** *** What the server maintains *)

(** [shareId] is set exactly on public queries. *)
Definition share_inv (q : QueryDoc) : Prop :=
  shareId q <> None <-> isPublic q = true.

(** A share token, once set, is a non-empty string. *)
Definition token_ok (q : QueryDoc) : Prop :=
  forall t, shareId q = Some t -> JS.truthy t = true.

Definition unique_ids (db : DB) : Prop := NoDup (map _id (queries db)).

Definition wf (db : DB) : Prop :=
  unique_ids db /\ Forall (fun q => share_inv q /\ token_ok q) (queries db).

(** What an update may touch in a document. *)
Definition same_frame (q q' : QueryDoc) : Prop :=
  _id q' = _id q /\ user q' = user q /\ createdAt q' = createdAt q
  /\ isPublic q' = isPublic q /\ shareId q' = shareId q.

(** *** Further endpoints and notions *)

(** GET /api/tags: [$match], [$unwind], [$group], [$sort]. *)
Definition distinct_tags (caller : ObjectId) (db : DB) : list string :=
  sort_asc (distinct (flat_map tags (filter (of_user caller) (queries db)))).

Definition get_tags (caller : ObjectId) (db : DB) : Response * DB :=
  (mkResponse 200 (str_array (distinct_tags caller db)), db).

(** The share tokens in use, in collection order. *)
Definition tokens (c : list QueryDoc) : list string :=
  flat_map (fun q => match shareId q with Some t => [t] | None => [] end) c.

(** The body of the 200 answer of the public lookup for a document. *)
Definition public_view (q : QueryDoc) : json :=
  JObj [("title", JStr (title q));
        ("text", JStr (text q));
        ("tags", str_array (tags q));
        ("createdAt", JNum (createdAt q))].

End Mongo.

(* ================================================================== *)
(** ** The Hono + D1 backend ([src/unnamed/part_000], [src/schema.sql]) *)

Module D1.

(** The [:id] path parameter is taken as the integer that the INTEGER
    affinity of the compared column makes of it. *)

(** *** Tables of [schema.sql] *)

Record UserRow : Type := mkUserRow {
  uid : Z;
  username : string;
  password_hash : string
}.

Record QueryRow : Type := mkQueryRow {
  id : Z;
  user_id : Z;
  title : string;
  text : string;
  is_public : Z;
  share_id : option string;
  created_at : Z
}.

Record TagRow : Type := mkTagRow {
  query_id : Z;
  tag : string
}.

(** [queries_seq] is the AUTOINCREMENT counter of [queries]. *)
Record DB : Type := mkDB {
  users : list UserRow;
  queries : list QueryRow;
  query_tags : list TagRow;
  queries_seq : Z
}.

Record Env : Type := mkEnv {
  now : Z;
  entropy : Entropy
}.

(** [await c.req.json()] of the query endpoints.  The handlers
    destructure [title], [text] and [tags] only; the other fields are
    what a client may send besides. *)
Record Body : Type := mkBody {
  b_title : option string;
  b_text : option string;
  b_tags : option (list string);
  b_user_id : option Z;
  b_is_public : option Z;
  b_share_id : option string;
  b_created_at : option Z
}.

(** *** Statements: state and exceptions *)

Definition M (A : Type) : Type := DB -> result A * DB.

Definition ret {A : Type} (a : A) : M A := fun db => (Ok a, db).

Definition throw {A : Type} (err : string) : M A := fun db => (Throw err, db).

Definition mbind {A B : Type} (m : M A) (k : A -> M B) : M B :=
  fun db =>
    match m db with
    | (Ok a, db') => k a db'
    | (Throw err, db') => (Throw err, db')
    end.

Notation "x <- m ;; k" := (mbind m (fun x => k))
  (at level 61, m at next level, right associativity).
Notation "m ;;; k" := (mbind m (fun _ => k))
  (at level 61, right associativity).

(** [for (const a of l) await f(a)] *)
Fixpoint for_each {A : Type} (l : list A) (f : A -> M unit) : M unit :=
  match l with
  | [] => ret tt
  | a :: rest => f a ;;; for_each rest f
  end.

(** An exception no handler catches: Hono answers 500. *)
Definition internal_error : Response :=
  mkResponse 500 (JStr "Internal Server Error").

Definition run (m : M Response) (db : DB) : Response * DB :=
  match m db with
  | (Ok r, db') => (r, db')
  | (Throw _, db') => (internal_error, db')
  end.

(** [.bind(v)] of a body field: D1 refuses [undefined]. *)
Definition bind_text (o : option string) : M string :=
  match o with
  | Some s => ret s
  | None => throw "D1_TYPE_ERROR: Type 'undefined' not supported"
  end.

Definition with_queries (db : DB) (c : list QueryRow) : DB :=
  {| users := users db; queries := c;
     query_tags := query_tags db; queries_seq := queries_seq db |}.

Definition with_tags (db : DB) (t : list TagRow) : DB :=
  {| users := users db; queries := queries db;
     query_tags := t; queries_seq := queries_seq db |}.

Definition max_id (c : list QueryRow) : Z :=
  fold_right (fun q m => Z.max (id q) m) 0%Z c.

(** WHERE id = ? AND user_id = ? *)
Definition owned_by (qid caller : Z) (q : QueryRow) : bool :=
  Z.eqb (id q) qid && Z.eqb (user_id q) caller.

Definition has_id (qid : Z) (q : QueryRow) : bool := Z.eqb (id q) qid.

Definition tag_of (qid : Z) (r : TagRow) : bool := Z.eqb (query_id r) qid.

(** INSERT INTO queries (user_id, title, text) VALUES (?, ?, ?);
    the result is [info.meta.last_row_id]. *)
Definition insert_query (caller : Z) (t x : string) (env : Env) : M Z :=
  fun db =>
    if negb (existsb (fun u => Z.eqb (uid u) caller) (users db)) then
      (Throw "FOREIGN KEY constraint failed", db)
    else
      let rowid := (Z.max (queries_seq db) (max_id (queries db)) + 1)%Z in
      (Ok rowid,
       {| users := users db;
          queries := queries db ++ [{| id := rowid;
                                       user_id := caller;
                                       title := t;
                                       text := x;
                                       is_public := 0;
                                       share_id := None;
                                       created_at := now env |}];
          query_tags := query_tags db;
          queries_seq := rowid |}).

(** INSERT INTO query_tags (query_id, tag) VALUES (?, ?) *)
Definition insert_tag (qid : Z) (t : string) : M unit :=
  fun db =>
    if existsb (fun r => tag_of qid r && String.eqb (tag r) t)
               (query_tags db) then
      (Throw "UNIQUE constraint failed: query_tags.query_id, query_tags.tag",
       db)
    else if negb (existsb (has_id qid) (queries db)) then
      (Throw "FOREIGN KEY constraint failed", db)
    else
      (Ok tt,
       with_tags db (query_tags db ++ [{| query_id := qid; tag := t |}])).

(** DELETE FROM queries WHERE id = ? AND user_id = ?, with the cascade
    on [query_tags]; the result is [info.meta.changes]. *)
Definition delete_query (qid caller : Z) : M Z :=
  fun db =>
    let gone := filter (owned_by qid caller) (queries db) in
    (Ok (Z.of_nat (List.length gone)),
     {| users := users db;
        queries := filter (fun q => negb (owned_by qid caller q)) (queries db);
        query_tags :=
          filter (fun r => negb (existsb (has_id (query_id r)) gone))
                 (query_tags db);
        queries_seq := queries_seq db |}).

Definition set_content (t x : string) (q : QueryRow) : QueryRow :=
  {| id := id q; user_id := user_id q; title := t; text := x;
     is_public := is_public q; share_id := share_id q;
     created_at := created_at q |}.

(** UPDATE queries SET title = ?, text = ? WHERE id = ? AND user_id = ? *)
Definition update_query (t x : string) (qid caller : Z) : M Z :=
  fun db =>
    (Ok (Z.of_nat (List.length (filter (owned_by qid caller) (queries db)))),
     with_queries db
       (map (fun q => if owned_by qid caller q then set_content t x q else q)
            (queries db))).

(** DELETE FROM query_tags WHERE query_id = ? *)
Definition delete_tags (qid : Z) : M unit :=
  fun db =>
    (Ok tt,
     with_tags db (filter (fun r => negb (tag_of qid r)) (query_tags db))).

(** SELECT share_id, is_public FROM queries WHERE id = ? AND user_id = ?,
    [.first()] *)
Definition select_owned (qid caller : Z) : M (option QueryRow) :=
  fun db => (Ok (find (owned_by qid caller) (queries db)), db).

Definition set_shared (s : string) (q : QueryRow) : QueryRow :=
  {| id := id q; user_id := user_id q; title := title q; text := text q;
     is_public := 1; share_id := Some s; created_at := created_at q |}.

Definition share_id_is (s : string) (q : QueryRow) : bool :=
  match share_id q with
  | Some s' => String.eqb s' s
  | None => false
  end.

(** UPDATE queries SET share_id = ?, is_public = 1 WHERE id = ?, under
    the UNIQUE constraint on [share_id]. *)
Definition update_share (s : string) (qid : Z) : M unit :=
  fun db =>
    if existsb (has_id qid) (queries db)
       && existsb (fun q => negb (has_id qid q) && share_id_is s q)
                  (queries db) then
      (Throw "UNIQUE constraint failed: queries.share_id", db)
    else
      (Ok tt,
       with_queries db
         (map (fun q => if has_id qid q then set_shared s q else q)
              (queries db))).

(** *** Reading queries with their tags *)

(** GROUP_CONCAT(t.tag) over the LEFT JOIN: NULL for a query without
    tag rows.  The join finds the tag rows of a query through the index
    of PRIMARY KEY (query_id, tag), which yields them by ascending
    tag. *)
Definition group_concat (qid : Z) (db : DB) : option string :=
  match sort_asc (map tag (filter (tag_of qid) (query_tags db))) with
  | [] => None
  | l => Some (JS.join "," l)
  end.

(** [q.tags ? q.tags.split(',') : []] *)
Definition split_tags (o : option string) : list string :=
  if JS.truthy_opt o then
    match o with
    | Some s => JS.split "," s
    | None => []
    end
  else [].

(** A result row of [SELECT q.*, GROUP_CONCAT(t.tag) as tags]. *)
Definition row_json (q : QueryRow) (tags : option string)
  : list (string * json) :=
  [("id", JNum (id q));
   ("user_id", JNum (user_id q));
   ("title", JStr (title q));
   ("text", JStr (text q));
   ("is_public", JNum (is_public q));
   ("share_id", json_opt_str (share_id q));
   ("created_at", JNum (created_at q));
   ("tags", json_opt_str tags)].

(** ORDER BY q.created_at DESC, ties in table order. *)
Fixpoint insert_desc (q : QueryRow) (l : list QueryRow) : list QueryRow :=
  match l with
  | [] => [q]
  | h :: t =>
      if Z.leb (created_at h) (created_at q) then q :: h :: t
      else h :: insert_desc q t
  end.

Definition sort_desc (l : list QueryRow) : list QueryRow :=
  fold_right insert_desc [] l.

Definition listByOwner (caller : Z) (db : DB) : list QueryRow :=
  sort_desc (filter (fun q => Z.eqb (user_id q) caller) (queries db)).

(** [{ ...q, _id: q.id, tags: q.tags ? q.tags.split(',') : [] }] *)
Definition format_query (db : DB) (q : QueryRow) : json :=
  let tags := group_concat (id q) db in
  JObj (obj_set "tags" (str_array (split_tags tags))
          (obj_set "_id" (JNum (id q)) (row_json q tags))).

(** *** Handlers; [payload] is what [getAuthPayload] returns *)

Definition unauthorized : Response :=
  mkResponse 401 (JObj [("error", JStr "Unauthorized")]).

Definition not_found : Response :=
  message 404 "Query not found or unauthorized.".

(** [if (tags && tags.length > 0) { for (const tag of tagValues) ... }] *)
Definition insert_tags (qid : Z) (tags : option (list string)) : M unit :=
  match tags with
  | Some ((_ :: _) as l) => for_each (tagValues l) (insert_tag qid)
  | _ => ret tt
  end.

Definition json_tags (tags : option (list string)) : list (string * json) :=
  match tags with
  | Some l => [("tags", str_array l)]
  | None => []
  end.

(** GET /queries *)
Definition get_queries (payload : option Z) : M Response :=
  match payload with
  | None => ret unauthorized
  | Some caller =>
      fun db =>
        (Ok (mkResponse 200
               (JArr (map (format_query db) (listByOwner caller db)))), db)
  end.

(** POST /queries *)
Definition post_queries (payload : option Z) (b : Body) (env : Env)
  : M Response :=
  match payload with
  | None => ret unauthorized
  | Some caller =>
      t <- bind_text (b_title b) ;;
      x <- bind_text (b_text b) ;;
      queryId <- insert_query caller t x env ;;
      insert_tags queryId (b_tags b) ;;;
      ret (mkResponse 201
             (JObj ([("_id", JNum queryId); ("title", JStr t);
                     ("text", JStr x)] ++ json_tags (b_tags b))))
  end.

(** DELETE /queries/:id *)
Definition delete_queries (payload : option Z) (qid : Z) : M Response :=
  match payload with
  | None => ret unauthorized
  | Some caller =>
      changes <- delete_query qid caller ;;
      if Z.eqb changes 0 then ret not_found
      else ret (message 200 "Query deleted successfully.")
  end.

(** PUT /queries/:id *)
Definition put_queries (payload : option Z) (qid : Z) (b : Body)
  : M Response :=
  match payload with
  | None => ret unauthorized
  | Some caller =>
      t <- bind_text (b_title b) ;;
      x <- bind_text (b_text b) ;;
      changes <- update_query t x qid caller ;;
      if Z.eqb changes 0 then ret not_found
      else
        delete_tags qid ;;;
        insert_tags qid (b_tags b) ;;;
        ret (message 200 "Query updated successfully.")
  end.

Definition set_bits (keep put : N) (b : byte) : byte :=
  match Byte.of_N (N.lor (N.land (Byte.to_N b) keep) put) with
  | Some b' => b'
  | None => b
  end.

(** [crypto.randomUUID()]: 16 bytes with the version and variant bits
    of a version 4 UUID, printed 8-4-4-4-12. *)
Definition randomUUID (e : Entropy) (off : nat) : string :=
  let b := randomBytes e off 16 in
  hex (firstn 4 b) ++ "-"
  ++ hex (firstn 2 (skipn 4 b)) ++ "-"
  ++ hex (map (set_bits 15 64) (firstn 1 (skipn 6 b)))
  ++ hex (firstn 1 (skipn 7 b)) ++ "-"
  ++ hex (map (set_bits 63 128) (firstn 1 (skipn 8 b)))
  ++ hex (firstn 1 (skipn 9 b)) ++ "-"
  ++ hex (skipn 10 b).

(** [a[i]] in a string concatenation: a missing element prints as
    [undefined]. *)
Definition at_index (l : list string) (i : nat) : string :=
  nth i l "undefined".

(** [crypto.randomUUID().split('-')[0] + crypto.randomUUID().split('-')[1]] *)
Definition new_shareId (env : Env) : string :=
  at_index (JS.split "-" (randomUUID (entropy env) 0)) 0
  ++ at_index (JS.split "-" (randomUUID (entropy env) 16)) 1.

Definition num_truthy (z : Z) : bool := negb (Z.eqb z 0).

(** POST /queries/:id/share *)
Definition post_share (payload : option Z) (qid : Z) (env : Env)
  : M Response :=
  match payload with
  | None => ret unauthorized
  | Some caller =>
      query <- select_owned qid caller ;;
      match query with
      | None => ret not_found
      | Some query =>
          if num_truthy (is_public query) && JS.truthy_opt (share_id query)
          then ret (mkResponse 200
                      (JObj [("shareId", json_opt_str (share_id query))]))
          else
            let shareId := new_shareId env in
            update_share shareId qid ;;;
            ret (mkResponse 200 (JObj [("shareId", JStr shareId)]))
      end
  end.

(** WHERE q.share_id = ? AND q.is_public = 1 *)
Definition shared_as (sid : string) (q : QueryRow) : bool :=
  share_id_is sid q && Z.eqb (is_public q) 1.

(** GET /public/queries/:shareId *)
Definition get_public (sid : string) : M Response :=
  fun db =>
    match find (shared_as sid) (queries db) with
    | None => (Ok (message 404 "Shared query not found."), db)
    | Some query =>
        let tags := group_concat (id query) db in
        (Ok (mkResponse 200
               (JObj [("title", JStr (title query));
                      ("text", JStr (text query));
                      ("tags", str_array (split_tags tags));
                      ("createdAt", JNum (created_at query))])), db)
    end.

Section Auth.

Variable bcrypt_compare : string -> string -> bool.
Variable sign : Z -> string -> Z -> string.

Definition invalid_credentials : Response :=
  message 401 "Invalid credentials.".

(** POST /login, for a body whose [username] and [password] are
    strings. *)
Definition login (uname password : string) (env : Env) (db : DB)
  : Response :=
  let user := find (fun u => String.eqb (username u) uname) (users db) in
  match user with
  | None => invalid_credentials
  | Some u =>
      if negb (bcrypt_compare password (password_hash u)) then
        invalid_credentials
      else
        let token := sign (uid u) (username u) (now env + 60 * 60)%Z in
        mkResponse 200
          (JObj [("token", JStr token);
                 ("user", JObj [("username", JStr (username u))])])
  end.

End Auth.

(** *** Requests and reachable databases *)

Inductive Request : Type :=
| ListQueries (payload : option Z)
| CreateQuery (payload : option Z) (b : Body)
| UpdateQuery (payload : option Z) (qid : Z) (b : Body)
| DeleteQuery (payload : option Z) (qid : Z)
| ShareQuery (payload : option Z) (qid : Z)
| GetPublic (sid : string).

Definition handler (r : Request) (env : Env) : M Response :=
  match r with
  | ListQueries payload => get_queries payload
  | CreateQuery payload b => post_queries payload b env
  | UpdateQuery payload qid b => put_queries payload qid b
  | DeleteQuery payload qid => delete_queries payload qid
  | ShareQuery payload qid => post_share payload qid env
  | GetPublic sid => get_public sid
  end.

Definition handle (r : Request) (env : Env) (db : DB) : Response * DB :=
  run (handler r env) db.

(** Databases the function can be in: the schema has just been
    created with some users registered, and requests are served one
    after the other. *)
Inductive reachable : DB -> Prop :=
| reach_init : forall us,
    reachable {| users := us; queries := []; query_tags := [];
                 queries_seq := 0 |}
| reach_step : forall db r env,
    reachable db -> reachable (snd (handle r env db)).

(** *** What the schema and the handlers maintain *)

(** [share_id] is set exactly on public queries, and [is_public] is
    0 or 1. *)
Definition share_inv (q : QueryRow) : Prop :=
  (share_id q <> None <-> is_public q = 1%Z)
  /\ (is_public q = 0%Z \/ is_public q = 1%Z).

Definition token_ok (q : QueryRow) : Prop :=
  forall t, share_id q = Some t -> JS.truthy t = true.

(** PRIMARY KEY of [queries]. *)
Definition unique_ids (db : DB) : Prop := NoDup (map id (queries db)).

(** FOREIGN KEY (query_id) REFERENCES queries(id). *)
Definition tags_refer (db : DB) : Prop :=
  forall r, In r (query_tags db) -> In (query_id r) (map id (queries db)).

Definition wf (db : DB) : Prop :=
  unique_ids db /\ tags_refer db
  /\ Forall (fun q => share_inv q /\ token_ok q) (queries db).

(** A computation keeps a property of the database, whether it
    returns or throws. *)
Definition preserves (P : DB -> Prop) {A : Type} (m : M A) : Prop :=
  forall db, P db -> P (snd (m db)).

Definition rows (P : QueryRow -> Prop) (db : DB) : Prop :=
  Forall P (queries db).

(** The responses a computation can return. *)
Definition answers (S : Response -> Prop) (m : M Response) : Prop :=
  forall db r db', m db = (Ok r, db') -> S r.

(** The tags stored for a query, in table order. *)
Definition tags_of (qid : Z) (db : DB) : list string :=
  map tag (filter (tag_of qid) (query_tags db)).

(** What an update may touch in a row. *)
Definition same_frame (q q' : QueryRow) : Prop :=
  id q' = id q /\ user_id q' = user_id q /\ created_at q' = created_at q
  /\ is_public q' = is_public q /\ share_id q' = share_id q.

(** The caller is a registered user. *)
Definition registered (caller : Z) (db : DB) : Prop :=
  existsb (fun u => Z.eqb (uid u) caller) (users db) = true.

(** *** Further endpoints and notions *)

(** The rows of [query_tags] that the JOIN with the caller's queries
    keeps. *)
Definition owner_tag (caller : Z) (db : DB) (r : TagRow) : bool :=
  existsb (fun q => has_id (query_id r) q && Z.eqb (user_id q) caller)
          (queries db).

(** SELECT DISTINCT t.tag ... WHERE q.user_id = ? ORDER BY t.tag ASC *)
Definition distinct_tags (caller : Z) (db : DB) : list string :=
  sort_asc (distinct (map tag (filter (owner_tag caller db) (query_tags db)))).

(** GET /tags *)
Definition get_tags (payload : option Z) : M Response :=
  match payload with
  | None => ret unauthorized
  | Some caller =>
      fun db => (Ok (mkResponse 200 (str_array (distinct_tags caller db))), db)
  end.

Section AuthPayload.

(** [verify(token, secret)] of hono/jwt, reduced to the user id of the
    payload; [None] when it throws. *)
Variable verify : string -> string -> option Z.

(** [getAuthPayload]: [secret] is [c.env.JWT_SECRET], [auth] the
    value of the Authorization header as [c.req.header] gives it, that
    is without blanks around it.  A header without a second piece gives
    [verify] an undefined token, on which it throws. *)
Definition getAuthPayload (secret auth : option string) : option Z :=
  if negb (JS.truthy_opt secret) then None
  else if negb (JS.truthy_opt auth) then None
  else
    match secret, auth with
    | Some key, Some a =>
        match nth_error (JS.split " " a) 1 with
        | Some token => verify token key
        | None => None
        end
    | _, _ => None
    end.

End AuthPayload.

Section Signup.

(** [bcrypt.hash(password, salt)] *)
Variable bcrypt_hash : string -> string -> string.

Definition max_uid (us : list UserRow) : Z :=
  fold_right (fun u m => Z.max (uid u) m) 0%Z us.

(** INSERT INTO users (username, password_hash) VALUES (?, ?).  No
    statement deletes a user, so the AUTOINCREMENT counter is the
    largest id. *)
Definition insert_user (name hash : string) : M unit :=
  fun db =>
    if existsb (fun u => String.eqb (username u) name) (users db) then
      (Throw "UNIQUE constraint failed: users.username", db)
    else
      (Ok tt,
       {| users := users db ++ [{| uid := max_uid (users db) + 1;
                                   username := name;
                                   password_hash := hash |}];
          queries := queries db;
          query_tags := query_tags db;
          queries_seq := queries_seq db |}).

(** POST /signup, for a body whose [username] and [password] are
    strings; [salt] is what [bcrypt.genSalt(10)] draws. *)
Definition signup (name password salt : string) (db : DB) : Response * DB :=
  match insert_user name (bcrypt_hash password salt) db with
  | (Ok _, db') => (message 201 "User created successfully.", db')
  | (Throw err, db') =>
      if JS.includes "UNIQUE constraint failed" err then
        (message 409 "Username already exists.", db')
      else (message 500 "Error during signup.", db')
  end.

(** Databases the function can be in when it starts from the empty
    schema and serves signups and requests one after the other. *)
Inductive served : DB -> Prop :=
| served_init :
    served {| users := []; queries := []; query_tags := [];
              queries_seq := 0 |}
| served_signup : forall db name password salt,
    served db -> served (snd (signup name password salt db))
| served_request : forall db r env,
    served db -> served (snd (handle r env db)).

End Signup.

(** The share tokens in use, in table order. *)
Definition tokens (c : list QueryRow) : list string :=
  flat_map (fun q => match share_id q with Some t => [t] | None => [] end) c.

(** The body of the 200 answer of the public lookup for a row. *)
Definition public_view (db : DB) (q : QueryRow) : json :=
  JObj [("title", JStr (title q));
        ("text", JStr (text q));
        ("tags", str_array (split_tags (group_concat (id q) db)));
        ("createdAt", JNum (created_at q))].

(** Serving requests one after the other. *)
Fixpoint serve_all (rs : list (Request * Env)) (db : DB) : DB :=
  match rs with
  | [] => db
  | (r, env) :: rest => serve_all rest (snd (handle r env db))
  end.

(** The rows of [c] with an id up to [bound] are rows of [c0], up to
    what update and share may change. *)
Definition rows_from (c0 : list QueryRow) (bound : Z) (c : list QueryRow)
  : Prop :=
  forall row, In row c -> (id row <= bound)%Z ->
    exists old, In old c0 /\ id old = id row /\ user_id old = user_id row
                /\ created_at old = created_at row.

End D1.

(* ================================================================== *)
(** ** The add form of the browser code ([src/share.js]) *)

Module Client.

(** The submit handler of the add form: the arguments it calls
    [addQuery] with, when it calls it. *)
Definition submit (titleValue textValue tagsValue : string)
  : option (string * string * list string) :=
  let title := JS.trim titleValue in
  let text := JS.trim textValue in
  let tags := Frontend.processTags tagsValue in
  if JS.truthy title && JS.truthy text then Some (title, text, tags)
  else None.

(** [JSON.stringify({ title, text, tags })], as the handlers of the
    document store read it ... *)
Definition mongo_body (title text : string) (tags : list string)
  : Mongo.Body :=
  {| Mongo.b_title := Some title; Mongo.b_text := Some text;
     Mongo.b_tags := Some tags;
     Mongo.b_user := None; Mongo.b_isPublic := None;
     Mongo.b_shareId := None; Mongo.b_createdAt := None |}.

(** ... and as the handlers of the relational store read it. *)
Definition d1_body (title text : string) (tags : list string) : D1.Body :=
  {| D1.b_title := Some title; D1.b_text := Some text;
     D1.b_tags := Some tags;
     D1.b_user_id := None; D1.b_is_public := None;
     D1.b_share_id := None; D1.b_created_at := None |}.

End Client.

(* ================================================================== *)
(** ** Sample data *)

Module Sample.

Definition zeros : Entropy := fun _ => Byte.x00.

Definition ones : Entropy := fun _ => Byte.xff.

(** A stand-in for bcrypt in examples: the hash is the password. *)
Definition plain_compare (password hash : string) : bool :=
  String.eqb password hash.

Definition mongo_sign (id : Mongo.ObjectId) (name : string) (iat : Z)
  : string :=
  "token-" ++ name.

Definition d1_sign (id : Z) (name : string) (exp : Z) : string :=
  "token-" ++ name.

(** *** Document store: alice is user 1, bob is user 2 *)

Definition menv : Mongo.Env :=
  {| Mongo.now := 100; Mongo.new_oid := 7; Mongo.entropy := zeros |}.

Definition menv' : Mongo.Env :=
  {| Mongo.now := 200; Mongo.new_oid := 8; Mongo.entropy := ones |}.

Definition mongo_init : Mongo.DB :=
  {| Mongo.users := [{| Mongo.u_id := 1; Mongo.username := "alice";
                        Mongo.passwordHash := "wonderland" |}];
     Mongo.queries := [] |}.

Definition mbody (t x : option string) (tg : option (list string))
  : Mongo.Body :=
  {| Mongo.b_title := t; Mongo.b_text := x; Mongo.b_tags := tg;
     Mongo.b_user := None; Mongo.b_isPublic := None;
     Mongo.b_shareId := None; Mongo.b_createdAt := None |}.

(** A body that also tries to set the owner, the share state and the
    creation time. *)
Definition mbody_greedy : Mongo.Body :=
  {| Mongo.b_title := Some "renamed"; Mongo.b_text := Some "select 2";
     Mongo.b_tags := Some ["New"];
     Mongo.b_user := Some 2%nat; Mongo.b_isPublic := Some true;
     Mongo.b_shareId := Some "mine"; Mongo.b_createdAt := Some 0%Z |}.

Definition sql_tags : list string := [" SQL "; "sql"; ""; "Perf"].

(** alice has stored one query, with the id 7. *)
Definition mongo_one : Mongo.DB :=
  snd (Mongo.handle
         (Mongo.CreateQuery 1
            (mbody (Some "t") (Some "select 1") (Some ["A"; " b "])))
         menv mongo_init).

Definition mongo_alice_query : Mongo.QueryDoc :=
  {| Mongo._id := 7; Mongo.title := "t"; Mongo.text := "select 1";
     Mongo.tags := ["a"; "b"]; Mongo.user := 1; Mongo.isPublic := false;
     Mongo.shareId := None; Mongo.createdAt := 100 |}.

(** ... and has shared it. *)
Definition mongo_shared : Mongo.DB :=
  snd (Mongo.handle (Mongo.ShareQuery 1 7) menv mongo_one).

(** *** Relational store *)

Definition denv : D1.Env := {| D1.now := 100; D1.entropy := zeros |}.

Definition denv' : D1.Env := {| D1.now := 200; D1.entropy := ones |}.

Definition d1_init : D1.DB :=
  {| D1.users := [{| D1.uid := 1; D1.username := "alice";
                     D1.password_hash := "wonderland" |};
                  {| D1.uid := 2; D1.username := "bob";
                     D1.password_hash := "builder" |}];
     D1.queries := []; D1.query_tags := []; D1.queries_seq := 0 |}.

Definition dbody (t x : option string) (tg : option (list string)) : D1.Body :=
  {| D1.b_title := t; D1.b_text := x; D1.b_tags := tg;
     D1.b_user_id := None; D1.b_is_public := None;
     D1.b_share_id := None; D1.b_created_at := None |}.

Definition dbody_greedy : D1.Body :=
  {| D1.b_title := Some "renamed"; D1.b_text := Some "select 2";
     D1.b_tags := Some ["New"];
     D1.b_user_id := Some 2%Z; D1.b_is_public := Some 0%Z;
     D1.b_share_id := Some "mine"; D1.b_created_at := Some 0%Z |}.

(** alice has stored one query, with the id 1 and the tags a and b. *)
Definition d1_one : D1.DB :=
  snd (D1.handle
         (D1.CreateQuery (Some 1%Z)
            (dbody (Some "t") (Some "select 1") (Some ["A"; " b "])))
         denv d1_init).

Definition d1_alice_query : D1.QueryRow :=
  {| D1.id := 1; D1.user_id := 1; D1.title := "t"; D1.text := "select 1";
     D1.is_public := 0; D1.share_id := None; D1.created_at := 100 |}.

Definition d1_shared : D1.DB :=
  snd (D1.handle (D1.ShareQuery (Some 1%Z) 1) denv d1_one).

(** bob has stored one query, with the tags sent as zeta, Alpha. *)
Definition d1_unsorted : D1.DB :=
  snd (D1.handle
         (D1.CreateQuery (Some 2%Z)
            (dbody (Some "u") (Some "select 3") (Some ["zeta"; "Alpha"])))
         denv d1_init).

(** *** Stand-ins for the other trusted functions *)

(** A stand-in for [bcrypt.hash], the counterpart of [plain_compare]. *)
Definition plain_hash (password salt : string) : string := password.

(** A stand-in for [verify]: the one valid token is "good", of user 1. *)
Definition verify_demo (token key : string) : option Z :=
  if String.eqb token "good" then Some 1%Z else None.

(** The schema, just created. *)
Definition d1_empty : D1.DB :=
  {| D1.users := []; D1.queries := []; D1.query_tags := [];
     D1.queries_seq := 0 |}.

(** alice has signed up. *)
Definition d1_signed_up : D1.DB :=
  snd (D1.signup plain_hash "alice" "wonderland" "salt" d1_empty).

End Sample.

(* ================================================================== *)
(** * Properties *)

(** ** Strings and tags *)

Module JSFacts.
Import JS.

Lemma is_ws_lower_char (c : ascii) : is_ws (lower_char c) = is_ws c.
Proof. destruct c as [[] [] [] [] [] [] [] []]; reflexivity. Qed.

Lemma trimStart_toLowerCase (s : string) :
  trimStart (toLowerCase s) = toLowerCase (trimStart s).
Proof.
  induction s as [|c s IH]; simpl; [reflexivity|].
  rewrite is_ws_lower_char. destruct (is_ws c); [exact IH | reflexivity].
Qed.

Lemma trimEnd_toLowerCase (s : string) :
  trimEnd (toLowerCase s) = toLowerCase (trimEnd s).
Proof.
  induction s as [|c s IH]; simpl; [reflexivity|].
  rewrite IH, is_ws_lower_char.
  destruct (trimEnd s); simpl; [destruct (is_ws c)|]; reflexivity.
Qed.

Lemma trim_toLowerCase (s : string) :
  trim (toLowerCase s) = toLowerCase (trim s).
Proof.
  unfold trim. now rewrite trimStart_toLowerCase, trimEnd_toLowerCase.
Qed.

Lemma trimEnd_idem (s : string) : trimEnd (trimEnd s) = trimEnd s.
Proof.
  induction s as [|c s IH]; simpl; [reflexivity|].
  destruct (trimEnd s) as [|d r] eqn:E.
  - destruct (is_ws c) eqn:W; simpl; [reflexivity | now rewrite W].
  - change (trimEnd (String c (String d r))) with
      (match trimEnd (String d r) with
       | EmptyString => if is_ws c then EmptyString else String c EmptyString
       | r' => String c r'
       end).
    rewrite IH. reflexivity.
Qed.

Lemma trimStart_clean (s : string) : starts_clean (trimStart s) = true.
Proof.
  induction s as [|c s IH]; simpl; [reflexivity|].
  destruct (is_ws c) eqn:W; [exact IH | simpl; now rewrite W].
Qed.

Lemma trimStart_of_clean (s : string) :
  starts_clean s = true -> trimStart s = s.
Proof.
  destruct s as [|c s]; simpl; [reflexivity|].
  now destruct (is_ws c).
Qed.

Lemma trimEnd_clean (s : string) :
  starts_clean s = true -> starts_clean (trimEnd s) = true.
Proof.
  destruct s as [|c s]; simpl; [reflexivity|]. intros W.
  destruct (trimEnd s); [|exact W].
  destruct (is_ws c) eqn:E; [discriminate|]. simpl. now rewrite E.
Qed.

Lemma trim_idem (s : string) : trim (trim s) = trim s.
Proof.
  unfold trim.
  rewrite (trimStart_of_clean (trimEnd (trimStart s))).
  - apply trimEnd_idem.
  - apply trimEnd_clean, trimStart_clean.
Qed.

Lemma truthy_true_iff (s : string) : truthy s = true <-> s <> EmptyString.
Proof. destruct s; simpl; split; congruence. Qed.

Lemma split_cons (sep : ascii) (s : string) :
  exists h t, split sep s = h :: t.
Proof.
  induction s as [|c s [h [t IH]]]; simpl; [now eexists; eexists|].
  destruct (Ascii.eqb c sep); [now eexists; eexists|].
  rewrite IH. now eexists; eexists.
Qed.

(** The first piece of a string whose first character is not the
    separator is not empty. *)
Lemma split_head_truthy (sep c : ascii) (s : string) :
  Ascii.eqb c sep = false ->
  truthy (nth 0 (split sep (String c s)) "undefined") = true.
Proof.
  intros E. simpl. rewrite E.
  destruct (split_cons sep s) as [h [t ->]]. reflexivity.
Qed.

End JSFacts.

Module TagFacts.
Import JS JSFacts.

Lemma normalise_tag_trimmed (t : string) :
  trim (normalise_tag t) = normalise_tag t.
Proof.
  unfold normalise_tag. now rewrite trim_toLowerCase, trim_idem.
Qed.

Lemma tagValues_trimmed (l : list string) :
  map trim (tagValues l) = tagValues l.
Proof.
  unfold tagValues. induction l as [|t l IH]; simpl; [reflexivity|].
  destruct (truthy (normalise_tag t)); simpl; [|exact IH].
  now rewrite normalise_tag_trimmed, IH.
Qed.

Lemma processedTags_trimmed (o : option (list string)) :
  map trim (processedTags o) = processedTags o.
Proof. destruct o; simpl; [apply tagValues_trimmed | reflexivity]. Qed.

Lemma In_tagValues (l : list string) (t : string) :
  In t (tagValues l) <->
  exists raw, In raw l /\ t = toLowerCase (trim raw) /\ t <> EmptyString.
Proof.
  unfold tagValues. rewrite filter_In, in_map_iff, truthy_true_iff.
  unfold normalise_tag. split.
  - intros [[raw [E H]] N]. exists raw. now subst.
  - intros [raw [H [E N]]]. split; [exists raw; now subst | exact N].
Qed.

End TagFacts.

(** ** Tokens *)

Module TokenFacts.
Import JS JSFacts.

Lemma hex_byte_head (b : byte) :
  exists c s, hex_byte b = String c s /\ Ascii.eqb c "-" = false.
Proof.
  unfold hex_byte. eexists. eexists. split; [reflexivity|].
  destruct b; reflexivity.
Qed.

Lemma hex_truthy (b : byte) (bs : list byte) : truthy (hex (b :: bs)) = true.
Proof. reflexivity. Qed.

Lemma mongo_new_shareId_truthy (env : Mongo.Env) :
  truthy (Mongo.new_shareId env) = true.
Proof. reflexivity. Qed.

Lemma truthy_app (a b : string) : truthy a = true -> truthy (a ++ b) = true.
Proof. destruct a; simpl; congruence. Qed.

Lemma d1_new_shareId_truthy (env : D1.Env) :
  truthy (D1.new_shareId env) = true.
Proof.
  unfold D1.new_shareId. apply truthy_app. unfold D1.at_index.
  unfold D1.randomUUID, randomBytes.
  change (map (D1.entropy env) (seq 0 16)) with
    (D1.entropy env 0%nat :: map (D1.entropy env) (seq 1 15)).
  change (firstn 4 (D1.entropy env 0%nat :: map (D1.entropy env) (seq 1 15)))
    with (D1.entropy env 0%nat :: firstn 3 (map (D1.entropy env) (seq 1 15))).
  cbn [hex].
  destruct (hex_byte_head (D1.entropy env 0%nat)) as [c [s [-> E]]].
  cbn [append]. now apply split_head_truthy.
Qed.

End TokenFacts.

(** ** The document store *)

Module MongoFacts.
Import JS JSFacts Mongo.

(** *** Lists *)

Lemma mongo_In_insert_desc (q x : QueryDoc) (l : list QueryDoc) :
  In x (insert_desc q l) <-> x = q \/ In x l.
Proof.
  induction l as [|h t IH]; simpl.
  - intuition congruence.
  - destruct (Z.leb (createdAt h) (createdAt q)); simpl;
      [intuition congruence|].
    rewrite IH. intuition congruence.
Qed.

Lemma mongo_In_sort_desc (x : QueryDoc) (l : list QueryDoc) :
  In x (sort_desc l) <-> In x l.
Proof.
  induction l as [|h t IH]; simpl; [tauto|].
  rewrite mongo_In_insert_desc, IH. intuition congruence.
Qed.

Lemma mongo_In_listByOwner (caller : ObjectId) (db : DB) (q : QueryDoc) :
  In q (listByOwner caller db) <-> In q (queries db) /\ user q = caller.
Proof.
  unfold listByOwner, of_user.
  rewrite mongo_In_sort_desc, filter_In, Nat.eqb_eq. tauto.
Qed.

Lemma update_first_ids (p : QueryDoc -> bool) (f : QueryDoc -> QueryDoc)
  (c : list QueryDoc) :
  (forall q, _id (f q) = _id q) ->
  map _id (update_first p f c) = map _id c.
Proof.
  intros Hf. induction c as [|q c IH]; simpl; [reflexivity|].
  destruct (p q); simpl; [now rewrite Hf | now rewrite IH].
Qed.

Lemma update_first_Forall (P : QueryDoc -> Prop) (p : QueryDoc -> bool)
  (f : QueryDoc -> QueryDoc) (c : list QueryDoc) :
  (forall q, P q -> P (f q)) ->
  Forall P c -> Forall P (update_first p f c).
Proof.
  intros Hf. induction 1 as [|q c Hq Hc IH]; simpl; [constructor|].
  destruct (p q); constructor; auto.
Qed.

Lemma update_first_none (p : QueryDoc -> bool) (f : QueryDoc -> QueryDoc)
  (c : list QueryDoc) :
  find p c = None -> update_first p f c = c.
Proof.
  induction c as [|q c IH]; simpl; [reflexivity|].
  destruct (p q); [discriminate | intros H; now rewrite IH].
Qed.

Lemma In_remove_first (p : QueryDoc -> bool) (c : list QueryDoc)
  (x : QueryDoc) :
  In x (remove_first p c) -> In x c.
Proof.
  induction c as [|q c IH]; simpl; [tauto|].
  destruct (p q); simpl; intuition.
Qed.

Lemma remove_first_Forall (P : QueryDoc -> Prop) (p : QueryDoc -> bool)
  (c : list QueryDoc) :
  Forall P c -> Forall P (remove_first p c).
Proof.
  rewrite !Forall_forall. intros H x Hx. apply H.
  eapply In_remove_first; eauto.
Qed.

Lemma remove_first_NoDup (p : QueryDoc -> bool) (c : list QueryDoc) :
  NoDup (map _id c) -> NoDup (map _id (remove_first p c)).
Proof.
  induction c as [|q c IH]; simpl; [auto|].
  intros H. inversion H as [|? ? Hn Hd]; subst.
  destruct (p q); [exact Hd|]. simpl. constructor; [|auto].
  intros Hin. apply Hn. apply in_map_iff in Hin as [x [E Hx]].
  apply in_map_iff. exists x. split; [exact E|].
  eapply In_remove_first; eauto.
Qed.

Lemma id_taken_false (i : ObjectId) (c : list QueryDoc) :
  id_taken i c = false <-> ~ In i (map _id c).
Proof.
  unfold id_taken, has_id. induction c as [|q c IH]; simpl; [intuition|].
  rewrite orb_false_iff, IH, Nat.eqb_neq. intuition.
Qed.

(** *** Every handler keeps the store well formed *)

Lemma share_inv_set_content t x tg q :
  share_inv q -> share_inv (set_content t x tg q).
Proof. exact (fun H => H). Qed.

Lemma mongo_share_inv_set_shared s q : share_inv (set_shared s q).
Proof. unfold share_inv; simpl. split; congruence. Qed.

Ltac case_handler :=
  repeat match goal with
  | |- context [if ?b then _ else _] => destruct b eqn:?
  | |- context [match find ?p ?c with _ => _ end] => destruct (find p c) eqn:?
  | |- context [match required ?o with _ => _ end] => destruct (required o) eqn:?
  | |- context [match save_new ?e ?d ?c with _ => _ end] =>
      destruct (save_new e d c) as [[? ?]|?] eqn:?
  end.

Lemma save_new_Ok env d c doc c' :
  save_new env d c = Ok (doc, c') ->
  c' = c ++ [doc] /\ ~ In (_id doc) (map _id c) /\ _id doc = new_oid env
  /\ isPublic doc = false /\ shareId doc = None /\ user doc = d_user d
  /\ createdAt doc = now env /\ tags doc = schema_tags (d_tags d)
  /\ d_title d = Some (title doc) /\ d_text d = Some (text doc)
  /\ truthy (title doc) = true /\ truthy (text doc) = true.
Proof.
  unfold save_new, required.
  destruct (d_title d) as [t|]; [|discriminate].
  destruct (truthy t) eqn:Ht; [|discriminate].
  destruct (d_text d) as [x|]; [|discriminate].
  destruct (truthy x) eqn:Hx; [|discriminate].
  cbn [_id]. destruct (id_taken (new_oid env) c) eqn:E; [discriminate|].
  intros H. inversion H; subst; clear H. simpl.
  rewrite id_taken_false in E. repeat split; auto.
Qed.

Lemma mongo_wf_preserved (r : Request) (env : Env) (db : DB) :
  wf db -> wf (snd (handle r env db)).
Proof.
  intros [Hu Hq]. unfold wf, unique_ids in *.
  destruct r; simpl; unfold get_queries, post_queries, put_queries,
    delete_queries, post_share, get_public; case_handler; simpl;
    try (split; assumption).
  - (* create *)
    apply save_new_Ok in Heqr as (-> & Hn & _ & Hp & Hs & _).
    split.
    + rewrite map_app. simpl.
      apply NoDup_Add with (a := _id q) (l := map _id (queries db)).
      * clear. induction (map _id (queries db)); simpl; constructor; auto.
      * split; assumption.
    + apply Forall_app. split; [assumption|]. constructor; [|constructor].
      unfold share_inv, token_ok. rewrite Hp, Hs. repeat split; congruence.
  - (* update *)
    split.
    + now rewrite update_first_ids.
    + apply update_first_Forall; auto.
  - (* delete *)
    split; [now apply remove_first_NoDup | now apply remove_first_Forall].
  - (* share *)
    split.
    + now rewrite update_first_ids.
    + apply update_first_Forall; [|assumption].
      intros q0 _. split; [apply mongo_share_inv_set_shared|].
      intros t Ht. simpl in Ht. inversion Ht; subst.
      apply TokenFacts.mongo_new_shareId_truthy.
Qed.

Lemma mongo_reachable_wf (db : DB) : reachable db -> wf db.
Proof.
  induction 1 as [us|db r env _ IH].
  - split; [constructor | constructor].
  - now apply mongo_wf_preserved.
Qed.

(** *** Ownership *)

Lemma find_None_iff (p : QueryDoc -> bool) (c : list QueryDoc) :
  find p c = None <-> forall x, In x c -> p x = false.
Proof.
  split; [apply find_none|].
  intros H. destruct (find p c) as [x|] eqn:E; [|reflexivity].
  apply find_some in E as [Hin Hp]. rewrite (H x Hin) in Hp. discriminate.
Qed.

Lemma mongo_unique_ids_inj (c : list QueryDoc) (x y : QueryDoc) :
  NoDup (map _id c) -> In x c -> In y c -> _id x = _id y -> x = y.
Proof.
  induction c as [|h c IH]; simpl; [tauto|].
  intros H Hx Hy E. inversion H as [|? ? Hn Hd]; subst.
  destruct Hx as [->|Hx], Hy as [->|Hy]; auto.
  - exfalso. apply Hn. rewrite E. now apply in_map.
  - exfalso. apply Hn. rewrite <- E. now apply in_map.
Qed.

(** Another user's query is invisible to the owner-scoped filter. *)
Lemma foreign_not_found (db : DB) (A B : ObjectId) (q : QueryDoc) :
  unique_ids db -> In q (queries db) -> user q = A -> A <> B ->
  find (owned_by (_id q) B) (queries db) = None.
Proof.
  intros Hu Hq HA HAB. apply find_None_iff. intros x Hx.
  unfold owned_by. apply andb_false_iff.
  destruct (Nat.eqb (_id x) (_id q)) eqn:E; [right | now left].
  apply Nat.eqb_eq in E.
  rewrite (mongo_unique_ids_inj _ x q Hu Hx Hq E). apply Nat.eqb_neq. congruence.
Qed.

(** An id that no query carries is not found either. *)
Lemma absent_not_found (db : DB) (B id : ObjectId) :
  id_taken id (queries db) = false ->
  find (owned_by id B) (queries db) = None.
Proof.
  intros H. apply find_None_iff. intros x Hx. unfold owned_by.
  apply andb_false_iff. left. apply Nat.eqb_neq. intros E.
  apply id_taken_false in H. apply H. rewrite <- E. now apply in_map.
Qed.

Lemma guard_passed (b : Body) :
  missing_title_or_text b = false ->
  exists t x, b_title b = Some t /\ b_text b = Some x
              /\ truthy t = true /\ truthy x = true.
Proof.
  unfold missing_title_or_text, truthy_opt.
  destruct (b_title b) as [t|], (b_text b) as [x|]; simpl;
    try discriminate; try (rewrite orb_true_r; discriminate).
  - intros H. apply orb_false_iff in H as [Ht Hx].
    apply negb_false_iff in Ht, Hx. now exists t, x.
Qed.

Lemma guard_required (b : Body) :
  missing_title_or_text b = false ->
  exists t x, b_title b = Some t /\ b_text b = Some x
              /\ required (b_title b) = Some t /\ required (b_text b) = Some x.
Proof.
  intros H. destruct (guard_passed b H) as (t & x & Ht & Hx & Tt & Tx).
  exists t, x. rewrite Ht, Hx. simpl. now rewrite Tt, Tx.
Qed.

(** What every owner-scoped operation answers when the filter
    [{ _id, user }] matches nothing. *)
Lemma mongo_unmatched_outcomes (db : DB) (B id : ObjectId) :
  find (owned_by id B) (queries db) = None ->
  delete_queries B id db = (not_found, db)
  /\ (forall env, post_share B id env db = (not_found, db))
  /\ (forall b, missing_title_or_text b = false ->
                put_queries B id b db = (not_found, db))
  /\ (forall b, missing_title_or_text b = true ->
                put_queries B id b db
                = (message 400 "Title and text are required.", db)).
Proof.
  intros H. unfold delete_queries, post_share, put_queries. rewrite H.
  repeat split; auto.
  - intros b Hb. rewrite Hb.
    destruct (guard_required b Hb) as (t & x & _ & _ & -> & ->). reflexivity.
  - intros b Hb. now rewrite Hb.
Qed.

(** *** Sharing *)

Lemma find_update_own (id caller : ObjectId) (f : QueryDoc -> QueryDoc)
  (c : list QueryDoc) (q : QueryDoc) :
  NoDup (map _id c) ->
  (forall x, _id (f x) = _id x /\ user (f x) = user x) ->
  find (owned_by id caller) c = Some q ->
  find (owned_by id caller) (update_first (has_id (_id q)) f c) = Some (f q).
Proof.
  intros Hu Hf. induction c as [|h c IH]; simpl; [discriminate|].
  inversion Hu as [|? ? Hn Hd]; subst.
  destruct (owned_by id caller h) eqn:E.
  - intros H. inversion H; subst. unfold has_id. rewrite Nat.eqb_refl. simpl.
    unfold owned_by in *. destruct (Hf q) as [-> ->]. now rewrite E.
  - intros H. destruct (has_id (_id q) h) eqn:E'.
    + exfalso. apply Hn. apply Nat.eqb_eq in E'. rewrite E'.
      apply in_map. now apply find_some in H.
    + simpl. rewrite E. auto.
Qed.

Lemma find_update_same (p : QueryDoc -> bool) (f : QueryDoc -> QueryDoc)
  (c : list QueryDoc) (q : QueryDoc) :
  (forall x, p (f x) = p x) ->
  find p c = Some q -> find p (update_first p f c) = Some (f q).
Proof.
  intros Hf. induction c as [|h c IH]; simpl; [discriminate|].
  destruct (p h) eqn:E.
  - intros H. inversion H; subst. simpl. now rewrite Hf, E.
  - intros H. simpl. rewrite E. auto.
Qed.

Lemma mongo_public_has_token (db : DB) (q : QueryDoc) :
  wf db -> In q (queries db) -> isPublic q = true ->
  exists t, shareId q = Some t /\ truthy t = true.
Proof.
  intros [_ H] Hq Hp. rewrite Forall_forall in H.
  destruct (H q Hq) as [Hs Ht]. destruct (shareId q) as [t|] eqn:E.
  - exists t. split; [reflexivity | now apply Ht].
  - exfalso. now apply Hs.
Qed.

(** An already public query: the stored token is answered and the
    store is not written. *)
Lemma mongo_share_public (db : DB) (caller id : ObjectId) (q : QueryDoc) :
  wf db -> find (owned_by id caller) (queries db) = Some q ->
  isPublic q = true ->
  exists t, shareId q = Some t
    /\ forall env, post_share caller id env db
                   = (mkResponse 200 (JObj [("shareId", JStr t)]), db).
Proof.
  intros Hwf Hf Hp.
  destruct (mongo_public_has_token db q Hwf (proj1 (find_some _ _ Hf)) Hp)
    as [t [Ht Tt]].
  exists t. split; [exact Ht|]. intros env. unfold post_share.
  rewrite Hf, Hp, Ht. simpl. now rewrite Tt.
Qed.

(** The first successful share decides the token for good. *)
Lemma mongo_share_twice (db : DB) (caller id : ObjectId) (q : QueryDoc)
  (env1 env2 : Env) :
  wf db -> find (owned_by id caller) (queries db) = Some q ->
  status (fst (post_share caller id env1 db)) = 200%Z ->
  exists t q1,
    fst (post_share caller id env1 db)
    = mkResponse 200 (JObj [("shareId", JStr t)])
    /\ find (owned_by id caller) (queries (snd (post_share caller id env1 db)))
       = Some q1
    /\ isPublic q1 = true /\ shareId q1 = Some t
    /\ post_share caller id env2 (snd (post_share caller id env1 db))
       = (mkResponse 200 (JObj [("shareId", JStr t)]),
          snd (post_share caller id env1 db)).
Proof.
  intros Hwf Hf.
  destruct (isPublic q && truthy_opt (shareId q)) eqn:E.
  - intros _. apply andb_true_iff in E as [Hp _].
    destruct (mongo_share_public db caller id q Hwf Hf Hp) as [t [Ht Hs]].
    exists t, q. rewrite !Hs. simpl. repeat split; auto.
  - assert (H1 : post_share caller id env1 db
                 = if shareId_taken (new_shareId env1) (_id q) (queries db)
                   then (message 500 "Error sharing query.", db)
                   else (mkResponse 200
                           (JObj [("shareId", JStr (new_shareId env1))]),
                         with_queries db
                           (update_first (has_id (_id q))
                              (set_shared (new_shareId env1)) (queries db)))).
    { unfold post_share. now rewrite Hf, E. }
    rewrite H1.
    destruct (shareId_taken (new_shareId env1) (_id q) (queries db));
      simpl; [discriminate|]. intros _.
    exists (new_shareId env1), (set_shared (new_shareId env1) q).
    assert (Hf' : find (owned_by id caller)
                    (update_first (has_id (_id q))
                       (set_shared (new_shareId env1)) (queries db))
                  = Some (set_shared (new_shareId env1) q)).
    { apply find_update_own; [apply Hwf | now intros | exact Hf]. }
    repeat split; auto.
    unfold post_share. cbn [queries with_queries]. rewrite Hf'.
    cbn [isPublic shareId set_shared truthy_opt andb].
    now rewrite TokenFacts.mongo_new_shareId_truthy.
Qed.

(** A private owned query is shared as soon as the fresh token is not
    in use. *)
Lemma mongo_share_fresh (db : DB) (caller id : ObjectId) (q : QueryDoc) (env : Env) :
  find (owned_by id caller) (queries db) = Some q ->
  isPublic q = false ->
  shareId_taken (new_shareId env) (_id q) (queries db) = false ->
  fst (post_share caller id env db)
  = mkResponse 200 (JObj [("shareId", JStr (new_shareId env))]).
Proof.
  intros Hf Hp Ht. unfold post_share. now rewrite Hf, Hp, Ht.
Qed.

(** *** The share invariant on its own *)

Lemma mongo_share_inv_preserved (r : Request) (env : Env) (db : DB) :
  Forall share_inv (queries db) ->
  Forall share_inv (queries (snd (handle r env db))).
Proof.
  intros Hq.
  destruct r; simpl; unfold get_queries, post_queries, put_queries,
    delete_queries, post_share, get_public; case_handler; simpl;
    try assumption.
  - apply save_new_Ok in Heqr as (-> & _ & _ & Hp & Hs & _).
    apply Forall_app. split; [assumption|]. constructor; [|constructor].
    unfold share_inv. rewrite Hp, Hs. split; congruence.
  - apply update_first_Forall; auto.
  - now apply remove_first_Forall.
  - apply update_first_Forall; [|assumption].
    intros q0 _. apply mongo_share_inv_set_shared.
Qed.

Lemma mongo_reachable_share_inv (db : DB) :
  reachable db -> Forall share_inv (queries db).
Proof.
  intros H. apply mongo_reachable_wf in H as [_ H].
  eapply Forall_impl; [|exact H]. now intros q [Hs _].
Qed.

(** A created query is private and carries no token. *)
Lemma mongo_create_private (caller : ObjectId) (b : Body) (env : Env) (db : DB) :
  status (fst (post_queries caller b env db)) = 201%Z ->
  exists doc, queries (snd (post_queries caller b env db)) = queries db ++ [doc]
              /\ isPublic doc = false /\ shareId doc = None.
Proof.
  unfold post_queries. case_handler; simpl; try discriminate. intros _.
  apply save_new_Ok in Heqr as (-> & _ & _ & Hp & Hs & _). now exists q.
Qed.

Lemma In_update_first_new (p : QueryDoc -> bool) (f : QueryDoc -> QueryDoc)
  (c : list QueryDoc) (x : QueryDoc) :
  In x (update_first p f c) -> ~ In x c -> exists q, In q c /\ x = f q.
Proof.
  induction c as [|h c IH]; simpl; [tauto|].
  destruct (p h); simpl.
  - intros [<-|H] Hn; [exists h; auto | tauto].
  - intros [<-|H] Hn; [tauto|].
    destruct IH as [q [Hq E]]; [assumption | tauto | exists q; auto].
Qed.

(** Sharing writes the flag and the token together. *)
Lemma mongo_share_sets_both (caller id : ObjectId) (env : Env) (db : DB)
  (q' : QueryDoc) :
  In q' (queries (snd (post_share caller id env db))) ->
  ~ In q' (queries db) ->
  isPublic q' = true /\ shareId q' = Some (new_shareId env).
Proof.
  unfold post_share. case_handler; simpl; try tauto.
  intros Hin Hnew.
  destruct (In_update_first_new _ _ _ _ Hin Hnew) as [q0 [_ ->]]. now split.
Qed.

(** *** The public view *)

Lemma mongo_public_view_fields (sid : string) (db : DB) :
  status (fst (get_public sid db)) = 200%Z ->
  keys (body (fst (get_public sid db))) = ["title"; "text"; "tags"; "createdAt"].
Proof. unfold get_public. case_handler; simpl; [reflexivity | discriminate]. Qed.

Lemma mongo_public_view_tags (sid : string) (db : DB) :
  status (fst (get_public sid db)) = 200%Z ->
  exists l, obj_get "tags" (body (fst (get_public sid db))) = Some (str_array l).
Proof.
  unfold get_public. case_handler; simpl; [|discriminate].
  intros _. now eexists.
Qed.

(** *** Stored tags *)

Lemma mongo_create_stores_tags (caller : ObjectId) (b : Body) (env : Env) (db : DB) :
  status (fst (post_queries caller b env db)) = 201%Z ->
  exists doc, queries (snd (post_queries caller b env db)) = queries db ++ [doc]
              /\ user doc = caller
              /\ tags doc = processedTags (b_tags b).
Proof.
  unfold post_queries. case_handler; simpl; try discriminate. intros _.
  apply save_new_Ok in Heqr as (-> & _ & _ & _ & _ & Hu & _ & Ht & _).
  exists q. simpl in *. rewrite Ht. unfold schema_tags.
  now rewrite TagFacts.processedTags_trimmed.
Qed.

Lemma owned_by_set_content id caller t x tg q :
  owned_by id caller (set_content t x tg q) = owned_by id caller q.
Proof. reflexivity. Qed.

Lemma mongo_update_stores_tags (caller id : ObjectId) (b : Body) (db : DB) :
  status (fst (put_queries caller id b db)) = 200%Z ->
  exists q', find (owned_by id caller) (queries (snd (put_queries caller id b db)))
             = Some q'
             /\ tags q' = processedTags (b_tags b)
             /\ fst (put_queries caller id b db) = mkResponse 200 (toJSON q').
Proof.
  unfold put_queries. case_handler; simpl; try discriminate. intros _.
  exists (set_content s s0 (processedTags (b_tags b)) q). split; [|split].
  - apply find_update_same; [apply owned_by_set_content | assumption].
  - simpl. unfold schema_tags. apply TagFacts.processedTags_trimmed.
  - reflexivity.
Qed.

(** *** Validation *)

Lemma missing_iff (b : Body) :
  missing_title_or_text b = true <->
  (b_title b = None \/ b_title b = Some EmptyString
   \/ b_text b = None \/ b_text b = Some EmptyString).
Proof.
  unfold missing_title_or_text, truthy_opt.
  destruct (b_title b) as [[|c t]|], (b_text b) as [[|d x]|]; simpl;
    split; intros H; auto; try discriminate;
    repeat (destruct H as [H|H]; try discriminate).
Qed.

Lemma create_400_iff (caller : ObjectId) (b : Body) (env : Env) (db : DB) :
  status (fst (post_queries caller b env db)) = 400%Z
  <-> missing_title_or_text b = true.
Proof.
  unfold post_queries. case_handler; simpl; split; intros H;
    try reflexivity; try discriminate.
Qed.

Lemma create_400_stores_nothing (caller : ObjectId) (b : Body) (env : Env)
  (db : DB) :
  status (fst (post_queries caller b env db)) = 400%Z ->
  snd (post_queries caller b env db) = db.
Proof.
  unfold post_queries. case_handler; simpl; intros H;
    try reflexivity; discriminate.
Qed.

(** With both fields present and a fresh ObjectId the query is
    created as sent, white space included. *)
Lemma create_accepts (caller : ObjectId) (t x : string) (b : Body) (env : Env)
  (db : DB) :
  b_title b = Some t -> b_text b = Some x ->
  t <> EmptyString -> x <> EmptyString ->
  id_taken (new_oid env) (queries db) = false ->
  exists doc, post_queries caller b env db
              = (mkResponse 201 (toJSON doc), with_queries db (queries db ++ [doc]))
              /\ title doc = t /\ text doc = x.
Proof.
  intros Ht Hx Nt Nx Hid. apply truthy_true_iff in Nt, Nx.
  unfold post_queries, missing_title_or_text, save_new, required.
  cbn [d_title d_text d_tags d_user _id].
  rewrite Ht, Hx. cbn [truthy_opt]. rewrite Nt, Nx, Hid. simpl.
  eexists. split; [reflexivity|]. now split.
Qed.

(** *** The frame of an update *)

Lemma update_first_frame (p : QueryDoc -> bool) (f : QueryDoc -> QueryDoc)
  (c : list QueryDoc) :
  (forall q, same_frame q (f q)) ->
  Forall2 (fun q q' => same_frame q q' /\ (p q = false -> q' = q))
          c (update_first p f c).
Proof.
  intros Hf. induction c as [|q c IH]; simpl; [constructor|].
  destruct (p q) eqn:E.
  - constructor; [split; [apply Hf | congruence]|].
    clear. induction c; constructor; auto. split; [now repeat split | auto].
  - constructor; [split; [now repeat split | auto] | exact IH].
Qed.

Lemma mongo_update_frame (caller id : ObjectId) (b : Body) (db : DB) :
  status (fst (put_queries caller id b db)) = 200%Z ->
  users (snd (put_queries caller id b db)) = users db
  /\ Forall2 (fun q q' => same_frame q q'
                          /\ (owned_by id caller q = false -> q' = q))
             (queries db) (queries (snd (put_queries caller id b db))).
Proof.
  unfold put_queries. case_handler; simpl; try discriminate. intros _.
  split; [reflexivity|]. apply update_first_frame.
  intros q0. now repeat split.
Qed.

(** *** One write per request *)

Lemma failure_leaves_store (r : Request) (env : Env) (db : DB) :
  (400 <= status (fst (handle r env db)))%Z -> snd (handle r env db) = db.
Proof.
  destruct r; simpl; unfold get_queries, post_queries, put_queries,
    delete_queries, post_share, get_public; case_handler; simpl;
    intros H; try reflexivity; lia.
Qed.

(** *** Listing *)

Lemma toJSON_tags (q : QueryDoc) :
  obj_get "tags" (toJSON q) = Some (str_array (tags q)).
Proof. reflexivity. Qed.

Lemma mongo_list_tags (caller : ObjectId) (db : DB) :
  exists items,
    body (fst (get_queries caller db)) = JArr items
    /\ Forall (fun item => exists l, obj_get "tags" item = Some (str_array l))
              items.
Proof.
  unfold get_queries. simpl. eexists. split; [reflexivity|].
  apply Forall_forall. intros item Hin.
  apply in_map_iff in Hin as [q [<- _]]. exists (tags q). apply toJSON_tags.
Qed.

(** *** Login *)

Section Login.

Variable bcrypt_compare : string -> string -> bool.
Variable jwt_sign : ObjectId -> string -> Z -> string.

Lemma mongo_login_rejects (u p : string) (env : Env) (db : DB) :
  truthy u = true -> truthy p = true ->
  (forall usr, In usr (users db) -> username usr = trim u ->
               bcrypt_compare p (passwordHash usr) = false) ->
  login bcrypt_compare jwt_sign (Some u) (Some p) env db = invalid_credentials.
Proof.
  intros Tu Tp H. unfold login. cbn [truthy_opt]. rewrite Tu, Tp. simpl.
  destruct (find _ (users db)) as [usr|] eqn:E; [|reflexivity].
  apply find_some in E as [Hin Hn]. apply String.eqb_eq in Hn.
  now rewrite (H usr Hin Hn).
Qed.

End Login.

End MongoFacts.

(** ** The relational store *)

Module D1Facts.
Import JS JSFacts D1.

(** *** Lists and rows *)

Lemma db_eta (db : DB) :
  {| users := users db; queries := queries db;
     query_tags := query_tags db; queries_seq := queries_seq db |} = db.
Proof. now destruct db. Qed.

Lemma filter_all {A : Type} (p : A -> bool) (l : list A) :
  (forall x, In x l -> p x = true) -> filter p l = l.
Proof.
  induction l as [|a l IH]; simpl; [reflexivity|]. intros H.
  rewrite (H a (or_introl eq_refl)), IH; auto.
Qed.

Lemma filter_nil {A : Type} (p : A -> bool) (l : list A) :
  filter p l = [] <-> forall x, In x l -> p x = false.
Proof.
  induction l as [|a l IH]; simpl; [intuition|].
  destruct (p a) eqn:E; split.
  - discriminate.
  - intros H. rewrite (H a (or_introl eq_refl)) in E. discriminate.
  - intros H x [<-|Hx]; [assumption | now apply IH].
  - intros H. apply IH. auto.
Qed.

Lemma map_unchanged {A : Type} (p : A -> bool) (f : A -> A) (l : list A) :
  (forall x, In x l -> p x = false) ->
  map (fun x => if p x then f x else x) l = l.
Proof.
  induction l as [|a l IH]; simpl; [reflexivity|]. intros H.
  rewrite (H a (or_introl eq_refl)), IH; auto.
Qed.

Lemma find_map_stable {A : Type} (p : A -> bool) (g : A -> A) (l : list A) :
  (forall x, p (g x) = p x) ->
  find p (map g l) = option_map g (find p l).
Proof.
  intros Hg. induction l as [|a l IH]; simpl; [reflexivity|].
  rewrite Hg. now destruct (p a).
Qed.

Lemma max_id_ge (c : list QueryRow) (q : QueryRow) :
  In q c -> (id q <= max_id c)%Z.
Proof.
  induction c as [|h c IH]; simpl; [tauto|].
  intros [<-|H]; [lia | specialize (IH H); lia].
Qed.

Lemma has_id_In (qid : Z) (c : list QueryRow) :
  existsb (has_id qid) c = true <-> In qid (map id c).
Proof.
  rewrite existsb_exists, in_map_iff. unfold has_id.
  split; intros [q H]; exists q; rewrite Z.eqb_eq in *; tauto.
Qed.

Lemma d1_In_insert_desc (q x : QueryRow) (l : list QueryRow) :
  In x (insert_desc q l) <-> x = q \/ In x l.
Proof.
  induction l as [|h t IH]; simpl.
  - intuition congruence.
  - destruct (Z.leb (created_at h) (created_at q)); simpl;
      [intuition congruence|].
    rewrite IH. intuition congruence.
Qed.

Lemma d1_In_sort_desc (x : QueryRow) (l : list QueryRow) :
  In x (sort_desc l) <-> In x l.
Proof.
  induction l as [|h t IH]; simpl; [tauto|].
  rewrite d1_In_insert_desc, IH. intuition congruence.
Qed.

Lemma d1_In_listByOwner (caller : Z) (db : DB) (q : QueryRow) :
  In q (listByOwner caller db) <-> In q (queries db) /\ user_id q = caller.
Proof.
  unfold listByOwner. rewrite d1_In_sort_desc, filter_In, Z.eqb_eq. tauto.
Qed.

(** *** Every handler keeps the database well formed *)

Lemma preserves_ret (P : DB -> Prop) {A : Type} (a : A) : preserves P (ret a).
Proof. now intros db H. Qed.

Lemma preserves_throw (P : DB -> Prop) {A : Type} (e : string) :
  preserves P (@throw A e).
Proof. now intros db H. Qed.

Lemma preserves_bind (P : DB -> Prop) {A B : Type} (m : M A) (k : A -> M B) :
  preserves P m -> (forall a, preserves P (k a)) -> preserves P (mbind m k).
Proof.
  intros Hm Hk db H. unfold mbind. specialize (Hm db H).
  destruct (m db) as [[a|e] db']; simpl in *; [now apply Hk | assumption].
Qed.

Lemma preserves_for_each (P : DB -> Prop) {A : Type} (l : list A)
  (f : A -> M unit) :
  (forall a, preserves P (f a)) -> preserves P (for_each l f).
Proof.
  intros Hf. induction l as [|a l IH]; simpl; [apply preserves_ret|].
  apply preserves_bind; auto.
Qed.

Lemma preserves_read (P : DB -> Prop) {A : Type} (m : M A) :
  (forall db, snd (m db) = db) -> preserves P m.
Proof. intros E db H. now rewrite E. Qed.

Lemma preserves_bind_text (P : DB -> Prop) (o : option string) :
  preserves P (bind_text o).
Proof. destruct o; [apply preserves_ret | apply preserves_throw]. Qed.

Create HintDb d1.
#[local] Hint Resolve preserves_ret preserves_throw preserves_bind_text : d1.

Lemma wf_insert_query caller t x env : preserves wf (insert_query caller t x env).
Proof.
  intros db (Hu & Hr & Hq). unfold insert_query.
  destruct (negb _); simpl; [now repeat split|].
  unfold wf, unique_ids, tags_refer. simpl. repeat split.
  - rewrite map_app. simpl.
    apply NoDup_Add with (a := (Z.max (queries_seq db) (max_id (queries db)) + 1)%Z)
                         (l := map id (queries db)).
    + clear. induction (map id (queries db)); simpl; constructor; auto.
    + split; [assumption|]. intros Hin. apply in_map_iff in Hin as [q [E Hin]].
      apply max_id_ge in Hin. lia.
  - intros r Hin. rewrite map_app. apply in_or_app. left. now apply Hr.
  - apply Forall_app. split; [assumption|]. constructor; [|constructor].
    unfold share_inv, token_ok. simpl. repeat split; try congruence; auto.
Qed.

Lemma wf_insert_tag qid t : preserves wf (insert_tag qid t).
Proof.
  intros db (Hu & Hr & Hq). unfold insert_tag.
  destruct (existsb _ (query_tags db)); simpl; [now repeat split|].
  destruct (existsb (has_id qid) (queries db)) eqn:E; simpl; [|now repeat split].
  unfold wf, unique_ids, tags_refer. simpl. repeat split; auto.
  intros r Hin. apply in_app_or in Hin as [Hin|[<-|[]]]; [now apply Hr|].
  simpl. now apply has_id_In.
Qed.

Lemma wf_delete_query qid caller : preserves wf (delete_query qid caller).
Proof.
  intros db (Hu & Hr & Hq). unfold delete_query, wf, unique_ids, tags_refer.
  simpl. repeat split.
  - clear -Hu. unfold unique_ids in Hu.
    induction (queries db) as [|h c IH]; simpl; [constructor|].
    inversion Hu as [|? ? Hn Hd]; subst.
    destruct (negb (owned_by qid caller h)); simpl; [|auto].
    constructor; [|auto]. intros Hin. apply Hn.
    apply in_map_iff in Hin as [y [E Hy]]. apply filter_In in Hy as [Hy _].
    rewrite <- E. now apply in_map.
  - intros r Hin. apply filter_In in Hin as [Hin Hkeep].
    apply negb_true_iff in Hkeep.
    apply Hr in Hin. apply in_map_iff in Hin as [q [E Hin]].
    apply in_map_iff. exists q. split; [assumption|].
    apply filter_In. split; [assumption|]. apply negb_true_iff.
    destruct (owned_by qid caller q) eqn:O; [|reflexivity].
    exfalso. rewrite <- not_true_iff_false in Hkeep. apply Hkeep.
    apply existsb_exists. exists q. split.
    + apply filter_In. now split.
    + unfold has_id. now apply Z.eqb_eq.
  - rewrite Forall_forall in *. intros q Hin. apply Hq.
    now apply filter_In in Hin as [Hin _].
Qed.

Lemma wf_map_queries (g : QueryRow -> QueryRow) (db : DB) :
  (forall q, id (g q) = id q) ->
  (forall q, share_inv q /\ token_ok q -> share_inv (g q) /\ token_ok (g q)) ->
  wf db -> wf (with_queries db (map g (queries db))).
Proof.
  intros Hid Hg (Hu & Hr & Hq). unfold wf, unique_ids, tags_refer. simpl.
  assert (E : map id (map g (queries db)) = map id (queries db)).
  { rewrite map_map. apply map_ext. exact Hid. }
  rewrite E. repeat split; auto.
  rewrite Forall_forall in *. intros q' Hin.
  apply in_map_iff in Hin as [q [<- Hin]]. auto.
Qed.

Lemma wf_update_query t x qid caller : preserves wf (update_query t x qid caller).
Proof.
  intros db H. unfold update_query. simpl. apply wf_map_queries; auto.
  - intros q. now destruct (owned_by qid caller q).
  - intros q Hq. now destruct (owned_by qid caller q).
Qed.

Lemma wf_delete_tags qid : preserves wf (delete_tags qid).
Proof.
  intros db (Hu & Hr & Hq). unfold delete_tags, wf, unique_ids, tags_refer.
  simpl. repeat split; auto.
  intros r Hin. apply filter_In in Hin as [Hin _]. now apply Hr.
Qed.

Lemma d1_share_inv_set_shared s q : share_inv (set_shared s q).
Proof. unfold share_inv. simpl. repeat split; auto; congruence. Qed.

Lemma wf_update_share s qid :
  truthy s = true -> preserves wf (update_share s qid).
Proof.
  intros Hs db H. unfold update_share.
  destruct (_ && _); simpl; [assumption|].
  apply wf_map_queries; auto.
  - intros q. now destruct (has_id qid q).
  - intros q Hq. destruct (has_id qid q); [|assumption].
    split; [apply d1_share_inv_set_shared|].
    intros t Ht. simpl in Ht. now inversion Ht; subst.
Qed.

Lemma wf_insert_tags qid tags : preserves wf (insert_tags qid tags).
Proof.
  destruct tags as [[|t l]|]; simpl; auto with d1.
  apply preserves_for_each. intros a. apply wf_insert_tag.
Qed.

Lemma wf_handler (r : Request) (env : Env) : preserves wf (handler r env).
Proof.
  destruct r as [p|p b|p qid b|p qid|p qid|sid];
    unfold handler, get_queries, post_queries, put_queries, delete_queries,
      post_share;
    try (destruct p as [caller|]; [|auto with d1]).
  - now apply preserves_read.
  - repeat (apply preserves_bind; [solve [auto with d1] | intros ?]).
    apply preserves_bind; [apply wf_insert_query | intros ?].
    apply preserves_bind; [apply wf_insert_tags | intros ?]. auto with d1.
  - repeat (apply preserves_bind; [solve [auto with d1] | intros ?]).
    apply preserves_bind; [apply wf_update_query | intros ?].
    destruct (Z.eqb _ 0); [auto with d1|].
    apply preserves_bind; [apply wf_delete_tags | intros ?].
    apply preserves_bind; [apply wf_insert_tags | intros ?]. auto with d1.
  - apply preserves_bind; [apply wf_delete_query | intros ?].
    destruct (Z.eqb _ 0); auto with d1.
  - apply preserves_bind; [now apply preserves_read | intros [q|]];
      [|auto with d1].
    destruct (_ && _); [auto with d1|].
    apply preserves_bind; [|auto with d1].
    apply wf_update_share, TokenFacts.d1_new_shareId_truthy.
  - apply preserves_read. intros db. unfold get_public.
    now destruct (find _ _).
Qed.

Lemma snd_run (m : M Response) (db : DB) : snd (run m db) = snd (m db).
Proof. unfold run. now destruct (m db) as [[r|e] db']. Qed.

Lemma d1_wf_preserved (r : Request) (env : Env) (db : DB) :
  wf db -> wf (snd (handle r env db)).
Proof. intros H. unfold handle. rewrite snd_run. now apply wf_handler. Qed.

Lemma d1_reachable_wf (db : DB) : reachable db -> wf db.
Proof.
  induction 1 as [us|db r env _ IH].
  - unfold wf, unique_ids, tags_refer. simpl.
    repeat split; [constructor | tauto | constructor].
  - now apply d1_wf_preserved.
Qed.

(** *** Ownership *)

Lemma d1_unique_ids_inj (c : list QueryRow) (x y : QueryRow) :
  NoDup (map id c) -> In x c -> In y c -> id x = id y -> x = y.
Proof.
  induction c as [|h c IH]; simpl; [tauto|].
  intros H Hx Hy E. inversion H as [|? ? Hn Hd]; subst.
  destruct Hx as [->|Hx], Hy as [->|Hy]; auto.
  - exfalso. apply Hn. rewrite E. now apply in_map.
  - exfalso. apply Hn. rewrite <- E. now apply in_map.
Qed.

(** The WHERE clause [id = ? AND user_id = ?] selects no row of
    another user. *)
Lemma foreign_unmatched (db : DB) (A B : Z) (q : QueryRow) :
  unique_ids db -> In q (queries db) -> user_id q = A -> A <> B ->
  filter (owned_by (id q) B) (queries db) = [].
Proof.
  intros Hu Hq HA HAB. apply filter_nil. intros x Hx.
  unfold owned_by. apply andb_false_iff.
  destruct (Z.eqb (id x) (id q)) eqn:E; [right | now left].
  apply Z.eqb_eq in E.
  rewrite (d1_unique_ids_inj _ x q Hu Hx Hq E). apply Z.eqb_neq. congruence.
Qed.

Lemma absent_unmatched (db : DB) (B qid : Z) :
  ~ In qid (map id (queries db)) ->
  filter (owned_by qid B) (queries db) = [].
Proof.
  intros H. apply filter_nil. intros x Hx. unfold owned_by.
  apply andb_false_iff. left. apply Z.eqb_neq. intros E.
  apply H. rewrite <- E. now apply in_map.
Qed.

Lemma find_filter_nil (p : QueryRow -> bool) (c : list QueryRow) :
  filter p c = [] -> find p c = None.
Proof.
  intros H. destruct (find p c) as [x|] eqn:E; [|reflexivity].
  apply find_some in E as [Hin Hp].
  rewrite (proj1 (filter_nil p c) H x Hin) in Hp. discriminate.
Qed.

Lemma delete_query_unmatched (db : DB) (qid B : Z) :
  filter (owned_by qid B) (queries db) = [] ->
  delete_query qid B db = (Ok 0%Z, db).
Proof.
  intros H. unfold delete_query. rewrite H. simpl.
  rewrite !filter_all; [now rewrite db_eta | reflexivity |].
  intros x Hx. apply negb_true_iff. now apply (proj1 (filter_nil _ _) H).
Qed.

Lemma update_query_unmatched (db : DB) (t x : string) (qid B : Z) :
  filter (owned_by qid B) (queries db) = [] ->
  update_query t x qid B db = (Ok 0%Z, db).
Proof.
  intros H. unfold update_query. rewrite H. simpl.
  rewrite map_unchanged; [|now apply filter_nil].
  unfold with_queries. now rewrite db_eta.
Qed.

(** What every owner-scoped operation answers when the WHERE clause
    matches no row. *)
Lemma d1_unmatched_outcomes (db : DB) (B qid : Z) :
  filter (owned_by qid B) (queries db) = [] ->
  (forall env, handle (DeleteQuery (Some B) qid) env db = (not_found, db))
  /\ (forall env, handle (ShareQuery (Some B) qid) env db = (not_found, db))
  /\ (forall env b t x,
        b_title b = Some t -> b_text b = Some x ->
        handle (UpdateQuery (Some B) qid b) env db = (not_found, db)).
Proof.
  intros H. repeat split.
  - intros env. unfold handle, handler, run, delete_queries, mbind.
    now rewrite delete_query_unmatched.
  - intros env. unfold handle, handler, run, post_share, mbind, select_owned.
    now rewrite find_filter_nil.
  - intros env b t x Ht Hx.
    unfold handle, handler, run, put_queries, mbind. rewrite Ht, Hx.
    cbn [bind_text ret]. now rewrite update_query_unmatched.
Qed.

(** *** Sharing *)

Lemma owned_has_id (qid caller : Z) (q : QueryRow) :
  owned_by qid caller q = true -> has_id qid q = true.
Proof. unfold owned_by, has_id. now intros H%andb_true_iff. Qed.

Lemma d1_public_has_token (db : DB) (q : QueryRow) :
  wf db -> In q (queries db) -> num_truthy (is_public q) = true ->
  is_public q = 1%Z /\ exists t, share_id q = Some t /\ truthy t = true.
Proof.
  intros (_ & _ & H) Hq Hp. rewrite Forall_forall in H.
  destruct (H q Hq) as [[Hs Hb] Ht].
  assert (E : is_public q = 1%Z).
  { destruct Hb as [E|E]; [|exact E]. rewrite E in Hp. discriminate. }
  split; [exact E|]. destruct (share_id q) as [t|] eqn:Es.
  - exists t. split; [reflexivity | now apply Ht].
  - exfalso. now apply Hs in E.
Qed.

(** An already public query: the stored token is answered and no
    statement writes. *)
Lemma d1_share_public (db : DB) (caller qid : Z) (q : QueryRow) :
  wf db -> find (owned_by qid caller) (queries db) = Some q ->
  num_truthy (is_public q) = true ->
  exists t, share_id q = Some t
    /\ forall env, handle (ShareQuery (Some caller) qid) env db
                   = (mkResponse 200 (JObj [("shareId", JStr t)]), db).
Proof.
  intros Hwf Hf Hp.
  destruct (d1_public_has_token db q Hwf (proj1 (find_some _ _ Hf)) Hp)
    as [_ [t [Ht Tt]]].
  exists t. split; [exact Ht|]. intros env.
  unfold handle, handler, run, post_share, mbind, select_owned.
  rewrite Hf, Hp, Ht. simpl. now rewrite Tt.
Qed.

Lemma share_private_step (db : DB) (caller qid : Z) (q : QueryRow) (env : Env) :
  find (owned_by qid caller) (queries db) = Some q ->
  num_truthy (is_public q) && truthy_opt (share_id q) = false ->
  handle (ShareQuery (Some caller) qid) env db
  = if existsb (fun x => negb (has_id qid x) && share_id_is (new_shareId env) x)
               (queries db)
    then (internal_error, db)
    else (mkResponse 200 (JObj [("shareId", JStr (new_shareId env))]),
          with_queries db
            (map (fun x => if has_id qid x
                           then set_shared (new_shareId env) x else x)
                 (queries db))).
Proof.
  intros Hf E.
  unfold handle, handler, run, post_share, mbind, select_owned, update_share.
  rewrite Hf, E.
  assert (Hid : existsb (has_id qid) (queries db) = true).
  { apply find_some in Hf as [Hin Ho]. apply existsb_exists.
    exists q. split; [assumption | now apply owned_has_id with caller]. }
  rewrite Hid. clear Hid. cbn [andb]. now destruct (existsb _ (queries db)).
Qed.

(** The first successful share decides the token for good. *)
Lemma d1_share_twice (db : DB) (caller qid : Z) (q : QueryRow) (env1 env2 : Env) :
  wf db -> find (owned_by qid caller) (queries db) = Some q ->
  status (fst (handle (ShareQuery (Some caller) qid) env1 db)) = 200%Z ->
  exists t q1,
    fst (handle (ShareQuery (Some caller) qid) env1 db)
    = mkResponse 200 (JObj [("shareId", JStr t)])
    /\ find (owned_by qid caller)
            (queries (snd (handle (ShareQuery (Some caller) qid) env1 db)))
       = Some q1
    /\ is_public q1 = 1%Z /\ share_id q1 = Some t
    /\ handle (ShareQuery (Some caller) qid) env2
              (snd (handle (ShareQuery (Some caller) qid) env1 db))
       = (mkResponse 200 (JObj [("shareId", JStr t)]),
          snd (handle (ShareQuery (Some caller) qid) env1 db)).
Proof.
  intros Hwf Hf.
  destruct (num_truthy (is_public q) && truthy_opt (share_id q)) eqn:E.
  - intros _. apply andb_true_iff in E as [Hp _].
    destruct (d1_share_public db caller qid q Hwf Hf Hp) as [t [Ht Hs]].
    destruct (d1_public_has_token db q Hwf (proj1 (find_some _ _ Hf)) Hp)
      as [H1 _].
    exists t, q. rewrite !Hs. simpl. repeat split; auto.
  - rewrite (share_private_step db caller qid q env1 Hf E).
    destruct (existsb _ (queries db)); simpl; [discriminate|]. intros _.
    set (g := fun x => if has_id qid x
                       then set_shared (new_shareId env1) x else x).
    exists (new_shareId env1), (set_shared (new_shareId env1) q).
    assert (Hf' : find (owned_by qid caller) (map g (queries db))
                  = Some (set_shared (new_shareId env1) q)).
    { rewrite find_map_stable, Hf.
      - simpl. unfold g.
        now rewrite (owned_has_id qid caller q (proj2 (find_some _ _ Hf))).
      - intros x. unfold g. now destruct (has_id qid x). }
    repeat split; auto.
    unfold handle, handler, run, post_share, mbind, select_owned.
    cbn [queries with_queries]. rewrite Hf'.
    cbn [is_public share_id set_shared truthy_opt num_truthy Z.eqb negb andb].
    now rewrite TokenFacts.d1_new_shareId_truthy.
Qed.

(** A private owned query is shared as soon as the fresh token is not
    in use. *)
Lemma d1_share_fresh (db : DB) (caller qid : Z) (q : QueryRow) (env : Env) :
  find (owned_by qid caller) (queries db) = Some q ->
  is_public q = 0%Z ->
  existsb (fun x => negb (has_id qid x) && share_id_is (new_shareId env) x)
          (queries db) = false ->
  fst (handle (ShareQuery (Some caller) qid) env db)
  = mkResponse 200 (JObj [("shareId", JStr (new_shareId env))]).
Proof.
  intros Hf Hp Ht. rewrite (share_private_step db caller qid q env Hf).
  - now rewrite Ht.
  - now rewrite Hp.
Qed.

(** *** The share invariant on its own *)

Lemma rows_keep (P : QueryRow -> Prop) {A : Type} (m : M A) :
  (forall db, queries (snd (m db)) = queries db) -> preserves (rows P) m.
Proof. intros E db H. unfold rows. now rewrite E. Qed.

Lemma queries_insert_tag qid t db :
  queries (snd (insert_tag qid t db)) = queries db.
Proof.
  unfold insert_tag. destruct (existsb _ (query_tags db)); [reflexivity|].
  now destruct (negb _).
Qed.

Lemma rows_insert_tags (P : QueryRow -> Prop) qid tags :
  preserves (rows P) (insert_tags qid tags).
Proof.
  destruct tags as [[|t l]|]; simpl; auto with d1.
  apply preserves_for_each. intros a. apply rows_keep.
  intros db. apply queries_insert_tag.
Qed.

Lemma rows_handler (P : QueryRow -> Prop) (r : Request) (env : Env) :
  (forall q, is_public q = 0%Z -> share_id q = None -> P q) ->
  (forall q t x, P q -> P (set_content t x q)) ->
  (forall q, P (set_shared (new_shareId env) q)) ->
  preserves (rows P) (handler r env).
Proof.
  intros Hnew Hset Hshare.
  destruct r as [p|p b|p qid b|p qid|p qid|sid];
    unfold handler, get_queries, post_queries, put_queries, delete_queries,
      post_share;
    try (destruct p as [caller|]; [|auto with d1]).
  - now apply preserves_read.
  - repeat (apply preserves_bind; [solve [auto with d1] | intros ?]).
    apply preserves_bind; [|intros ?].
    + intros db H. unfold insert_query. destruct (negb _); [assumption|].
      apply Forall_app. split; [assumption|]. constructor; [|constructor].
      now apply Hnew.
    + apply preserves_bind; [apply rows_insert_tags | auto with d1].
  - repeat (apply preserves_bind; [solve [auto with d1] | intros ?]).
    apply preserves_bind; [|intros ?].
    + intros db H. unfold update_query, rows in *. simpl.
      rewrite Forall_forall in *. intros q' Hin.
      apply in_map_iff in Hin as [q [<- Hin]].
      destruct (owned_by qid caller q); auto.
    + destruct (Z.eqb _ 0); [auto with d1|].
      apply preserves_bind; [now apply rows_keep | intros ?].
      apply preserves_bind; [apply rows_insert_tags | auto with d1].
  - apply preserves_bind; [|intros ?; destruct (Z.eqb _ 0); auto with d1].
    intros db H. unfold delete_query, rows in *. simpl.
    rewrite Forall_forall in *. intros q Hin. apply H.
    now apply filter_In in Hin as [Hin _].
  - apply preserves_bind; [now apply preserves_read | intros [q|]];
      [|auto with d1].
    destruct (_ && _); [auto with d1|].
    apply preserves_bind; [|auto with d1].
    intros db H. unfold update_share. destruct (_ && _); [assumption|].
    unfold rows in *. simpl. rewrite Forall_forall in *. intros q' Hin.
    apply in_map_iff in Hin as [q0 [<- Hin]].
    destruct (has_id qid q0); auto.
  - apply preserves_read. intros db. unfold get_public.
    now destruct (find _ _).
Qed.

Lemma d1_share_inv_preserved (r : Request) (env : Env) (db : DB) :
  Forall share_inv (queries db) ->
  Forall share_inv (queries (snd (handle r env db))).
Proof.
  intros H. unfold handle. rewrite snd_run.
  apply (rows_handler share_inv r env); auto.
  - intros q Hp Hs. unfold share_inv. rewrite Hp, Hs.
    split; [split; [congruence | discriminate] | now left].
  - intros q. apply d1_share_inv_set_shared.
Qed.

Lemma d1_reachable_share_inv (db : DB) :
  reachable db -> Forall share_inv (queries db).
Proof.
  intros H. apply d1_reachable_wf in H as (_ & _ & H).
  eapply Forall_impl; [|exact H]. now intros q [Hs _].
Qed.

(** Sharing writes the flag and the token in one statement. *)
Lemma d1_share_sets_both (caller qid : Z) (env : Env) (db : DB) (q' : QueryRow) :
  In q' (queries (snd (handle (ShareQuery (Some caller) qid) env db))) ->
  ~ In q' (queries db) ->
  is_public q' = 1%Z /\ share_id q' = Some (new_shareId env).
Proof.
  unfold handle. rewrite snd_run.
  unfold handler, post_share, mbind, select_owned, update_share.
  destruct (find _ _) as [q|]; simpl; [|tauto].
  destruct (num_truthy _ && _); simpl; [tauto|].
  destruct (_ && _); simpl; [tauto|].
  intros Hin Hnew. apply in_map_iff in Hin as [q0 [<- Hin]].
  destruct (has_id qid q0); [now split | tauto].
Qed.

(** *** How a handler answers *)

Lemma answers_ret (S : Response -> Prop) (r : Response) :
  S r -> answers S (ret r).
Proof. intros H db r' db' E. now inversion E; subst. Qed.

Lemma answers_bind (S : Response -> Prop) {A : Type} (m : M A)
  (k : A -> M Response) :
  (forall a, answers S (k a)) -> answers S (mbind m k).
Proof.
  intros Hk db r db'. unfold mbind.
  destruct (m db) as [[a|e] db1]; [apply Hk | discriminate].
Qed.

Lemma answers_run (S : Response -> Prop) (m : M Response) (db : DB) :
  answers S m -> S internal_error -> S (fst (run m db)).
Proof.
  intros H He. unfold run. specialize (H db).
  destruct (m db) as [[r|e] db']; simpl; [now apply (H r db') | assumption].
Qed.

(** No handler of this backend validates its body. *)
Lemma never_400 (r : Request) (env : Env) (db : DB) :
  status (fst (handle r env db)) <> 400%Z.
Proof.
  unfold handle. apply answers_run; [|discriminate].
  destruct r as [p|p b|p qid b|p qid|p qid|sid];
    unfold handler, get_queries, post_queries, put_queries, delete_queries,
      post_share;
    try (destruct p as [caller|]; [|now apply answers_ret]).
  - intros db0 r db' E. inversion E; subst. discriminate.
  - repeat (apply answers_bind; intros ?). now apply answers_ret.
  - repeat (apply answers_bind; intros ?).
    destruct (Z.eqb _ 0); [now apply answers_ret|].
    repeat (apply answers_bind; intros ?). now apply answers_ret.
  - apply answers_bind; intros ?.
    destruct (Z.eqb _ 0); now apply answers_ret.
  - apply answers_bind; intros [q|]; [|now apply answers_ret].
    destruct (_ && _); [now apply answers_ret|].
    apply answers_bind; intros ?. now apply answers_ret.
  - intros db0 r db' E. unfold get_public in E.
    destruct (find _ _); inversion E; subst; discriminate.
Qed.

(** *** The public view and the listing *)

Lemma d1_public_view_fields (sid : string) (env : Env) (db : DB) :
  status (fst (handle (GetPublic sid) env db)) = 200%Z ->
  keys (body (fst (handle (GetPublic sid) env db)))
  = ["title"; "text"; "tags"; "createdAt"].
Proof.
  unfold handle, handler, run, get_public.
  destruct (find _ _); simpl; [reflexivity | discriminate].
Qed.

Lemma d1_public_view_tags (sid : string) (env : Env) (db : DB) :
  status (fst (handle (GetPublic sid) env db)) = 200%Z ->
  exists l, obj_get "tags" (body (fst (handle (GetPublic sid) env db)))
            = Some (str_array l).
Proof.
  unfold handle, handler, run, get_public.
  destruct (find _ _); simpl; [|discriminate]. intros _. now eexists.
Qed.

Lemma format_query_tags (db : DB) (q : QueryRow) :
  obj_get "tags" (format_query db q)
  = Some (str_array (split_tags (group_concat (id q) db))).
Proof. reflexivity. Qed.

(** A query without tag rows is listed and shown with [tags: []]. *)
Lemma no_tags_empty (db : DB) (qid : Z) :
  filter (tag_of qid) (query_tags db) = [] ->
  split_tags (group_concat qid db) = [].
Proof. intros H. unfold group_concat. now rewrite H. Qed.

Lemma d1_list_tags (caller : Z) (env : Env) (db : DB) :
  exists items,
    body (fst (handle (ListQueries (Some caller)) env db)) = JArr items
    /\ Forall (fun item => exists l, obj_get "tags" item = Some (str_array l))
              items.
Proof.
  unfold handle, handler, run, get_queries. simpl.
  eexists. split; [reflexivity|].
  apply Forall_forall. intros item Hin.
  apply in_map_iff in Hin as [q [<- _]]. eexists. apply format_query_tags.
Qed.

(** *** Login *)

Section Login.

Variable bcrypt_compare : string -> string -> bool.
Variable sign : Z -> string -> Z -> string.

Lemma d1_login_rejects (u p : string) (env : Env) (db : DB) :
  (forall usr, In usr (users db) -> username usr = u ->
               bcrypt_compare p (password_hash usr) = false) ->
  login bcrypt_compare sign u p env db = invalid_credentials.
Proof.
  intros H. unfold login.
  destruct (find _ (users db)) as [usr|] eqn:E; [|reflexivity].
  apply find_some in E as [Hin Hn]. apply String.eqb_eq in Hn.
  now rewrite (H usr Hin Hn).
Qed.

End Login.

(** *** Writing tags, statement by statement *)

Lemma filter_tag_of_new (qid : Z) (l : list string) :
  filter (tag_of qid) (map (mkTagRow qid) l) = map (mkTagRow qid) l.
Proof.
  apply filter_all. intros r Hin. apply in_map_iff in Hin as [t [<- _]].
  unfold tag_of. simpl. apply Z.eqb_refl.
Qed.

Lemma map_tag_new (qid : Z) (l : list string) :
  map tag (map (mkTagRow qid) l) = l.
Proof. rewrite map_map. simpl. apply map_id. Qed.

(** When every insert of the loop succeeds, the rows are appended in
    order. *)
Lemma for_each_insert_inv (qid : Z) (l : list string) (db db' : DB) :
  for_each l (insert_tag qid) db = (Ok tt, db') ->
  db' = with_tags db (query_tags db ++ map (mkTagRow qid) l).
Proof.
  revert db. induction l as [|t l IH]; intros db; simpl.
  - intros E. inversion E; subst. unfold with_tags.
    now rewrite app_nil_r, db_eta.
  - unfold mbind, insert_tag.
    destruct (existsb _ (query_tags db)); [discriminate|].
    destruct (negb _); [discriminate|].
    intros E. apply IH in E. subst db'. unfold with_tags. simpl.
    now rewrite <- app_assoc.
Qed.

(** The loop succeeds on distinct tags that the query does not carry
    yet. *)
Lemma for_each_insert_ok (qid : Z) (l : list string) (db : DB) :
  In qid (map id (queries db)) ->
  NoDup l ->
  (forall t, In t l -> ~ In t (tags_of qid db)) ->
  for_each l (insert_tag qid) db
  = (Ok tt, with_tags db (query_tags db ++ map (mkTagRow qid) l)).
Proof.
  revert db. induction l as [|t l IH]; intros db Hq Hn Hnew; simpl.
  - unfold ret, with_tags. now rewrite app_nil_r, db_eta.
  - inversion Hn as [|? ? Ht Hl]; subst.
    unfold mbind, insert_tag.
    destruct (existsb _ (query_tags db)) eqn:E.
    + exfalso. apply existsb_exists in E as [r [Hin Hr]].
      apply andb_true_iff in Hr as [Hr1 Hr2]. apply String.eqb_eq in Hr2.
      apply (Hnew t (or_introl eq_refl)). unfold tags_of.
      apply in_map_iff. exists r. split; [assumption|].
      apply filter_In. now split.
    + rewrite (proj2 (has_id_In qid (queries db)) Hq). simpl.
      rewrite IH; auto.
      * unfold with_tags. simpl. now rewrite <- app_assoc.
      * intros t' Hin Hold. unfold tags_of in Hold. simpl in Hold.
        rewrite filter_app, map_app in Hold. apply in_app_or in Hold.
        destruct Hold as [Hold|Hold].
        -- apply (Hnew t' (or_intror Hin)). exact Hold.
        -- simpl in Hold. unfold tag_of in Hold. simpl in Hold.
           rewrite Z.eqb_refl in Hold. simpl in Hold.
           destruct Hold as [<-|[]]. contradiction.
Qed.

Lemma insert_tags_inv (qid : Z) (tags : option (list string)) (db db' : DB) :
  insert_tags qid tags db = (Ok tt, db') ->
  db' = with_tags db (query_tags db ++ map (mkTagRow qid) (processedTags tags)).
Proof.
  destruct tags as [[|t l]|]; simpl.
  - intros E. inversion E; subst. unfold with_tags.
    now rewrite app_nil_r, db_eta.
  - apply for_each_insert_inv.
  - intros E. inversion E; subst. unfold with_tags.
    now rewrite app_nil_r, db_eta.
Qed.

Lemma insert_tags_ok (qid : Z) (tags : option (list string)) (db : DB) :
  In qid (map id (queries db)) ->
  NoDup (processedTags tags) ->
  tags_of qid db = [] ->
  insert_tags qid tags db
  = (Ok tt,
     with_tags db (query_tags db ++ map (mkTagRow qid) (processedTags tags))).
Proof.
  intros Hq Hn He. destruct tags as [[|t l]|]; simpl.
  - unfold ret, with_tags. now rewrite app_nil_r, db_eta.
  - apply for_each_insert_ok; auto. intros t' _. now rewrite He.
  - unfold ret, with_tags. now rewrite app_nil_r, db_eta.
Qed.

Lemma insert_tags_unit (qid : Z) (tags : option (list string)) (db : DB) :
  forall u db', insert_tags qid tags db = (Ok u, db') ->
                insert_tags qid tags db = (Ok tt, db').
Proof. now intros [] db' E. Qed.

(** No tag row refers to the row id the next insert will take. *)
Lemma fresh_id_no_tags (db : DB) :
  tags_refer db ->
  tags_of (Z.max (queries_seq db) (max_id (queries db)) + 1) db = [].
Proof.
  intros Hr. unfold tags_of.
  assert (E : filter (tag_of (Z.max (queries_seq db) (max_id (queries db)) + 1))
                (query_tags db) = []); [|now rewrite E].
  apply filter_nil. intros r Hin. unfold tag_of. apply Z.eqb_neq. intros E.
  apply Hr in Hin. apply in_map_iff in Hin as [q [Eq Hin]].
  apply max_id_ge in Hin. lia.
Qed.

(** *** Create *)

(** The outcome of POST /queries in terms of the statements run. *)
Lemma create_steps (caller : Z) (t x : string) (b : Body) (env : Env) (db : DB) :
  b_title b = Some t -> b_text b = Some x -> registered caller db ->
  handle (CreateQuery (Some caller) b) env db
  = let rowid := (Z.max (queries_seq db) (max_id (queries db)) + 1)%Z in
    let db1 := snd (insert_query caller t x env db) in
    match insert_tags rowid (b_tags b) db1 with
    | (Ok _, db2) =>
        (mkResponse 201
           (JObj ([("_id", JNum rowid); ("title", JStr t); ("text", JStr x)]
                  ++ json_tags (b_tags b))), db2)
    | (Throw _, db2) => (internal_error, db2)
    end.
Proof.
  intros Ht Hx Hr. unfold registered in Hr.
  unfold handle, handler, run, post_queries, mbind. rewrite Ht, Hx.
  cbn [bind_text ret]. unfold insert_query at 1 2. rewrite Hr.
  cbn [negb snd]. now destruct (insert_tags _ _ _) as [[u|e] db2].
Qed.

Lemma d1_create_stores_tags (caller : Z) (b : Body) (env : Env) (db : DB) :
  wf db ->
  status (fst (handle (CreateQuery (Some caller) b) env db)) = 201%Z ->
  exists row,
    queries (snd (handle (CreateQuery (Some caller) b) env db))
    = queries db ++ [row]
    /\ user_id row = caller
    /\ tags_of (id row) (snd (handle (CreateQuery (Some caller) b) env db))
       = processedTags (b_tags b).
Proof.
  intros (_ & Hrefer & _).
  destruct (b_title b) as [t|] eqn:Ht;
    [|unfold handle, handler, run, post_queries, mbind; rewrite Ht;
      simpl; discriminate].
  destruct (b_text b) as [x|] eqn:Hx;
    [|unfold handle, handler, run, post_queries, mbind; rewrite Ht, Hx;
      simpl; discriminate].
  destruct (existsb (fun u => Z.eqb (uid u) caller) (users db)) eqn:Hr;
    [|unfold handle, handler, run, post_queries, mbind, insert_query;
      rewrite Ht, Hx; cbn [bind_text ret]; rewrite Hr; simpl; discriminate].
  rewrite (create_steps caller t x b env db Ht Hx Hr). cbv zeta.
  destruct (insert_tags _ _ _) as [[u|e] db2] eqn:E; simpl; [|discriminate].
  intros _. apply insert_tags_unit, insert_tags_inv in E. subst db2.
  unfold insert_query. rewrite Hr. simpl.
  eexists. split; [reflexivity|]. split; [reflexivity|]. simpl.
  unfold tags_of. simpl. rewrite filter_app, map_app.
  rewrite filter_tag_of_new, map_tag_new.
  fold (tags_of (Z.max (queries_seq db) (max_id (queries db)) + 1) db).
  now rewrite fresh_id_no_tags.
Qed.

(** With distinct normalised tags the whole of a create is written. *)
Lemma create_complete (caller : Z) (t x : string) (b : Body) (env : Env)
  (db : DB) :
  wf db -> registered caller db ->
  b_title b = Some t -> b_text b = Some x ->
  NoDup (processedTags (b_tags b)) ->
  status (fst (handle (CreateQuery (Some caller) b) env db)) = 201%Z.
Proof.
  intros (_ & Hrefer & _) Hr Ht Hx Hn.
  rewrite (create_steps caller t x b env db Ht Hx Hr). cbv zeta.
  rewrite insert_tags_ok; auto.
  - unfold insert_query. unfold registered in Hr. rewrite Hr. simpl.
    rewrite map_app. apply in_or_app. right. now left.
  - unfold insert_query. unfold registered in Hr. rewrite Hr.
    exact (fresh_id_no_tags db Hrefer).
Qed.

Lemma create_failure_leaves_store (caller : option Z) (b : Body) (env : Env)
  (db : DB) :
  wf db -> NoDup (processedTags (b_tags b)) ->
  status (fst (handle (CreateQuery caller b) env db)) <> 201%Z ->
  snd (handle (CreateQuery caller b) env db) = db.
Proof.
  intros Hwf Hn. destruct caller as [caller|]; [|reflexivity].
  destruct (b_title b) as [t|] eqn:Ht;
    [|unfold handle, handler, run, post_queries, mbind; now rewrite Ht].
  destruct (b_text b) as [x|] eqn:Hx;
    [|unfold handle, handler, run, post_queries, mbind; now rewrite Ht, Hx].
  destruct (existsb (fun u => Z.eqb (uid u) caller) (users db)) eqn:Hr;
    [|unfold handle, handler, run, post_queries, mbind, insert_query;
      rewrite Ht, Hx; cbn [bind_text ret]; now rewrite Hr].
  intros H. exfalso. apply H.
  now apply (create_complete caller t x b env db).
Qed.

(** *** Update *)

Lemma changes_zero (c : list QueryRow) :
  Z.eqb (Z.of_nat (List.length c)) 0 = true <-> c = [].
Proof.
  destruct c; simpl; split; intros H; try reflexivity; discriminate.
Qed.

(** The outcome of PUT /queries/:id in terms of the statements run. *)
Lemma update_steps (caller qid : Z) (t x : string) (b : Body) (env : Env)
  (db : DB) :
  b_title b = Some t -> b_text b = Some x ->
  filter (owned_by qid caller) (queries db) <> [] ->
  handle (UpdateQuery (Some caller) qid b) env db
  = let db1 := snd (update_query t x qid caller db) in
    let db2 := snd (delete_tags qid db1) in
    match insert_tags qid (b_tags b) db2 with
    | (Ok _, db3) => (message 200 "Query updated successfully.", db3)
    | (Throw _, db3) => (internal_error, db3)
    end.
Proof.
  intros Ht Hx Hm.
  unfold handle, handler, run, put_queries, mbind. rewrite Ht, Hx.
  cbn [bind_text ret]. unfold update_query at 1 2. cbn [snd].
  destruct (Z.eqb _ 0) eqn:E; [now apply changes_zero in E|].
  unfold delete_tags at 1 2. cbn [snd].
  now destruct (insert_tags _ _ _) as [[u|e] db3].
Qed.

Lemma update_matched (caller qid : Z) (b : Body) (env : Env) (db : DB) :
  status (fst (handle (UpdateQuery (Some caller) qid b) env db)) = 200%Z ->
  exists t x, b_title b = Some t /\ b_text b = Some x
              /\ filter (owned_by qid caller) (queries db) <> [].
Proof.
  destruct (b_title b) as [t|] eqn:Ht;
    [|unfold handle, handler, run, put_queries, mbind; rewrite Ht;
      simpl; discriminate].
  destruct (b_text b) as [x|] eqn:Hx;
    [|unfold handle, handler, run, put_queries, mbind; rewrite Ht, Hx;
      simpl; discriminate].
  intros H. exists t, x. repeat split. intros E.
  destruct (d1_unmatched_outcomes db caller qid E) as (_ & _ & Hu).
  rewrite (Hu env b t x Ht Hx) in H. discriminate.
Qed.

Lemma tags_of_after_delete (qid : Z) (db : DB) :
  tags_of qid (snd (delete_tags qid db)) = [].
Proof.
  unfold tags_of, delete_tags. simpl.
  assert (E : filter (tag_of qid)
                (filter (fun r => negb (tag_of qid r)) (query_tags db)) = []);
    [|now rewrite E].
  apply filter_nil. intros r Hin. apply filter_In in Hin as [_ Hin].
  now apply negb_true_iff.
Qed.

Lemma d1_update_stores_tags (caller qid : Z) (b : Body) (env : Env) (db : DB) :
  status (fst (handle (UpdateQuery (Some caller) qid b) env db)) = 200%Z ->
  tags_of qid (snd (handle (UpdateQuery (Some caller) qid b) env db))
  = processedTags (b_tags b).
Proof.
  intros H. destruct (update_matched caller qid b env db H)
    as (t & x & Ht & Hx & Hm).
  revert H. rewrite (update_steps caller qid t x b env db Ht Hx Hm). cbv zeta.
  destruct (insert_tags _ _ _) as [[u|e] db3] eqn:E; simpl; [|discriminate].
  intros _. apply insert_tags_unit, insert_tags_inv in E. subst db3.
  unfold tags_of. cbn [query_tags with_tags]. rewrite filter_app, map_app.
  rewrite filter_tag_of_new, map_tag_new.
  fold (tags_of qid (snd (delete_tags qid (snd (update_query t x qid caller db))))).
  now rewrite tags_of_after_delete.
Qed.

(** With distinct normalised tags the whole of an update is written. *)
Lemma update_complete (caller qid : Z) (t x : string) (b : Body) (env : Env)
  (db : DB) :
  b_title b = Some t -> b_text b = Some x ->
  filter (owned_by qid caller) (queries db) <> [] ->
  NoDup (processedTags (b_tags b)) ->
  status (fst (handle (UpdateQuery (Some caller) qid b) env db)) = 200%Z.
Proof.
  intros Ht Hx Hm Hn.
  rewrite (update_steps caller qid t x b env db Ht Hx Hm). cbv zeta.
  rewrite insert_tags_ok; auto.
  - unfold delete_tags, update_query. simpl. rewrite map_map.
    destruct (filter (owned_by qid caller) (queries db)) as [|q l] eqn:E;
      [contradiction|].
    assert (Hq : In q (filter (owned_by qid caller) (queries db)))
      by (rewrite E; now left).
    apply filter_In in Hq as [Hin Ho]. apply in_map_iff. exists q.
    split; [|assumption]. rewrite Ho. simpl.
    apply andb_true_iff in Ho as [Ho _]. now apply Z.eqb_eq.
  - apply tags_of_after_delete.
Qed.

Lemma update_failure_leaves_store (caller : option Z) (qid : Z) (b : Body)
  (env : Env) (db : DB) :
  NoDup (processedTags (b_tags b)) ->
  status (fst (handle (UpdateQuery caller qid b) env db)) <> 200%Z ->
  snd (handle (UpdateQuery caller qid b) env db) = db.
Proof.
  intros Hn. destruct caller as [caller|]; [|reflexivity].
  destruct (b_title b) as [t|] eqn:Ht;
    [|unfold handle, handler, run, put_queries, mbind; now rewrite Ht].
  destruct (b_text b) as [x|] eqn:Hx;
    [|unfold handle, handler, run, put_queries, mbind; now rewrite Ht, Hx].
  destruct (filter (owned_by qid caller) (queries db)) as [|q l] eqn:E.
  - destruct (d1_unmatched_outcomes db caller qid E) as (_ & _ & Hu).
    now rewrite (Hu env b t x Ht Hx).
  - intros H. exfalso. apply H.
    apply (update_complete caller qid t x b env db); auto.
    rewrite E. discriminate.
Qed.

Lemma d1_update_frame (caller qid : Z) (b : Body) (env : Env) (db : DB) :
  status (fst (handle (UpdateQuery (Some caller) qid b) env db)) = 200%Z ->
  users (snd (handle (UpdateQuery (Some caller) qid b) env db)) = users db
  /\ Forall2 (fun q q' => same_frame q q'
                          /\ (owned_by qid caller q = false -> q' = q))
             (queries db)
             (queries (snd (handle (UpdateQuery (Some caller) qid b) env db))).
Proof.
  intros H. destruct (update_matched caller qid b env db H)
    as (t & x & Ht & Hx & Hm).
  revert H. rewrite (update_steps caller qid t x b env db Ht Hx Hm). cbv zeta.
  destruct (insert_tags _ _ _) as [[u|e] db3] eqn:E; simpl; [|discriminate].
  intros _. apply insert_tags_unit, insert_tags_inv in E. subst db3.
  split; [reflexivity|]. simpl. clear.
  induction (queries db) as [|q c IH]; simpl; constructor; auto.
  destruct (owned_by qid caller q); split; try congruence;
    now repeat split.
Qed.

(** *** Delete and share are one statement each *)

Lemma delete_failure_leaves_store (caller : option Z) (qid : Z) (env : Env)
  (db : DB) :
  status (fst (handle (DeleteQuery caller qid) env db)) <> 200%Z ->
  snd (handle (DeleteQuery caller qid) env db) = db.
Proof.
  destruct caller as [caller|]; [|reflexivity].
  destruct (filter (owned_by qid caller) (queries db)) as [|q l] eqn:E.
  - destruct (d1_unmatched_outcomes db caller qid E) as (Hd & _).
    now rewrite Hd.
  - unfold handle, handler, run, delete_queries, mbind, delete_query.
    rewrite E. simpl. congruence.
Qed.

Lemma share_failure_leaves_store (caller : option Z) (qid : Z) (env : Env)
  (db : DB) :
  status (fst (handle (ShareQuery caller qid) env db)) <> 200%Z ->
  snd (handle (ShareQuery caller qid) env db) = db.
Proof.
  destruct caller as [caller|]; [|reflexivity].
  destruct (find (owned_by qid caller) (queries db)) as [q|] eqn:Hf.
  - destruct (num_truthy (is_public q) && truthy_opt (share_id q)) eqn:E.
    + unfold handle, handler, run, post_share, mbind, select_owned.
      now rewrite Hf, E.
    + rewrite (share_private_step db caller qid q env Hf E).
      destruct (existsb _ (queries db)); simpl; congruence.
  - unfold handle, handler, run, post_share, mbind, select_owned.
    now rewrite Hf.
Qed.

Lemma read_leaves_store (r : Request) (env : Env) (db : DB) :
  match r with ListQueries _ | GetPublic _ => True | _ => False end ->
  snd (handle r env db) = db.
Proof.
  destruct r as [p|p b|p qid b|p qid|p qid|sid]; try contradiction; intros _.
  - now destruct p.
  - unfold handle, handler, run, get_public. now destruct (find _ _).
Qed.

(** A created row is private and carries no token. *)
Lemma d1_create_private (caller : Z) (b : Body) (env : Env) (db : DB) :
  status (fst (handle (CreateQuery (Some caller) b) env db)) = 201%Z ->
  exists row,
    queries (snd (handle (CreateQuery (Some caller) b) env db))
    = queries db ++ [row]
    /\ is_public row = 0%Z /\ share_id row = None.
Proof.
  destruct (b_title b) as [t|] eqn:Ht;
    [|unfold handle, handler, run, post_queries, mbind; rewrite Ht;
      simpl; discriminate].
  destruct (b_text b) as [x|] eqn:Hx;
    [|unfold handle, handler, run, post_queries, mbind; rewrite Ht, Hx;
      simpl; discriminate].
  destruct (existsb (fun u => Z.eqb (uid u) caller) (users db)) eqn:Hr;
    [|unfold handle, handler, run, post_queries, mbind, insert_query;
      rewrite Ht, Hx; cbn [bind_text ret]; rewrite Hr; simpl; discriminate].
  rewrite (create_steps caller t x b env db Ht Hx Hr). cbv zeta.
  destruct (insert_tags _ _ _) as [[u|e] db2] eqn:E; simpl; [|discriminate].
  intros _. apply insert_tags_unit, insert_tags_inv in E. subst db2.
  unfold insert_query. rewrite Hr. simpl.
  eexists. split; [reflexivity|]. now split.
Qed.

End D1Facts.

(* ================================================================== *)
(** * The contract, claim by claim *)

Lemma keys_exclude (j : json) (k : string) :
  ~ In k (keys j) -> obj_get k j = None.
Proof.
  destruct j as [| | | | |fields]; try reflexivity. simpl.
  induction fields as [|[k' v] rest IH]; simpl; [reflexivity|].
  intros H. destruct (String.eqb k k') eqn:E.
  - apply String.eqb_eq in E. subst. tauto.
  - apply IH. tauto.
Qed.

Lemma mongo_one_reachable : Mongo.reachable Sample.mongo_one.
Proof. exact (Mongo.reach_step _ _ _ (Mongo.reach_init _)). Defined.

Lemma mongo_shared_reachable : Mongo.reachable Sample.mongo_shared.
Proof. exact (Mongo.reach_step _ _ _ mongo_one_reachable). Defined.

Lemma d1_one_reachable : D1.reachable Sample.d1_one.
Proof. exact (D1.reach_step _ _ _ (D1.reach_init _)). Defined.

Lemma d1_shared_reachable : D1.reachable Sample.d1_shared.
Proof. exact (D1.reach_step _ _ _ d1_one_reachable). Defined.

(** ** C1: queries of another user *)

(** C1 as stated: an update by B against A's query id fails with
    NotFoundOrForbidden.  Here bob (2) updates alice's query 7 with an
    empty title: the body check of the document-store handler answers
    first, with 400 and not with the 404 of [not_found]. *)
Lemma C1_update_checks_body_first :
  Mongo.reachable Sample.mongo_one
  /\ In Sample.mongo_alice_query (Mongo.queries Sample.mongo_one)
  /\ Mongo.user Sample.mongo_alice_query = 1%nat
  /\ 1%nat <> 2%nat
  /\ status (fst (Mongo.put_queries 2 (Mongo._id Sample.mongo_alice_query)
                    (Sample.mbody (Some "") (Some "select 2") None)
                    Sample.mongo_one)) = 400%Z
  /\ fst (Mongo.put_queries 2 (Mongo._id Sample.mongo_alice_query)
            (Sample.mbody (Some "") (Some "select 2") None)
            Sample.mongo_one) <> Mongo.not_found.
Proof.
  split; [exact mongo_one_reachable|].
  split; [now left|]. split; [reflexivity|]. split; [discriminate|].
  split; [reflexivity | discriminate].
Qed.

(** C1, amended: for distinct users A and B and a query q of A,
    listByOwner(B) does not contain q, and delete, share and an update
    whose body carries title and text (non-empty, in the document
    store), invoked by B against q's id, answer [not_found] (404) and
    leave the store as it is: exactly what they answer in a store
    where no query has that id.  In the document store an update
    without title or text is refused with 400 before any lookup, in
    both cases alike. *)
Theorem C1_owner_isolation :
  (forall (db : Mongo.DB) (A B : Mongo.ObjectId) (q : Mongo.QueryDoc),
      Mongo.reachable db -> In q (Mongo.queries db) ->
      Mongo.user q = A -> A <> B ->
      ~ In q (Mongo.listByOwner B db)
      /\ forall db0 : Mongo.DB,
          Mongo.id_taken (Mongo._id q) (Mongo.queries db0) = false ->
          (Mongo.delete_queries B (Mongo._id q) db = (Mongo.not_found, db)
           /\ Mongo.delete_queries B (Mongo._id q) db0 = (Mongo.not_found, db0))
          /\ (forall env,
                 Mongo.post_share B (Mongo._id q) env db = (Mongo.not_found, db)
                 /\ Mongo.post_share B (Mongo._id q) env db0
                    = (Mongo.not_found, db0))
          /\ (forall b, Mongo.missing_title_or_text b = false ->
                 Mongo.put_queries B (Mongo._id q) b db = (Mongo.not_found, db)
                 /\ Mongo.put_queries B (Mongo._id q) b db0
                    = (Mongo.not_found, db0))
          /\ (forall b, Mongo.missing_title_or_text b = true ->
                 Mongo.put_queries B (Mongo._id q) b db
                 = (message 400 "Title and text are required.", db)
                 /\ Mongo.put_queries B (Mongo._id q) b db0
                    = (message 400 "Title and text are required.", db0)))
  /\ (forall (db : D1.DB) (A B : Z) (q : D1.QueryRow),
      D1.reachable db -> In q (D1.queries db) ->
      D1.user_id q = A -> A <> B ->
      ~ In q (D1.listByOwner B db)
      /\ forall db0 : D1.DB,
          ~ In (D1.id q) (map D1.id (D1.queries db0)) ->
          (forall env,
              D1.handle (D1.DeleteQuery (Some B) (D1.id q)) env db
              = (D1.not_found, db)
              /\ D1.handle (D1.DeleteQuery (Some B) (D1.id q)) env db0
                 = (D1.not_found, db0))
          /\ (forall env,
                 D1.handle (D1.ShareQuery (Some B) (D1.id q)) env db
                 = (D1.not_found, db)
                 /\ D1.handle (D1.ShareQuery (Some B) (D1.id q)) env db0
                    = (D1.not_found, db0))
          /\ (forall env b t x,
                 D1.b_title b = Some t -> D1.b_text b = Some x ->
                 D1.handle (D1.UpdateQuery (Some B) (D1.id q) b) env db
                 = (D1.not_found, db)
                 /\ D1.handle (D1.UpdateQuery (Some B) (D1.id q) b) env db0
                    = (D1.not_found, db0))).
Proof.
  split.
  - intros db A B q Hr Hq HA HAB. split.
    + rewrite MongoFacts.mongo_In_listByOwner. intros [_ E]. congruence.
    + intros db0 H0.
      pose proof (MongoFacts.foreign_not_found db A B q
                    (proj1 (MongoFacts.mongo_reachable_wf db Hr)) Hq HA HAB) as F.
      pose proof (MongoFacts.absent_not_found db0 B _ H0) as F0.
      destruct (MongoFacts.mongo_unmatched_outcomes db B _ F) as (D & S & U & V).
      destruct (MongoFacts.mongo_unmatched_outcomes db0 B _ F0) as (D0 & S0 & U0 & V0).
      repeat split; auto.
  - intros db A B q Hr Hq HA HAB. split.
    + rewrite D1Facts.d1_In_listByOwner. intros [_ E]. congruence.
    + intros db0 H0.
      pose proof (D1Facts.foreign_unmatched db A B q
                    (proj1 (D1Facts.d1_reachable_wf db Hr)) Hq HA HAB) as F.
      pose proof (D1Facts.absent_unmatched db0 B _ H0) as F0.
      destruct (D1Facts.d1_unmatched_outcomes db B _ F) as (D & S & U).
      destruct (D1Facts.d1_unmatched_outcomes db0 B _ F0) as (D0 & S0 & U0).
      repeat split; eauto.
Qed.

Lemma C1_owner_isolation_witness :
  (Mongo.reachable Sample.mongo_one
   /\ In Sample.mongo_alice_query (Mongo.queries Sample.mongo_one)
   /\ ~ In Sample.mongo_alice_query (Mongo.listByOwner 2 Sample.mongo_one)
   /\ Mongo.delete_queries 2 7 Sample.mongo_one
      = (Mongo.not_found, Sample.mongo_one)
   /\ Mongo.delete_queries 2 7 Sample.mongo_init
      = (Mongo.not_found, Sample.mongo_init))
  /\ (D1.reachable Sample.d1_one
      /\ In Sample.d1_alice_query (D1.queries Sample.d1_one)
      /\ ~ In Sample.d1_alice_query (D1.listByOwner 2 Sample.d1_one)
      /\ D1.handle (D1.DeleteQuery (Some 2%Z) 1) Sample.denv Sample.d1_one
         = (D1.not_found, Sample.d1_one)
      /\ D1.handle (D1.DeleteQuery (Some 2%Z) 1) Sample.denv Sample.d1_init
         = (D1.not_found, Sample.d1_init)).
Proof.
  split.
  - assert (N : 1%nat <> 2%nat) by discriminate.
    destruct (proj1 C1_owner_isolation Sample.mongo_one 1%nat 2%nat
                Sample.mongo_alice_query mongo_one_reachable
                (or_introl eq_refl) eq_refl N) as [L H].
    destruct (H Sample.mongo_init eq_refl) as ((D & D0) & _).
    split; [exact mongo_one_reachable|]. split; [now left|].
    split; [exact L|]. split; [exact D | exact D0].
  - assert (N : 1%Z <> 2%Z) by discriminate.
    destruct (proj2 C1_owner_isolation Sample.d1_one 1%Z 2%Z
                Sample.d1_alice_query d1_one_reachable
                (or_introl eq_refl) eq_refl N) as [L H].
    destruct (H Sample.d1_init (fun F => F)) as (D & _).
    destruct (D Sample.denv) as [D1 D0].
    split; [exact d1_one_reachable|]. split; [now left|].
    split; [exact L|]. split; [exact D1 | exact D0].
Defined.

(** ** C2: sharing is idempotent *)

(** C2: for a query the caller owns, (1) if it is already public,
    share answers the stored token and leaves the store untouched,
    whatever the entropy; (2) when a first share answers 200 with a
    token, the query is public with that token afterwards, and a second
    share, whatever its entropy, answers the same token and writes
    nothing; (3) the first share of a private query answers 200 as
    soon as the fresh token is not in use. *)
Theorem C2_share_idempotent :
  (forall (db : Mongo.DB) (caller id : Mongo.ObjectId) (q : Mongo.QueryDoc),
      Mongo.reachable db ->
      find (Mongo.owned_by id caller) (Mongo.queries db) = Some q ->
      (Mongo.isPublic q = true ->
       exists t, Mongo.shareId q = Some t
         /\ forall env, Mongo.post_share caller id env db
                        = (mkResponse 200 (JObj [("shareId", JStr t)]), db))
      /\ (forall env1 env2,
             status (fst (Mongo.post_share caller id env1 db)) = 200%Z ->
             exists t q1,
               fst (Mongo.post_share caller id env1 db)
               = mkResponse 200 (JObj [("shareId", JStr t)])
               /\ find (Mongo.owned_by id caller)
                       (Mongo.queries (snd (Mongo.post_share caller id env1 db)))
                  = Some q1
               /\ Mongo.isPublic q1 = true /\ Mongo.shareId q1 = Some t
               /\ Mongo.post_share caller id env2
                    (snd (Mongo.post_share caller id env1 db))
                  = (mkResponse 200 (JObj [("shareId", JStr t)]),
                     snd (Mongo.post_share caller id env1 db)))
      /\ (forall env,
             Mongo.isPublic q = false ->
             Mongo.shareId_taken (Mongo.new_shareId env) (Mongo._id q)
               (Mongo.queries db) = false ->
             fst (Mongo.post_share caller id env db)
             = mkResponse 200 (JObj [("shareId", JStr (Mongo.new_shareId env))])))
  /\ (forall (db : D1.DB) (caller qid : Z) (q : D1.QueryRow),
      D1.reachable db ->
      find (D1.owned_by qid caller) (D1.queries db) = Some q ->
      (D1.is_public q = 1%Z ->
       exists t, D1.share_id q = Some t
         /\ forall env, D1.handle (D1.ShareQuery (Some caller) qid) env db
                        = (mkResponse 200 (JObj [("shareId", JStr t)]), db))
      /\ (forall env1 env2,
             status (fst (D1.handle (D1.ShareQuery (Some caller) qid) env1 db))
             = 200%Z ->
             exists t q1,
               fst (D1.handle (D1.ShareQuery (Some caller) qid) env1 db)
               = mkResponse 200 (JObj [("shareId", JStr t)])
               /\ find (D1.owned_by qid caller)
                       (D1.queries
                          (snd (D1.handle (D1.ShareQuery (Some caller) qid)
                                  env1 db)))
                  = Some q1
               /\ D1.is_public q1 = 1%Z /\ D1.share_id q1 = Some t
               /\ D1.handle (D1.ShareQuery (Some caller) qid) env2
                    (snd (D1.handle (D1.ShareQuery (Some caller) qid) env1 db))
                  = (mkResponse 200 (JObj [("shareId", JStr t)]),
                     snd (D1.handle (D1.ShareQuery (Some caller) qid) env1 db)))
      /\ (forall env,
             D1.is_public q = 0%Z ->
             existsb (fun x => negb (D1.has_id qid x)
                               && D1.share_id_is (D1.new_shareId env) x)
                     (D1.queries db) = false ->
             fst (D1.handle (D1.ShareQuery (Some caller) qid) env db)
             = mkResponse 200 (JObj [("shareId", JStr (D1.new_shareId env))]))).
Proof.
  split.
  - intros db caller id q Hr Hf.
    pose proof (MongoFacts.mongo_reachable_wf db Hr) as Hwf. repeat split.
    + intros Hp. exact (MongoFacts.mongo_share_public db caller id q Hwf Hf Hp).
    + intros env1 env2 H.
      exact (MongoFacts.mongo_share_twice db caller id q env1 env2 Hwf Hf H).
    + intros env. now apply MongoFacts.mongo_share_fresh.
  - intros db caller qid q Hr Hf.
    pose proof (D1Facts.d1_reachable_wf db Hr) as Hwf. repeat split.
    + intros Hp. apply (D1Facts.d1_share_public db caller qid q Hwf Hf).
      now rewrite Hp.
    + intros env1 env2 H.
      exact (D1Facts.d1_share_twice db caller qid q env1 env2 Hwf Hf H).
    + intros env. now apply D1Facts.d1_share_fresh.
Qed.

Lemma C2_share_idempotent_witness :
  (Mongo.reachable Sample.mongo_one
   /\ find (Mongo.owned_by 7 1) (Mongo.queries Sample.mongo_one)
      = Some Sample.mongo_alice_query
   /\ status (fst (Mongo.post_share 1 7 Sample.menv Sample.mongo_one)) = 200%Z
   /\ Mongo.post_share 1 7 Sample.menv' Sample.mongo_shared
      = (mkResponse 200 (JObj [("shareId", JStr "000000000000000000000000")]),
         Sample.mongo_shared))
  /\ (D1.reachable Sample.d1_one
      /\ find (D1.owned_by 1 1) (D1.queries Sample.d1_one)
         = Some Sample.d1_alice_query
      /\ status (fst (D1.handle (D1.ShareQuery (Some 1%Z) 1) Sample.denv
                        Sample.d1_one)) = 200%Z
      /\ D1.handle (D1.ShareQuery (Some 1%Z) 1) Sample.denv' Sample.d1_shared
         = (mkResponse 200 (JObj [("shareId", JStr "000000000000")]),
            Sample.d1_shared)).
Proof.
  split.
  - destruct (proj1 C2_share_idempotent Sample.mongo_one 1%nat 7%nat
                Sample.mongo_alice_query mongo_one_reachable eq_refl)
      as (_ & H & _).
    destruct (H Sample.menv Sample.menv' eq_refl) as (t & q1 & E1 & _ & _ & _ & E2).
    split; [exact mongo_one_reachable|]. split; [reflexivity|].
    split; [reflexivity|].
    assert (Et : t = "000000000000000000000000") by (now inversion E1).
    rewrite Et in E2. exact E2.
  - destruct (proj2 C2_share_idempotent Sample.d1_one 1%Z 1%Z
                Sample.d1_alice_query d1_one_reachable eq_refl)
      as (_ & H & _).
    destruct (H Sample.denv Sample.denv' eq_refl) as (t & q1 & E1 & _ & _ & _ & E2).
    split; [exact d1_one_reachable|]. split; [reflexivity|].
    split; [reflexivity|].
    assert (Et : t = "000000000000") by (now inversion E1).
    rewrite Et in E2. exact E2.
Defined.

(** ** C3: the share token is set exactly on public queries *)

(** C3: in every reachable store each query has a share token if and
    only if it is public; every request (create, update, delete,
    share, and the two reads) preserves this; a created query is
    private without a token; a query that a share request changes ends
    public with the fresh token. *)
Theorem C3_share_invariant :
  ((forall db, Mongo.reachable db ->
      forall q, In q (Mongo.queries db) ->
        (Mongo.shareId q <> None <-> Mongo.isPublic q = true))
   /\ (forall r env db,
         Forall Mongo.share_inv (Mongo.queries db) ->
         Forall Mongo.share_inv (Mongo.queries (snd (Mongo.handle r env db))))
   /\ (forall caller b env db,
         status (fst (Mongo.post_queries caller b env db)) = 201%Z ->
         exists doc,
           Mongo.queries (snd (Mongo.post_queries caller b env db))
           = Mongo.queries db ++ [doc]
           /\ Mongo.isPublic doc = false /\ Mongo.shareId doc = None)
   /\ (forall caller id env db q',
         In q' (Mongo.queries (snd (Mongo.post_share caller id env db))) ->
         ~ In q' (Mongo.queries db) ->
         Mongo.isPublic q' = true
         /\ Mongo.shareId q' = Some (Mongo.new_shareId env)))
  /\ ((forall db, D1.reachable db ->
         forall q, In q (D1.queries db) ->
           (D1.share_id q <> None <-> D1.is_public q = 1%Z)
           /\ (D1.is_public q = 0%Z \/ D1.is_public q = 1%Z))
      /\ (forall r env db,
            Forall D1.share_inv (D1.queries db) ->
            Forall D1.share_inv (D1.queries (snd (D1.handle r env db))))
      /\ (forall caller b env db,
            status (fst (D1.handle (D1.CreateQuery (Some caller) b) env db))
            = 201%Z ->
            exists row,
              D1.queries (snd (D1.handle (D1.CreateQuery (Some caller) b) env db))
              = D1.queries db ++ [row]
              /\ D1.is_public row = 0%Z /\ D1.share_id row = None)
      /\ (forall caller qid env db q',
            In q' (D1.queries
                     (snd (D1.handle (D1.ShareQuery (Some caller) qid) env db))) ->
            ~ In q' (D1.queries db) ->
            D1.is_public q' = 1%Z
            /\ D1.share_id q' = Some (D1.new_shareId env))).
Proof.
  split; [split; [|split; [|split]] | split; [|split; [|split]]].
  - intros db Hr q Hq.
    exact (proj1 (Forall_forall _ _)
             (MongoFacts.mongo_reachable_share_inv db Hr) q Hq).
  - exact MongoFacts.mongo_share_inv_preserved.
  - exact MongoFacts.mongo_create_private.
  - exact MongoFacts.mongo_share_sets_both.
  - intros db Hr q Hq.
    exact (proj1 (Forall_forall _ _)
             (D1Facts.d1_reachable_share_inv db Hr) q Hq).
  - exact D1Facts.d1_share_inv_preserved.
  - exact D1Facts.d1_create_private.
  - exact D1Facts.d1_share_sets_both.
Qed.

Lemma C3_share_invariant_witness :
  (Mongo.reachable Sample.mongo_shared
   /\ exists q, In q (Mongo.queries Sample.mongo_shared)
                /\ Mongo.isPublic q = true
                /\ (Mongo.shareId q <> None <-> Mongo.isPublic q = true))
  /\ (D1.reachable Sample.d1_shared
      /\ exists q, In q (D1.queries Sample.d1_shared)
                   /\ D1.is_public q = 1%Z
                   /\ (D1.share_id q <> None <-> D1.is_public q = 1%Z)).
Proof.
  split.
  - split; [exact mongo_shared_reachable|].
    exists (Mongo.set_shared "000000000000000000000000" Sample.mongo_alice_query).
    split; [now left|]. split; [reflexivity|].
    exact (proj1 (proj1 C3_share_invariant) Sample.mongo_shared
             mongo_shared_reachable _ (or_introl eq_refl)).
  - split; [exact d1_shared_reachable|].
    exists (D1.set_shared "000000000000" Sample.d1_alice_query).
    split; [now left|]. split; [reflexivity|].
    exact (proj1 (proj1 (proj2 C3_share_invariant) Sample.d1_shared
                    d1_shared_reachable _ (or_introl eq_refl))).
Defined.

(** ** C4: the public view *)

(** C4: whenever the public lookup answers 200, the body has exactly
    the fields title, text, tags and createdAt, in particular none of
    the fields that identify the owner, the query or its share state
    under any of the names the backends use. *)
Theorem C4_public_view_fields :
  (forall sid db,
      status (fst (Mongo.get_public sid db)) = 200%Z ->
      keys (body (fst (Mongo.get_public sid db)))
      = ["title"; "text"; "tags"; "createdAt"]
      /\ forall k,
          In k ["ownerId"; "user"; "id"; "_id"; "isPublic"; "shareToken";
                "shareId"] ->
          obj_get k (body (fst (Mongo.get_public sid db))) = None)
  /\ (forall sid env db,
         status (fst (D1.handle (D1.GetPublic sid) env db)) = 200%Z ->
         keys (body (fst (D1.handle (D1.GetPublic sid) env db)))
         = ["title"; "text"; "tags"; "createdAt"]
         /\ forall k,
             In k ["ownerId"; "user_id"; "id"; "_id"; "is_public"; "isPublic";
                   "shareToken"; "share_id"; "shareId"] ->
             obj_get k (body (fst (D1.handle (D1.GetPublic sid) env db)))
             = None).
Proof.
  split.
  - intros sid db H. pose proof (MongoFacts.mongo_public_view_fields sid db H) as K.
    split; [exact K|]. intros k Hk. apply keys_exclude. rewrite K.
    simpl in Hk. simpl. intros F.
    repeat (destruct Hk as [<-|Hk]; [intuition discriminate|]). exact Hk.
  - intros sid env db H.
    pose proof (D1Facts.d1_public_view_fields sid env db H) as K.
    split; [exact K|]. intros k Hk. apply keys_exclude. rewrite K.
    simpl in Hk. simpl. intros F.
    repeat (destruct Hk as [<-|Hk]; [intuition discriminate|]). exact Hk.
Qed.

Lemma C4_public_view_fields_witness :
  (status (fst (Mongo.get_public "000000000000000000000000" Sample.mongo_shared))
   = 200%Z
   /\ keys (body (fst (Mongo.get_public "000000000000000000000000"
                         Sample.mongo_shared)))
      = ["title"; "text"; "tags"; "createdAt"])
  /\ (status (fst (D1.handle (D1.GetPublic "000000000000") Sample.denv
                     Sample.d1_shared)) = 200%Z
      /\ keys (body (fst (D1.handle (D1.GetPublic "000000000000") Sample.denv
                            Sample.d1_shared)))
         = ["title"; "text"; "tags"; "createdAt"]).
Proof.
  split.
  - split; [reflexivity|].
    exact (proj1 (proj1 C4_public_view_fields "000000000000000000000000"
                    Sample.mongo_shared eq_refl)).
  - split; [reflexivity|].
    exact (proj1 (proj2 C4_public_view_fields "000000000000" Sample.denv
                    Sample.d1_shared eq_refl)).
Defined.

(** ** C5: tag normalisation *)

(** In the relational backend the second sql of the tags
    [" SQL ", "sql", "", "Perf"] violates the primary key of
    [query_tags]: the create throws after the row and the first tag are
    written, and perf is never stored. *)
Example d1_create_with_duplicate_tag :
  status (fst (D1.handle
                 (D1.CreateQuery (Some 1%Z)
                    (Sample.dbody (Some "t") (Some "select 1")
                       (Some Sample.sql_tags)))
                 Sample.denv Sample.d1_init)) = 500%Z
  /\ D1.tags_of 1
       (snd (D1.handle
               (D1.CreateQuery (Some 1%Z)
                  (Sample.dbody (Some "t") (Some "select 1")
                     (Some Sample.sql_tags)))
               Sample.denv Sample.d1_init)) = ["sql"].
Proof. split; reflexivity. Qed.

(** C5 as stated: the stored tags have duplicates removed.  The
    document store keeps them: the tags [" SQL ", "sql", "", "Perf"]
    are stored as the list sql, sql, perf. *)
Lemma C5_duplicates_are_kept :
  exists doc,
    Mongo.queries
      (snd (Mongo.post_queries 1
              (Sample.mbody (Some "t") (Some "select 1") (Some Sample.sql_tags))
              Sample.menv Sample.mongo_init)) = [doc]
    /\ Mongo.tags doc = ["sql"; "sql"; "perf"]
    /\ ~ NoDup (Mongo.tags doc).
Proof.
  eexists. split; [reflexivity|]. split; [reflexivity|].
  simpl. intros H. inversion H as [|? ? Hn _]; subst. apply Hn. now left.
Qed.

(** C5, amended: after a create or an update that succeeds, the tags
    stored for the query are the input tags, each trimmed and
    lower-cased, without the entries that are then empty, in the order
    of the request; no tags in the request means no tags stored.
    Duplicates are not removed: [" SQL ", "sql", "", "Perf"] normalises
    to sql, sql, perf, whose distinct values are sql and perf. *)
Theorem C5_tags_normalised :
  (forall l t,
      In t (tagValues l) <->
      exists raw, In raw l /\ t = JS.toLowerCase (JS.trim raw)
                  /\ t <> EmptyString)
  /\ (tagValues Sample.sql_tags = ["sql"; "sql"; "perf"]
      /\ forall t, In t (tagValues Sample.sql_tags) <-> t = "sql" \/ t = "perf")
  /\ (forall caller b env db,
         status (fst (Mongo.post_queries caller b env db)) = 201%Z ->
         exists doc,
           Mongo.queries (snd (Mongo.post_queries caller b env db))
           = Mongo.queries db ++ [doc]
           /\ Mongo.user doc = caller
           /\ Mongo.tags doc = processedTags (Mongo.b_tags b))
  /\ (forall caller id b db,
         status (fst (Mongo.put_queries caller id b db)) = 200%Z ->
         exists q',
           find (Mongo.owned_by id caller)
                (Mongo.queries (snd (Mongo.put_queries caller id b db)))
           = Some q'
           /\ Mongo.tags q' = processedTags (Mongo.b_tags b)
           /\ fst (Mongo.put_queries caller id b db)
              = mkResponse 200 (Mongo.toJSON q'))
  /\ (forall caller b env db,
         D1.reachable db ->
         status (fst (D1.handle (D1.CreateQuery (Some caller) b) env db))
         = 201%Z ->
         exists row,
           D1.queries (snd (D1.handle (D1.CreateQuery (Some caller) b) env db))
           = D1.queries db ++ [row]
           /\ D1.user_id row = caller
           /\ D1.tags_of (D1.id row)
                (snd (D1.handle (D1.CreateQuery (Some caller) b) env db))
              = processedTags (D1.b_tags b))
  /\ (forall caller qid b env db,
         status (fst (D1.handle (D1.UpdateQuery (Some caller) qid b) env db))
         = 200%Z ->
         D1.tags_of qid
           (snd (D1.handle (D1.UpdateQuery (Some caller) qid b) env db))
         = processedTags (D1.b_tags b)).
Proof.
  split; [exact TagFacts.In_tagValues|].
  split.
  { split; [reflexivity|]. intros t.
    change (tagValues Sample.sql_tags) with ["sql"; "sql"; "perf"].
    cbn [In]. split.
    - intros [E|[E|[E|[]]]]; symmetry in E; auto.
    - intros [E|E]; symmetry in E; auto. }
  split; [exact MongoFacts.mongo_create_stores_tags|].
  split; [exact MongoFacts.mongo_update_stores_tags|].
  split; [|exact D1Facts.d1_update_stores_tags].
  intros caller b env db Hr. apply D1Facts.d1_create_stores_tags.
  now apply D1Facts.d1_reachable_wf.
Qed.

Lemma C5_tags_normalised_witness :
  (status (fst (Mongo.post_queries 1
                  (Sample.mbody (Some "t") (Some "select 1")
                     (Some Sample.sql_tags))
                  Sample.menv Sample.mongo_init)) = 201%Z
   /\ exists doc,
       Mongo.queries
         (snd (Mongo.post_queries 1
                 (Sample.mbody (Some "t") (Some "select 1")
                    (Some Sample.sql_tags))
                 Sample.menv Sample.mongo_init))
       = Mongo.queries Sample.mongo_init ++ [doc]
       /\ Mongo.user doc = 1%nat
       /\ Mongo.tags doc = processedTags (Some Sample.sql_tags))
  /\ (D1.reachable Sample.d1_init
      /\ status (fst (D1.handle
                        (D1.CreateQuery (Some 1%Z)
                           (Sample.dbody (Some "t") (Some "select 1")
                              (Some ["A"; " b "])))
                        Sample.denv Sample.d1_init)) = 201%Z
      /\ D1.tags_of 1 Sample.d1_one = ["a"; "b"]).
Proof.
  split.
  - split; [reflexivity|].
    exact (proj1 (proj2 (proj2 C5_tags_normalised)) 1%nat
             (Sample.mbody (Some "t") (Some "select 1") (Some Sample.sql_tags))
             Sample.menv Sample.mongo_init eq_refl).
  - split; [exact (D1.reach_init _)|]. split; [reflexivity|].
    destruct (proj1 (proj2 (proj2 (proj2 (proj2 C5_tags_normalised)))) 1%Z
                (Sample.dbody (Some "t") (Some "select 1") (Some ["A"; " b "]))
                Sample.denv Sample.d1_init (D1.reach_init _) eq_refl)
      as [row [E [_ T]]].
    assert (Er : D1.id row = 1%Z) by (now inversion E).
    rewrite Er in T. exact T.
Defined.

(** ** C6: validation of create *)

(** C6 as stated: a title that is empty after trimming is refused with
    400.  The document store accepts a title of three spaces and stores
    it as sent. *)
Lemma C6_blank_title_is_accepted :
  JS.trim "   " = EmptyString
  /\ status (fst (Mongo.post_queries 1
                    (Sample.mbody (Some "   ") (Some "select 1") None)
                    Sample.menv Sample.mongo_init)) = 201%Z
  /\ exists doc,
      Mongo.queries
        (snd (Mongo.post_queries 1
                (Sample.mbody (Some "   ") (Some "select 1") None)
                Sample.menv Sample.mongo_init)) = [doc]
      /\ Mongo.title doc = "   ".
Proof.
  split; [reflexivity|]. split; [reflexivity|].
  eexists. split; reflexivity.
Qed.

(** C6, amended: in the document store, create answers 400 if and
    only if title or text is absent or the empty string, and then
    stores nothing; nothing is trimmed, so a title and text that are
    present and not empty (white space included) are stored as sent
    once the new id is free.  The relational backend has no such check:
    none of its handlers ever answers 400. *)
Theorem C6_create_validation :
  (forall caller b env db,
      (status (fst (Mongo.post_queries caller b env db)) = 400%Z
       <-> (Mongo.b_title b = None \/ Mongo.b_title b = Some EmptyString
            \/ Mongo.b_text b = None \/ Mongo.b_text b = Some EmptyString))
      /\ (status (fst (Mongo.post_queries caller b env db)) = 400%Z ->
          snd (Mongo.post_queries caller b env db) = db))
  /\ (forall caller t x b env db,
         Mongo.b_title b = Some t -> Mongo.b_text b = Some x ->
         t <> EmptyString -> x <> EmptyString ->
         Mongo.id_taken (Mongo.new_oid env) (Mongo.queries db) = false ->
         exists doc,
           Mongo.post_queries caller b env db
           = (mkResponse 201 (Mongo.toJSON doc),
              Mongo.with_queries db (Mongo.queries db ++ [doc]))
           /\ Mongo.title doc = t /\ Mongo.text doc = x)
  /\ (forall r env db, status (fst (D1.handle r env db)) <> 400%Z).
Proof.
  split; [|split].
  - intros caller b env db. split.
    + rewrite MongoFacts.create_400_iff. apply MongoFacts.missing_iff.
    + apply MongoFacts.create_400_stores_nothing.
  - exact MongoFacts.create_accepts.
  - exact D1Facts.never_400.
Qed.

Lemma C6_create_validation_witness :
  (status (fst (Mongo.post_queries 1 (Sample.mbody (Some "") (Some "x") None)
                  Sample.menv Sample.mongo_one)) = 400%Z
   /\ snd (Mongo.post_queries 1 (Sample.mbody (Some "") (Some "x") None)
             Sample.menv Sample.mongo_one) = Sample.mongo_one)
  /\ exists doc,
      Mongo.post_queries 1 (Sample.mbody (Some "   ") (Some "x") None)
        Sample.menv Sample.mongo_init
      = (mkResponse 201 (Mongo.toJSON doc),
         Mongo.with_queries Sample.mongo_init
           (Mongo.queries Sample.mongo_init ++ [doc]))
      /\ Mongo.title doc = "   " /\ Mongo.text doc = "x".
Proof.
  split.
  - split; [reflexivity|].
    exact (proj2 (proj1 C6_create_validation 1%nat
                    (Sample.mbody (Some "") (Some "x") None)
                    Sample.menv Sample.mongo_one) eq_refl).
  - assert (N1 : "   " <> EmptyString) by discriminate.
    assert (N2 : "x" <> EmptyString) by discriminate.
    exact (proj1 (proj2 C6_create_validation) 1%nat "   " "x"
             (Sample.mbody (Some "   ") (Some "x") None)
             Sample.menv Sample.mongo_init eq_refl eq_refl N1 N2 eq_refl).
Defined.

(** ** C7: what an update leaves alone *)

(** C7: after an update that answers 200, whatever the body carries
    besides title, text and tags, the users are the same and every
    query keeps its id, owner, creation time, public flag and share
    token; a query that the owner-scoped filter does not select is
    unchanged altogether. *)
Theorem C7_update_frame :
  (forall caller id b db,
      status (fst (Mongo.put_queries caller id b db)) = 200%Z ->
      Mongo.users (snd (Mongo.put_queries caller id b db)) = Mongo.users db
      /\ Forall2 (fun q q' => Mongo.same_frame q q'
                              /\ (Mongo.owned_by id caller q = false -> q' = q))
                 (Mongo.queries db)
                 (Mongo.queries (snd (Mongo.put_queries caller id b db))))
  /\ (forall caller qid b env db,
         status (fst (D1.handle (D1.UpdateQuery (Some caller) qid b) env db))
         = 200%Z ->
         D1.users (snd (D1.handle (D1.UpdateQuery (Some caller) qid b) env db))
         = D1.users db
         /\ Forall2 (fun q q' => D1.same_frame q q'
                                 /\ (D1.owned_by qid caller q = false -> q' = q))
                    (D1.queries db)
                    (D1.queries
                       (snd (D1.handle (D1.UpdateQuery (Some caller) qid b)
                               env db)))).
Proof.
  split; [exact MongoFacts.mongo_update_frame | exact D1Facts.d1_update_frame].
Qed.

Lemma C7_update_frame_witness :
  (status (fst (Mongo.put_queries 1 7 Sample.mbody_greedy Sample.mongo_shared))
   = 200%Z
   /\ Forall2 (fun q q' => Mongo.same_frame q q'
                           /\ (Mongo.owned_by 7 1 q = false -> q' = q))
              (Mongo.queries Sample.mongo_shared)
              (Mongo.queries
                 (snd (Mongo.put_queries 1 7 Sample.mbody_greedy
                         Sample.mongo_shared))))
  /\ (status (fst (D1.handle
                     (D1.UpdateQuery (Some 1%Z) 1
                        Sample.dbody_greedy)
                     Sample.denv Sample.d1_shared)) = 200%Z
      /\ Forall2 (fun q q' => D1.same_frame q q'
                              /\ (D1.owned_by 1 1 q = false -> q' = q))
                 (D1.queries Sample.d1_shared)
                 (D1.queries
                    (snd (D1.handle
                            (D1.UpdateQuery (Some 1%Z) 1
                               Sample.dbody_greedy)
                            Sample.denv Sample.d1_shared)))).
Proof.
  split.
  - split; [reflexivity|].
    exact (proj2 (proj1 C7_update_frame 1%nat 7%nat Sample.mbody_greedy
                    Sample.mongo_shared eq_refl)).
  - split; [reflexivity|].
    exact (proj2 (proj2 C7_update_frame 1%Z 1%Z
                    Sample.dbody_greedy
                    Sample.denv Sample.d1_shared eq_refl)).
Defined.

(** ** C8: failed logins *)

(** C8 as stated: every login that matches no stored user with the
    right password is answered 401.  The document-store handler checks
    the two fields first: alice's name with an empty password is
    answered 400. *)
Lemma C8_empty_password_is_400 :
  (forall usr, In usr (Mongo.users Sample.mongo_init) ->
               Mongo.username usr = "alice" ->
               Sample.plain_compare "" (Mongo.passwordHash usr) = false)
  /\ status (Mongo.login Sample.plain_compare Sample.mongo_sign
               (Some "alice") (Some "") Sample.menv Sample.mongo_init)
     = 400%Z.
Proof.
  split; [|reflexivity].
  intros usr [<-|[]] _. reflexivity.
Qed.

(** C8, amended: a login that carries a non-empty username and
    password and matches no stored user with the right password is
    answered 401 with the one body "Invalid credentials.", whether no
    user has the name or the password is wrong; in the document store a
    login without username or password is answered 400 whatever the
    store holds.  The document store matches the user under the
    trimmed name, as its schema has it; the relational store under the
    name as sent. *)
Theorem C8_login_failures_alike :
  (forall (bcrypt_compare : string -> string -> bool)
          (jwt_sign : Mongo.ObjectId -> string -> Z -> string)
          (u p : string) env db,
      JS.truthy u = true -> JS.truthy p = true ->
      (forall usr, In usr (Mongo.users db) ->
                   Mongo.username usr = JS.trim u ->
                   bcrypt_compare p (Mongo.passwordHash usr) = false) ->
      Mongo.login bcrypt_compare jwt_sign (Some u) (Some p) env db
      = message 401 "Invalid credentials.")
  /\ (forall (bcrypt_compare : string -> string -> bool)
             (jwt_sign : Mongo.ObjectId -> string -> Z -> string)
             (u p : option string) env db,
         JS.truthy_opt u = false \/ JS.truthy_opt p = false ->
         Mongo.login bcrypt_compare jwt_sign u p env db
         = message 400 "Username and password are required.")
  /\ (forall (bcrypt_compare : string -> string -> bool)
             (sign : Z -> string -> Z -> string)
             (u p : string) env db,
         (forall usr, In usr (D1.users db) -> D1.username usr = u ->
                      bcrypt_compare p (D1.password_hash usr) = false) ->
         D1.login bcrypt_compare sign u p env db
         = message 401 "Invalid credentials.").
Proof.
  split; [|split].
  - intros cmp sg u p env db Tu Tp H.
    now apply MongoFacts.mongo_login_rejects.
  - intros cmp sg u p env db H. unfold Mongo.login.
    destruct H as [-> | ->]; [reflexivity|].
    now rewrite orb_true_r.
  - intros cmp sg u p env db H. now apply D1Facts.d1_login_rejects.
Qed.

(** The document store finds alice also under a padded name. *)
Example mongo_login_trims_name :
  Mongo.login Sample.plain_compare Sample.mongo_sign
    (Some " alice ") (Some "wonderland") Sample.menv Sample.mongo_init
  = mkResponse 200
      (JObj [("token", JStr "token-alice");
             ("user", JObj [("username", JStr "alice")])]).
Proof. reflexivity. Qed.

Lemma C8_login_failures_alike_witness :
  (Mongo.login Sample.plain_compare Sample.mongo_sign
     (Some " alice ") (Some "looking-glass") Sample.menv Sample.mongo_init
   = message 401 "Invalid credentials."
   /\ Mongo.login Sample.plain_compare Sample.mongo_sign
        (Some "mallory") (Some "looking-glass") Sample.menv Sample.mongo_init
      = message 401 "Invalid credentials.")
  /\ Mongo.login Sample.plain_compare Sample.mongo_sign
       (Some "alice") None Sample.menv Sample.mongo_init
     = message 400 "Username and password are required."
  /\ (D1.login Sample.plain_compare Sample.d1_sign
        "bob" "wonderland" Sample.denv Sample.d1_init
      = message 401 "Invalid credentials."
      /\ D1.login Sample.plain_compare Sample.d1_sign
           "mallory" "wonderland" Sample.denv Sample.d1_init
         = message 401 "Invalid credentials.").
Proof.
  split; [split|split; [|split]].
  - apply (proj1 C8_login_failures_alike); [reflexivity | reflexivity |].
    intros usr [<-|[]] _. reflexivity.
  - apply (proj1 C8_login_failures_alike); [reflexivity | reflexivity |].
    intros usr [<-|[]] E. discriminate E.
  - apply (proj1 (proj2 C8_login_failures_alike)). now right.
  - apply (proj2 (proj2 C8_login_failures_alike)).
    intros usr [<-|[<-|[]]] E; [discriminate E | reflexivity].
  - apply (proj2 (proj2 C8_login_failures_alike)).
    intros usr [<-|[<-|[]]] E; discriminate E.
Defined.

(** ** C9: partial writes *)

(** C9 at the failing input: when a part of a mutation fails the store
    is to be left unchanged.  In the relational backend alice updates
    her query 1 (tags a, b) with the tags c, c, d, a body the document
    store accepts and stores: the row is rewritten, the old tags are
    deleted, the first c is inserted, the second c violates the primary
    key of [query_tags], nothing catches the exception, and the store
    keeps the new title with the single tag c. *)
Lemma C9_update_stops_half_way :
  D1.reachable Sample.d1_one
  /\ D1.tags_of 1 Sample.d1_one = ["a"; "b"]
  /\ status (fst (D1.handle
                    (D1.UpdateQuery (Some 1%Z) 1
                       (Sample.dbody (Some "new") (Some "select 2")
                          (Some ["c"; "c"; "d"])))
                    Sample.denv Sample.d1_one)) = 500%Z
  /\ snd (D1.handle
            (D1.UpdateQuery (Some 1%Z) 1
               (Sample.dbody (Some "new") (Some "select 2")
                  (Some ["c"; "c"; "d"])))
            Sample.denv Sample.d1_one) <> Sample.d1_one
  /\ map D1.title
         (D1.queries
            (snd (D1.handle
                    (D1.UpdateQuery (Some 1%Z) 1
                       (Sample.dbody (Some "new") (Some "select 2")
                          (Some ["c"; "c"; "d"])))
                    Sample.denv Sample.d1_one))) = ["new"]
  /\ D1.tags_of 1
       (snd (D1.handle
               (D1.UpdateQuery (Some 1%Z) 1
                  (Sample.dbody (Some "new") (Some "select 2")
                     (Some ["c"; "c"; "d"])))
               Sample.denv Sample.d1_one)) = ["c"].
Proof.
  split; [exact d1_one_reachable|]. split; [reflexivity|].
  split; [reflexivity|]. split; [discriminate|]. split; reflexivity.
Qed.

(** Where C9 holds: in the document store every request that fails
    (status 400 and above) leaves the store unchanged, each mutation
    being one document write.  In the relational backend delete and
    share are one statement each and leave the store unchanged when
    they fail; create and update leave it unchanged when they fail on
    a body whose normalised tags are pairwise distinct.  The bodies
    with a repeated tag are the ones on which the relational handlers
    break the claim. *)
Theorem C9_failed_mutations :
  (forall r env db,
      (400 <= status (fst (Mongo.handle r env db)))%Z ->
      snd (Mongo.handle r env db) = db)
  /\ (forall caller qid env db,
         status (fst (D1.handle (D1.DeleteQuery caller qid) env db)) <> 200%Z ->
         snd (D1.handle (D1.DeleteQuery caller qid) env db) = db)
  /\ (forall caller qid env db,
         status (fst (D1.handle (D1.ShareQuery caller qid) env db)) <> 200%Z ->
         snd (D1.handle (D1.ShareQuery caller qid) env db) = db)
  /\ (forall caller b env db,
         D1.reachable db ->
         NoDup (processedTags (D1.b_tags b)) ->
         status (fst (D1.handle (D1.CreateQuery caller b) env db)) <> 201%Z ->
         snd (D1.handle (D1.CreateQuery caller b) env db) = db)
  /\ (forall caller qid b env db,
         NoDup (processedTags (D1.b_tags b)) ->
         status (fst (D1.handle (D1.UpdateQuery caller qid b) env db)) <> 200%Z ->
         snd (D1.handle (D1.UpdateQuery caller qid b) env db) = db).
Proof.
  split; [exact MongoFacts.failure_leaves_store|].
  split; [exact D1Facts.delete_failure_leaves_store|].
  split; [exact D1Facts.share_failure_leaves_store|].
  split; [|exact D1Facts.update_failure_leaves_store].
  intros caller b env db Hr. apply D1Facts.create_failure_leaves_store.
  now apply D1Facts.d1_reachable_wf.
Qed.

Lemma C9_failed_mutations_witness :
  ((400 <= status (fst (Mongo.handle (Mongo.DeleteQuery 2%nat 7%nat)
                          Sample.menv Sample.mongo_one)))%Z
   /\ snd (Mongo.handle (Mongo.DeleteQuery 2 7) Sample.menv Sample.mongo_one)
      = Sample.mongo_one)
  /\ (status (fst (D1.handle (D1.DeleteQuery (Some 2%Z) 1) Sample.denv
                     Sample.d1_one)) <> 200%Z
      /\ snd (D1.handle (D1.DeleteQuery (Some 2%Z) 1) Sample.denv Sample.d1_one)
         = Sample.d1_one)
  /\ (status (fst (D1.handle (D1.ShareQuery (Some 2%Z) 1) Sample.denv
                     Sample.d1_one)) <> 200%Z
      /\ snd (D1.handle (D1.ShareQuery (Some 2%Z) 1) Sample.denv Sample.d1_one)
         = Sample.d1_one)
  /\ (D1.reachable Sample.d1_one
      /\ NoDup (processedTags (Some ["x"; "y"]))
      /\ status (fst (D1.handle
                        (D1.CreateQuery (Some 3%Z)
                           (Sample.dbody (Some "t") (Some "x") (Some ["x"; "y"])))
                        Sample.denv Sample.d1_one)) <> 201%Z
      /\ snd (D1.handle
                (D1.CreateQuery (Some 3%Z)
                   (Sample.dbody (Some "t") (Some "x") (Some ["x"; "y"])))
                Sample.denv Sample.d1_one) = Sample.d1_one)
  /\ (status (fst (D1.handle
                     (D1.UpdateQuery (Some 2%Z) 1
                        (Sample.dbody (Some "t") (Some "x") (Some ["x"; "y"])))
                     Sample.denv Sample.d1_one)) <> 200%Z
      /\ snd (D1.handle
                (D1.UpdateQuery (Some 2%Z) 1
                   (Sample.dbody (Some "t") (Some "x") (Some ["x"; "y"])))
                Sample.denv Sample.d1_one) = Sample.d1_one).
Proof.
  assert (L : (400 <= 404)%Z) by discriminate.
  assert (N4 : 404%Z <> 200%Z) by discriminate.
  assert (N5 : 500%Z <> 201%Z) by discriminate.
  assert (ND : NoDup (processedTags (Some ["x"; "y"]))).
  { change (NoDup ["x"; "y"]). constructor.
    - intros [E|[]]. discriminate E.
    - constructor; [intros [] | constructor]. }
  split; [|split; [|split; [|split]]].
  - split; [exact L|].
    exact (proj1 C9_failed_mutations (Mongo.DeleteQuery 2 7) Sample.menv
             Sample.mongo_one L).
  - split; [exact N4|].
    exact (proj1 (proj2 C9_failed_mutations) (Some 2%Z) 1%Z Sample.denv
             Sample.d1_one N4).
  - split; [exact N4|].
    exact (proj1 (proj2 (proj2 C9_failed_mutations)) (Some 2%Z) 1%Z Sample.denv
             Sample.d1_one N4).
  - split; [exact d1_one_reachable|]. split; [exact ND|]. split; [exact N5|].
    exact (proj1 (proj2 (proj2 (proj2 C9_failed_mutations))) (Some 3%Z)
             (Sample.dbody (Some "t") (Some "x") (Some ["x"; "y"]))
             Sample.denv Sample.d1_one d1_one_reachable ND N5).
  - split; [exact N4|].
    exact (proj2 (proj2 (proj2 (proj2 C9_failed_mutations))) (Some 2%Z) 1%Z
             (Sample.dbody (Some "t") (Some "x") (Some ["x"; "y"]))
             Sample.denv Sample.d1_one ND N4).
Defined.

(** ** C10: tags are always a list *)

(** C10: every element of the owner's listing and every public view
    carries a [tags] field that is an array of strings; a query with
    no tags carries the empty array. *)
Theorem C10_tags_always_a_list :
  (forall caller db,
      exists items,
        body (fst (Mongo.get_queries caller db)) = JArr items
        /\ Forall (fun item => exists l, obj_get "tags" item = Some (str_array l))
                  items)
  /\ (forall sid db,
         status (fst (Mongo.get_public sid db)) = 200%Z ->
         exists l, obj_get "tags" (body (fst (Mongo.get_public sid db)))
                   = Some (str_array l))
  /\ (forall q, Mongo.tags q = [] ->
                obj_get "tags" (Mongo.toJSON q) = Some (JArr []))
  /\ (forall caller env db,
         exists items,
           body (fst (D1.handle (D1.ListQueries (Some caller)) env db))
           = JArr items
           /\ Forall (fun item =>
                        exists l, obj_get "tags" item = Some (str_array l))
                     items)
  /\ (forall sid env db,
         status (fst (D1.handle (D1.GetPublic sid) env db)) = 200%Z ->
         exists l, obj_get "tags" (body (fst (D1.handle (D1.GetPublic sid) env db)))
                   = Some (str_array l))
  /\ (forall db q, D1.tags_of (D1.id q) db = [] ->
                   obj_get "tags" (D1.format_query db q) = Some (JArr [])).
Proof.
  split; [exact MongoFacts.mongo_list_tags|].
  split; [exact MongoFacts.mongo_public_view_tags|].
  split; [intros q E; rewrite MongoFacts.toJSON_tags, E; reflexivity|].
  split; [exact D1Facts.d1_list_tags|].
  split; [exact D1Facts.d1_public_view_tags|].
  intros db q E. rewrite D1Facts.format_query_tags.
  rewrite D1Facts.no_tags_empty; [reflexivity|].
  unfold D1.tags_of in E. now apply map_eq_nil in E.
Qed.

Lemma C10_tags_always_a_list_witness :
  (status (fst (Mongo.get_public "000000000000000000000000" Sample.mongo_shared))
   = 200%Z
   /\ exists l,
       obj_get "tags"
         (body (fst (Mongo.get_public "000000000000000000000000"
                       Sample.mongo_shared))) = Some (str_array l))
  /\ (status (fst (D1.handle (D1.GetPublic "000000000000") Sample.denv
                     Sample.d1_shared)) = 200%Z
      /\ exists l,
          obj_get "tags"
            (body (fst (D1.handle (D1.GetPublic "000000000000") Sample.denv
                          Sample.d1_shared))) = Some (str_array l))
  /\ (D1.tags_of (D1.id Sample.d1_alice_query) Sample.d1_init = []
      /\ obj_get "tags" (D1.format_query Sample.d1_init Sample.d1_alice_query)
         = Some (JArr [])).
Proof.
  split; [|split].
  - split; [reflexivity|].
    exact (proj1 (proj2 C10_tags_always_a_list) "000000000000000000000000"
             Sample.mongo_shared eq_refl).
  - split; [reflexivity|].
    exact (proj1 (proj2 (proj2 (proj2 (proj2 C10_tags_always_a_list))))
             "000000000000" Sample.denv Sample.d1_shared eq_refl).
  - split; [reflexivity|].
    exact (proj2 (proj2 (proj2 (proj2 (proj2 C10_tags_always_a_list))))
             Sample.d1_init Sample.d1_alice_query eq_refl).
Defined.

(* ================================================================== *)
(** * Beyond the contract: what else the code guarantees *)

(** ** Tags as strings *)

Module MoreTagFacts.
Import JS JSFacts TagFacts.

Lemma lower_char_idem (c : ascii) : lower_char (lower_char c) = lower_char c.
Proof. destruct c as [[] [] [] [] [] [] [] []]; reflexivity. Qed.

Lemma toLowerCase_idem (s : string) :
  toLowerCase (toLowerCase s) = toLowerCase s.
Proof.
  induction s as [|c s IH]; simpl; [reflexivity|].
  now rewrite lower_char_idem, IH.
Qed.

Lemma normalise_tag_idem (t : string) :
  normalise_tag (normalise_tag t) = normalise_tag t.
Proof.
  unfold normalise_tag.
  now rewrite trim_toLowerCase, trim_idem, toLowerCase_idem.
Qed.

Lemma tagValues_normal (l : list string) : Forall tag_normal (tagValues l).
Proof.
  apply Forall_forall. intros t Hin. unfold tagValues in Hin.
  apply filter_In in Hin as [Hin Ht]. apply in_map_iff in Hin as [raw [<- _]].
  split; [apply normalise_tag_idem | exact Ht].
Qed.

Lemma tagValues_of_normal (l : list string) :
  Forall tag_normal l -> tagValues l = l.
Proof.
  unfold tagValues. induction 1 as [|t l [Hn Ht] _ IH]; simpl; [reflexivity|].
  now rewrite Hn, Ht, IH.
Qed.

Lemma processedTags_normal (o : option (list string)) :
  Forall tag_normal (processedTags o).
Proof. destruct o; simpl; [apply tagValues_normal | constructor]. Qed.

(** *** Commas *)

Lemma has_char_lower_comma (c : ascii) :
  Ascii.eqb (lower_char c) "," = Ascii.eqb c ",".
Proof. destruct c as [[] [] [] [] [] [] [] []]; reflexivity. Qed.

Lemma has_char_toLowerCase (s : string) :
  has_char "," (toLowerCase s) = has_char "," s.
Proof.
  induction s as [|c s IH]; simpl; [reflexivity|].
  now rewrite has_char_lower_comma, IH.
Qed.

Lemma has_char_trimStart (c : ascii) (s : string) :
  has_char c s = false -> has_char c (trimStart s) = false.
Proof.
  induction s as [|d s IH]; simpl; [reflexivity|].
  intros H. apply orb_false_iff in H as [Hd Hs].
  destruct (is_ws d); [auto | simpl; now rewrite Hd, Hs].
Qed.

Lemma has_char_trimEnd (c : ascii) (s : string) :
  has_char c s = false -> has_char c (trimEnd s) = false.
Proof.
  induction s as [|d s IH]; simpl; [reflexivity|].
  intros H. apply orb_false_iff in H as [Hd Hs]. specialize (IH Hs).
  destruct (trimEnd s) as [|e r].
  - destruct (is_ws d); simpl; [reflexivity | now rewrite Hd].
  - cbn [has_char] in *. now rewrite Hd, IH.
Qed.

Lemma has_char_normalise (t : string) :
  has_char "," t = false -> has_char "," (normalise_tag t) = false.
Proof.
  intros H. unfold normalise_tag, trim. rewrite has_char_toLowerCase.
  now apply has_char_trimEnd, has_char_trimStart.
Qed.

(** *** Splitting and joining *)

Lemma split_pieces_clean (sep : ascii) (s : string) :
  Forall (fun p => has_char sep p = false) (split sep s).
Proof.
  induction s as [|c s IH]; simpl; [repeat constructor|].
  destruct (Ascii.eqb c sep) eqn:E; [constructor; auto|].
  destruct (split sep s) as [|h t]; [repeat constructor; simpl; now rewrite E|].
  inversion IH as [|? ? Hh Ht]; subst. constructor; [|assumption].
  simpl. now rewrite E, Hh.
Qed.

Lemma split_clean (sep : ascii) (a : string) :
  has_char sep a = false -> split sep a = [a].
Proof.
  induction a as [|c a IH]; simpl; [reflexivity|].
  intros H. apply orb_false_iff in H as [Hc Ha].
  now rewrite Hc, (IH Ha).
Qed.

Lemma split_app (sep : ascii) (a r : string) :
  has_char sep a = false ->
  split sep (a ++ String sep r)%string = a :: split sep r.
Proof.
  induction a as [|c a IH]; simpl.
  - intros _. now rewrite Ascii.eqb_refl.
  - intros H. apply orb_false_iff in H as [Hc Ha].
    now rewrite Hc, (IH Ha).
Qed.

Lemma split_join (sep : ascii) (l : list string) :
  l <> [] ->
  Forall (fun p => has_char sep p = false) l ->
  split sep (join (String sep EmptyString) l) = l.
Proof.
  intros Hne H. induction H as [|x l Hx Hl IH]; [contradiction|].
  destruct l as [|y l'].
  - simpl. now apply split_clean.
  - change (join (String sep EmptyString) (x :: y :: l'))
      with (x ++ String sep (join (String sep EmptyString) (y :: l')))%string.
    rewrite split_app by assumption. f_equal. apply IH. discriminate.
Qed.

Lemma join_truthy (sep : string) (l : list string) :
  l <> [] -> Forall (fun p => truthy p = true) l ->
  truthy (join sep l) = true.
Proof.
  intros Hne H. destruct H as [|x l Hx Hl]; [contradiction|].
  destruct l as [|y l']; simpl; [assumption|].
  destruct x; [discriminate | reflexivity].
Qed.

End MoreTagFacts.

(** ** Ordering *)

Module OrderFacts.

Lemma In_insert_asc (x y : string) (l : list string) :
  In y (insert_asc x l) <-> y = x \/ In y l.
Proof.
  induction l as [|h t IH]; simpl.
  - intuition congruence.
  - destruct (String.leb x h); simpl; [intuition congruence|].
    rewrite IH. intuition congruence.
Qed.

Lemma In_sort_asc (y : string) (l : list string) :
  In y (sort_asc l) <-> In y l.
Proof.
  induction l as [|h t IH]; simpl; [tauto|].
  rewrite In_insert_asc, IH. intuition congruence.
Qed.

Lemma leb_false_flip (x h : string) :
  String.leb x h = false -> String.leb h x = true.
Proof.
  intros H. destruct (String.leb_total x h) as [E|E]; [congruence | exact E].
Qed.

Lemma insert_asc_sorted (x : string) (l : list string) :
  Sorted (fun a b => String.leb a b = true) l ->
  Sorted (fun a b => String.leb a b = true) (insert_asc x l).
Proof.
  induction 1 as [|h t Ht IH Hh]; simpl; [repeat constructor|].
  destruct (String.leb x h) eqn:E.
  - constructor; [now constructor | now constructor].
  - constructor; [exact IH|].
    destruct t as [|k t]; simpl.
    + constructor. now apply leb_false_flip.
    + destruct (String.leb x k); constructor;
        [now apply leb_false_flip | now inversion Hh].
Qed.

Lemma sort_asc_sorted (l : list string) :
  Sorted (fun a b => String.leb a b = true) (sort_asc l).
Proof.
  induction l as [|h t IH]; simpl; [constructor | now apply insert_asc_sorted].
Qed.

Lemma insert_asc_NoDup (x : string) (l : list string) :
  ~ In x l -> NoDup l -> NoDup (insert_asc x l).
Proof.
  induction l as [|h t IH]; simpl; intros Hx Hl; [repeat constructor; auto|].
  destruct (String.leb x h); [constructor; simpl; auto|].
  inversion Hl as [|? ? Hh Ht]; subst. constructor.
  - rewrite In_insert_asc. intros [->|H]; [apply Hx; now left | contradiction].
  - apply IH; auto.
Qed.

Lemma sort_asc_NoDup (l : list string) : NoDup l -> NoDup (sort_asc l).
Proof.
  induction 1 as [|h t Hh Ht IH]; simpl; [constructor|].
  apply insert_asc_NoDup; [now rewrite In_sort_asc | exact IH].
Qed.

(** Sorted, duplicate-free, and with the members of [l]. *)
Lemma sort_distinct_spec (l : list string) :
  Sorted (fun a b => String.leb a b = true) (sort_asc (distinct l))
  /\ NoDup (sort_asc (distinct l))
  /\ forall t, In t (sort_asc (distinct l)) <-> In t l.
Proof.
  split; [apply sort_asc_sorted|]. split.
  - apply sort_asc_NoDup. apply NoDup_nodup.
  - intros t. rewrite In_sort_asc. apply nodup_In.
Qed.

Lemma insert_asc_perm (x : string) (l : list string) :
  Permutation (insert_asc x l) (x :: l).
Proof.
  induction l as [|h t IH]; simpl; [reflexivity|].
  destruct (String.leb x h); [reflexivity|].
  rewrite IH. apply perm_swap.
Qed.

Lemma sort_asc_perm (l : list string) : Permutation (sort_asc l) l.
Proof.
  induction l as [|h t IH]; simpl; [reflexivity|].
  rewrite insert_asc_perm. now constructor.
Qed.

Lemma sort_asc_Forall (P : string -> Prop) (l : list string) :
  Forall P l -> Forall P (sort_asc l).
Proof.
  rewrite !Forall_forall. intros H x Hx. apply H. now apply In_sort_asc.
Qed.

Lemma sort_asc_nil (l : list string) : sort_asc l = [] -> l = [].
Proof.
  intros E. apply Permutation_nil. rewrite <- E. apply sort_asc_perm.
Qed.

End OrderFacts.

(** ** More on the document store *)

Module MongoMore.
Import JS JSFacts Mongo MongoFacts.

(** *** The listing is the caller's queries, newest first *)

Lemma mongo_insert_desc_perm (q : QueryDoc) (l : list QueryDoc) :
  Permutation (insert_desc q l) (q :: l).
Proof.
  induction l as [|h t IH]; simpl; [reflexivity|].
  destruct (Z.leb (createdAt h) (createdAt q)); [reflexivity|].
  rewrite IH. apply perm_swap.
Qed.

Lemma sort_desc_perm (l : list QueryDoc) : Permutation (sort_desc l) l.
Proof.
  induction l as [|h t IH]; simpl; [reflexivity|].
  rewrite mongo_insert_desc_perm. now constructor.
Qed.

Lemma insert_desc_sorted (q : QueryDoc) (l : list QueryDoc) :
  Sorted (fun a b => (createdAt b <= createdAt a)%Z) l ->
  Sorted (fun a b => (createdAt b <= createdAt a)%Z) (insert_desc q l).
Proof.
  induction 1 as [|h t Ht IH Hh]; simpl; [repeat constructor|].
  destruct (Z.leb (createdAt h) (createdAt q)) eqn:E.
  - constructor; [now constructor|]. constructor. now apply Z.leb_le.
  - apply Z.leb_gt in E. constructor; [exact IH|].
    destruct t as [|k t]; simpl.
    + constructor. lia.
    + destruct (Z.leb (createdAt k) (createdAt q)); constructor;
        [lia | now inversion Hh].
Qed.

Lemma sort_desc_sorted (l : list QueryDoc) :
  Sorted (fun a b => (createdAt b <= createdAt a)%Z) (sort_desc l).
Proof.
  induction l as [|h t IH]; simpl; [constructor | now apply insert_desc_sorted].
Qed.

(** *** A property of every stored query *)

Lemma required_truthy (o : option string) (s : string) :
  required o = Some s -> truthy s = true.
Proof.
  unfold required. destruct o as [s'|]; [|discriminate].
  destruct (truthy s') eqn:E; [|discriminate]. intros H. now inversion H; subst.
Qed.

Lemma rows_preserved (P : QueryDoc -> Prop) (r : Request) (env : Env) (db : DB) :
  (forall doc o,
      isPublic doc = false -> shareId doc = None ->
      truthy (title doc) = true -> truthy (text doc) = true ->
      tags doc = processedTags o -> P doc) ->
  (forall q t x o,
      P q -> truthy t = true -> truthy x = true ->
      P (set_content t x (processedTags o) q)) ->
  (forall q s, P q -> P (set_shared s q)) ->
  Forall P (queries db) -> Forall P (queries (snd (handle r env db))).
Proof.
  intros Hnew Hset Hshare Hq.
  destruct r; simpl; unfold get_queries, post_queries, put_queries,
    delete_queries, post_share, get_public; case_handler; simpl;
    try assumption.
  - apply save_new_Ok in Heqr
      as (-> & _ & _ & Hp & Hs & _ & _ & Ht & _ & _ & Tt & Tx).
    apply Forall_app. split; [assumption|]. constructor; [|constructor].
    apply (Hnew q (b_tags b)); auto. rewrite Ht. simpl.
    unfold schema_tags. apply TagFacts.processedTags_trimmed.
  - repeat match goal with
           | H : required _ = Some _ |- _ => apply required_truthy in H
           end.
    apply update_first_Forall; [|assumption]. intros q0 Hq0.
    apply Hset; auto.
  - now apply remove_first_Forall.
  - apply update_first_Forall; auto.
Qed.

Lemma reachable_rows (P : QueryDoc -> Prop) (db : DB) :
  (forall doc o,
      isPublic doc = false -> shareId doc = None ->
      truthy (title doc) = true -> truthy (text doc) = true ->
      tags doc = processedTags o -> P doc) ->
  (forall q t x o,
      P q -> truthy t = true -> truthy x = true ->
      P (set_content t x (processedTags o) q)) ->
  (forall q s, P q -> P (set_shared s q)) ->
  reachable db -> Forall P (queries db).
Proof.
  intros Hnew Hset Hshare. induction 1 as [us|db r env _ IH]; [constructor|].
  now apply rows_preserved.
Qed.

Lemma reachable_content (db : DB) :
  reachable db ->
  Forall (fun q => truthy (title q) = true /\ truthy (text q) = true
                   /\ Forall tag_normal (tags q)) (queries db).
Proof.
  apply reachable_rows.
  - intros doc o _ _ Tt Tx Ht. rewrite Ht. repeat split; auto.
    apply MoreTagFacts.processedTags_normal.
  - intros q t x o _ Tt Tx. simpl. repeat split; auto.
    unfold schema_tags. rewrite TagFacts.processedTags_trimmed.
    apply MoreTagFacts.processedTags_normal.
  - intros q s H. exact H.
Qed.

Lemma mongo_In_remove_first_gen (p : QueryDoc -> bool) (c : list QueryDoc)
  (x : QueryDoc) :
  In x (remove_first p c) -> In x c.
Proof.
  induction c as [|q c IH]; simpl; [tauto|].
  destruct (p q); simpl; intuition.
Qed.

Lemma mongo_In_update_first_cases (p : QueryDoc -> bool)
  (f : QueryDoc -> QueryDoc) (c : list QueryDoc) (x : QueryDoc) :
  In x (update_first p f c) ->
  In x c \/ exists q, In q c /\ p q = true /\ x = f q.
Proof.
  induction c as [|h c IH]; simpl; [tauto|].
  destruct (p h) eqn:E; simpl.
  - intros [<-|H]; [right; exists h; auto | auto].
  - intros [<-|H]; [auto|].
    destruct (IH H) as [Hc|[q [Hq [Hp ->]]]]; [auto|].
    right. exists q. auto.
Qed.

Lemma mongo_id_taken_false_iff (i : ObjectId) (c : list QueryDoc) :
  ~ In i (map _id c) -> id_taken i c = false.
Proof. apply id_taken_false. Qed.

(** *** Share tokens *)

Lemma mongo_In_tokens (t : string) (c : list QueryDoc) :
  In t (tokens c) <-> exists q, In q c /\ shareId q = Some t.
Proof.
  unfold tokens. rewrite in_flat_map. split.
  - intros [q [Hq Ht]]. exists q. split; [assumption|].
    destruct (shareId q); [destruct Ht as [->|[]]; reflexivity | destruct Ht].
  - intros [q [Hq Ht]]. exists q. split; [assumption|]. rewrite Ht. now left.
Qed.

Lemma tokens_app (a b : list QueryDoc) : tokens (a ++ b) = tokens a ++ tokens b.
Proof. unfold tokens. apply flat_map_app. Qed.

Lemma tokens_update_keep (p : QueryDoc -> bool) (f : QueryDoc -> QueryDoc)
  (c : list QueryDoc) :
  (forall q, shareId (f q) = shareId q) ->
  tokens (update_first p f c) = tokens c.
Proof.
  intros Hf. induction c as [|q c IH]; simpl; [reflexivity|].
  destruct (p q); simpl; [now rewrite Hf | now rewrite IH].
Qed.

Lemma tokens_remove (p : QueryDoc -> bool) (c : list QueryDoc) :
  NoDup (tokens c) -> NoDup (tokens (remove_first p c)).
Proof.
  induction c as [|q c IH]; simpl; [auto|]. intros H.
  destruct (p q); [now apply NoDup_app_remove_l in H|].
  simpl. destruct (shareId q) as [t|]; simpl in *; [|auto].
  inversion H as [|? ? Hn Hd]; subst. constructor; [|auto].
  intros Hin. apply Hn. apply mongo_In_tokens in Hin as [x [Hx Ht]].
  apply mongo_In_tokens. exists x. split; [|assumption].
  eapply mongo_In_remove_first_gen; eauto.
Qed.

Lemma tokens_inj (c : list QueryDoc) (x y : QueryDoc) (t : string) :
  NoDup (tokens c) -> In x c -> In y c ->
  shareId x = Some t -> shareId y = Some t -> x = y.
Proof.
  induction c as [|h c IH]; simpl; [tauto|].
  intros H Hx Hy Ex Ey.
  assert (Hc : NoDup (tokens c)) by (now apply NoDup_app_remove_l in H).
  assert (Hh : forall z, In z c -> shareId h = Some t -> shareId z = Some t ->
                         False).
  { intros z Hz Eh Ez. rewrite Eh in H. simpl in H.
    inversion H as [|? ? Hn _]; subst. apply Hn. apply mongo_In_tokens. now exists z. }
  destruct Hx as [->|Hx], Hy as [->|Hy]; auto.
  - exfalso. eapply Hh; eauto.
  - exfalso. eapply Hh; eauto.
Qed.

Lemma private_no_token (q : QueryDoc) :
  share_inv q -> token_ok q ->
  isPublic q && truthy_opt (shareId q) = false -> shareId q = None.
Proof.
  intros Hs Ht E. destruct (shareId q) as [t|] eqn:Et; [|reflexivity].
  exfalso. assert (Hp : isPublic q = true) by (apply Hs; congruence).
  rewrite Hp in E. simpl in E. rewrite (Ht t Et) in E. discriminate.
Qed.

Lemma mongo_tokens_share (i : ObjectId) (s : string) (c : list QueryDoc) :
  NoDup (tokens c) ->
  (forall x, In x c -> has_id i x = true -> shareId x = None) ->
  (forall x, In x c -> has_id i x = false -> shareId x <> Some s) ->
  NoDup (tokens (update_first (has_id i) (set_shared s) c)).
Proof.
  induction c as [|h c IH]; simpl; [auto|]. intros H Hi Ho.
  assert (Hc : NoDup (tokens c)) by (now apply NoDup_app_remove_l in H).
  destruct (has_id i h) eqn:E; simpl.
  - constructor; [|assumption]. intros Hin.
    apply mongo_In_tokens in Hin as [x [Hx Ht]].
    destruct (has_id i x) eqn:Ex.
    + rewrite (Hi x (or_intror Hx) Ex) in Ht. discriminate.
    + now apply (Ho x (or_intror Hx) Ex).
  - destruct (shareId h) as [t|] eqn:Et; simpl in *.
    + inversion H as [|? ? Hn _]; subst. constructor; [|apply IH; auto].
      intros Hin. apply mongo_In_tokens in Hin as [x [Hx Ht]].
      destruct (mongo_In_update_first_cases _ _ _ _ Hx) as [Hc'|[q0 [Hq0 [_ ->]]]].
      * apply Hn. apply mongo_In_tokens. now exists x.
      * simpl in Ht. inversion Ht; subst.
        apply (Ho h (or_introl eq_refl) E). exact Et.
    + apply IH; auto.
Qed.

Lemma mongo_tokens_preserved (r : Request) (env : Env) (db : DB) :
  wf db -> NoDup (tokens (queries db)) ->
  NoDup (tokens (queries (snd (handle r env db)))).
Proof.
  intros [Hu Hq] Ht. rewrite Forall_forall in Hq.
  destruct r; simpl; unfold get_queries, post_queries, put_queries,
    delete_queries, post_share, get_public; case_handler; simpl;
    try assumption.
  - apply save_new_Ok in Heqr as (-> & _ & _ & _ & Hs & _).
    rewrite tokens_app. simpl. rewrite Hs. simpl. now rewrite app_nil_r.
  - now rewrite tokens_update_keep.
  - now apply tokens_remove.
  - match goal with
    | H : find _ _ = Some ?q |- _ =>
        apply find_some in H as [Hin Ho]; rename q into target
    end.
    apply mongo_tokens_share; [assumption| |].
    + intros x Hx Hi. apply Nat.eqb_eq in Hi.
      rewrite (mongo_unique_ids_inj _ x target Hu Hx Hin Hi).
      destruct (Hq target Hin). now apply private_no_token.
    + intros x Hx Hi E.
      match goal with
      | H : shareId_taken _ _ _ = false |- _ =>
          unfold shareId_taken in H;
          rewrite <- not_true_iff_false in H; apply H
      end.
      apply existsb_exists. exists x. split; [assumption|].
      rewrite Hi, E. cbn [negb andb]. apply String.eqb_refl.
Qed.

Lemma mongo_reachable_tokens (db : DB) : reachable db -> NoDup (tokens (queries db)).
Proof.
  induction 1 as [us|db r env Hr IH]; [constructor|].
  apply mongo_tokens_preserved; [now apply mongo_reachable_wf | exact IH].
Qed.

Lemma set_shared_same (q : QueryDoc) (t : string) :
  isPublic q = true -> shareId q = Some t -> set_shared t q = q.
Proof. destruct q; simpl; intros -> ->; reflexivity. Qed.

(** After a share that answers 200 the store holds the query, public,
    under the answered token. *)
Lemma mongo_share_outcome (db : DB) (caller id : ObjectId) (q : QueryDoc) (env : Env) :
  wf db -> find (owned_by id caller) (queries db) = Some q ->
  status (fst (post_share caller id env db)) = 200%Z ->
  exists t,
    fst (post_share caller id env db)
    = mkResponse 200 (JObj [("shareId", JStr t)])
    /\ In (set_shared t q) (queries (snd (post_share caller id env db))).
Proof.
  intros Hwf Hf.
  destruct (isPublic q && truthy_opt (shareId q)) eqn:E.
  - intros _. apply andb_true_iff in E as [Hp _].
    destruct (mongo_share_public db caller id q Hwf Hf Hp) as [t [Ht Hs]].
    exists t. rewrite Hs. simpl. split; [reflexivity|].
    rewrite set_shared_same by assumption. now apply find_some in Hf.
  - unfold post_share. rewrite Hf, E.
    destruct (shareId_taken _ _ _); simpl; [discriminate|]. intros _.
    exists (new_shareId env). split; [reflexivity|].
    assert (Hf' : find (owned_by id caller)
                    (update_first (has_id (_id q))
                       (set_shared (new_shareId env)) (queries db))
                  = Some (set_shared (new_shareId env) q)).
    { apply find_update_own; [apply Hwf | now intros | exact Hf]. }
    now apply find_some in Hf'.
Qed.

Lemma find_exists (p : QueryDoc -> bool) (c : list QueryDoc) (x : QueryDoc) :
  In x c -> p x = true -> exists y, find p c = Some y.
Proof.
  intros Hx Hp. destruct (find p c) as [y|] eqn:E; [now exists y|].
  rewrite (find_none _ _ E x Hx) in Hp. discriminate.
Qed.

(** The public lookup of a token finds the one query that carries
    it. *)
Lemma mongo_public_lookup (db : DB) (q : QueryDoc) (t : string) :
  reachable db -> In q (queries db) ->
  isPublic q = true -> shareId q = Some t ->
  get_public t db = (mkResponse 200 (public_view q), db).
Proof.
  intros Hr Hq Hp Ht. unfold get_public.
  assert (Hs : shared_as t q = true).
  { unfold shared_as. now rewrite Ht, Hp, String.eqb_refl. }
  destruct (find_exists _ _ _ Hq Hs) as [y Hy]. rewrite Hy.
  apply find_some in Hy as [Hin Hy]. unfold shared_as in Hy.
  destruct (shareId y) as [s|] eqn:Es; [|discriminate].
  apply andb_true_iff in Hy as [Hy _]. apply String.eqb_eq in Hy. subst s.
  now rewrite (tokens_inj _ y q t (mongo_reachable_tokens db Hr) Hin Hq Es Ht).
Qed.

(** *** Sharing is one way *)

Lemma mongo_public_stays (db : DB) (q : QueryDoc) (t : string) (r : Request)
  (env : Env) (q' : QueryDoc) :
  wf db -> In q (queries db) -> isPublic q = true -> shareId q = Some t ->
  In q' (queries (snd (handle r env db))) -> _id q' = _id q ->
  isPublic q' = true /\ shareId q' = Some t.
Proof.
  intros [Hu Hq] Hin Hp Ht.
  assert (Same : forall x, In x (queries db) -> _id x = _id q ->
                           isPublic x = true /\ shareId x = Some t).
  { intros x Hx E. now rewrite (mongo_unique_ids_inj _ x q Hu Hx Hin E). }
  destruct r; simpl; unfold get_queries, post_queries, put_queries,
    delete_queries, post_share, get_public; case_handler; simpl; auto.
  - apply save_new_Ok in Heqr as (-> & Hn & _).
    intros H E. apply in_app_or in H as [H|[<-|[]]]; [auto|].
    exfalso. apply Hn. rewrite E. now apply in_map.
  - intros H E.
    destruct (mongo_In_update_first_cases _ _ _ _ H) as [Hc|[z [Hz [_ ->]]]];
      [auto|]. simpl in *. now apply Same.
  - intros H E. apply Same; [|assumption].
    eapply mongo_In_remove_first_gen; eauto.
  - intros H E.
    destruct (mongo_In_update_first_cases _ _ _ _ H) as [Hc|[z [Hz [Hi ->]]]];
      [auto|]. exfalso. simpl in E.
    match goal with
    | H : find _ _ = Some ?x |- _ =>
        apply find_some in H as [Hx _]; rename x into target
    end.
    apply Nat.eqb_eq in Hi.
    assert (Et : target = q).
    { apply (mongo_unique_ids_inj _ target q Hu Hx Hin). congruence. }
    subst target. rewrite Forall_forall in Hq. destruct (Hq q Hin) as [_ Hk].
    match goal with
    | H : isPublic q && _ = false |- _ =>
        rewrite Hp, Ht in H; simpl in H; rewrite (Hk t Ht) in H; discriminate
    end.
Qed.

(** *** Deleting *)

Lemma remove_first_unique (id caller : ObjectId) (c : list QueryDoc)
  (q : QueryDoc) :
  NoDup (map _id c) -> find (owned_by id caller) c = Some q ->
  forall x, In x (remove_first (owned_by id caller) c)
            <-> In x c /\ _id x <> id.
Proof.
  induction c as [|h c IH]; simpl; [discriminate|].
  intros Hu Hf x. inversion Hu as [|? ? Hn Hd]; subst.
  destruct (owned_by id caller h) eqn:E.
  - apply andb_true_iff in E as [E _]. apply Nat.eqb_eq in E. split.
    + intros Hx. split; [now right|]. intros Ex. apply Hn.
      rewrite E, <- Ex. now apply in_map.
    + intros [[<-|Hx] Hne]; [contradiction | assumption].
  - simpl. rewrite (IH Hd Hf x).
    assert (Hh : _id h <> id).
    { intros Eh. apply Hn. apply find_some in Hf as [Hq Ho].
      apply andb_true_iff in Ho as [Ho _]. apply Nat.eqb_eq in Ho.
      rewrite Eh, <- Ho. now apply in_map. }
    split.
    + intros [<-|[Hx Hne]]; auto.
    + intros [[<-|Hx] Hne]; auto.
Qed.

Lemma mongo_delete_effect (db : DB) (caller id : ObjectId) :
  unique_ids db ->
  status (fst (delete_queries caller id db)) = 200%Z ->
  users (snd (delete_queries caller id db)) = users db
  /\ (forall x, In x (queries (snd (delete_queries caller id db)))
                <-> In x (queries db) /\ _id x <> id)
  /\ id_taken id (queries (snd (delete_queries caller id db))) = false.
Proof.
  intros Hu. unfold delete_queries.
  destruct (find _ _) as [q|] eqn:Hf; simpl; [|discriminate]. intros _.
  split; [reflexivity|].
  pose proof (remove_first_unique id caller (queries db) q Hu Hf) as R.
  split; [exact R|].
  apply mongo_id_taken_false_iff. intros Hin.
  apply in_map_iff in Hin as [x [E Hx]]. apply R in Hx as [_ Hne]. contradiction.
Qed.

(** *** Creating *)

Lemma mongo_create_listed (caller : ObjectId) (b : Body) (env : Env) (db : DB) :
  status (fst (post_queries caller b env db)) = 201%Z ->
  exists doc,
    fst (post_queries caller b env db) = mkResponse 201 (toJSON doc)
    /\ In doc (listByOwner caller (snd (post_queries caller b env db)))
    /\ b_title b = Some (title doc) /\ b_text b = Some (text doc)
    /\ tags doc = processedTags (b_tags b)
    /\ isPublic doc = false /\ shareId doc = None
    /\ createdAt doc = now env
    /\ forall other, other <> caller ->
         ~ In doc (listByOwner other (snd (post_queries caller b env db))).
Proof.
  unfold post_queries. case_handler; simpl; try discriminate. intros _.
  apply save_new_Ok in Heqr
    as (-> & _ & _ & Hp & Hs & Hu & Hc & Ht & Et & Ex & _).
  simpl in *. exists q. split; [reflexivity|]. split.
  { apply mongo_In_listByOwner. simpl. split; [|assumption].
    apply in_or_app. right. now left. }
  repeat split; auto.
  - rewrite Ht. unfold schema_tags. apply TagFacts.processedTags_trimmed.
  - intros other Ho Hin. apply mongo_In_listByOwner in Hin as [_ E]. congruence.
Qed.

(** *** The tags of a user *)

Lemma mongo_In_distinct_tags (caller : ObjectId) (db : DB) (t : string) :
  In t (distinct_tags caller db)
  <-> exists q, In q (queries db) /\ user q = caller /\ In t (tags q).
Proof.
  unfold distinct_tags.
  rewrite (proj2 (proj2 (OrderFacts.sort_distinct_spec _))), in_flat_map.
  split; intros [q [Hq Ht]]; exists q.
  - apply filter_In in Hq as [Hq Hu]. apply Nat.eqb_eq in Hu. auto.
  - destruct Ht as [Hu Ht]. split; [|assumption].
    apply filter_In. split; [assumption | now apply Nat.eqb_eq].
Qed.

End MongoMore.

(** ** More on the relational store *)

Module D1More.
Import JS JSFacts D1 D1Facts.

#[local] Hint Resolve preserves_ret preserves_throw preserves_bind_text : d1.

(** *** The listing is the caller's queries, newest first *)

Lemma d1_insert_desc_perm (q : QueryRow) (l : list QueryRow) :
  Permutation (insert_desc q l) (q :: l).
Proof.
  induction l as [|h t IH]; simpl; [reflexivity|].
  destruct (Z.leb (created_at h) (created_at q)); [reflexivity|].
  rewrite IH. apply perm_swap.
Qed.

Lemma d1_sort_desc_perm (l : list QueryRow) : Permutation (sort_desc l) l.
Proof.
  induction l as [|h t IH]; simpl; [reflexivity|].
  rewrite d1_insert_desc_perm. now constructor.
Qed.

Lemma d1_insert_desc_sorted (q : QueryRow) (l : list QueryRow) :
  Sorted (fun a b => (created_at b <= created_at a)%Z) l ->
  Sorted (fun a b => (created_at b <= created_at a)%Z) (insert_desc q l).
Proof.
  induction 1 as [|h t Ht IH Hh]; simpl; [repeat constructor|].
  destruct (Z.leb (created_at h) (created_at q)) eqn:E.
  - constructor; [now constructor|]. constructor. now apply Z.leb_le.
  - apply Z.leb_gt in E. constructor; [exact IH|].
    destruct t as [|k t]; simpl.
    + constructor. lia.
    + destruct (Z.leb (created_at k) (created_at q)); constructor;
        [lia | now inversion Hh].
Qed.

Lemma d1_sort_desc_sorted (l : list QueryRow) :
  Sorted (fun a b => (created_at b <= created_at a)%Z) (sort_desc l).
Proof.
  induction l as [|h t IH]; simpl;
    [constructor | now apply d1_insert_desc_sorted].
Qed.

(** *** Properties that every statement keeps *)

Lemma preserves_for_each_in (P : DB -> Prop) {A : Type} (l : list A)
  (f : A -> M unit) :
  (forall a, In a l -> preserves P (f a)) -> preserves P (for_each l f).
Proof.
  induction l as [|a l IH]; simpl; intros Hf; [apply preserves_ret|].
  apply preserves_bind; [apply Hf; now left | intros _].
  apply IH. intros b Hb. apply Hf. now right.
Qed.

(** The shape of a handler, for a property [P] that the statements of
    the query endpoints keep. *)
Lemma handler_preserves (P : DB -> Prop) (r : Request) (env : Env) :
  (forall caller t x, preserves P (insert_query caller t x env)) ->
  (forall qid tags, preserves P (insert_tags qid tags)) ->
  (forall t x qid caller, preserves P (update_query t x qid caller)) ->
  (forall qid, preserves P (delete_tags qid)) ->
  (forall qid caller, preserves P (delete_query qid caller)) ->
  (forall caller qid, preserves P (post_share (Some caller) qid env)) ->
  preserves P (handler r env).
Proof.
  intros Hiq Hit Huq Hdt Hdq Hs.
  destruct r as [p|p b|p qid b|p qid|p qid|sid];
    unfold handler, get_queries, post_queries, put_queries, delete_queries;
    try (destruct p as [caller|]; [|unfold post_share; auto with d1]).
  - now apply preserves_read.
  - repeat (apply preserves_bind; [solve [auto with d1] | intros ?]).
    auto with d1.
  - repeat (apply preserves_bind; [solve [auto with d1] | intros ?]).
    destruct (Z.eqb _ 0); [auto with d1|].
    repeat (apply preserves_bind; [solve [auto with d1] | intros ?]).
    auto with d1.
  - apply preserves_bind; [apply Hdq | intros ?].
    destruct (Z.eqb _ 0); auto with d1.
  - apply Hs.
  - apply preserves_read. intros db. unfold get_public.
    now destruct (find _ _).
Qed.

Lemma handle_preserves (P : DB -> Prop) (r : Request) (env : Env) (db : DB) :
  preserves P (handler r env) -> P db -> P (snd (handle r env db)).
Proof. intros H Hdb. unfold handle. rewrite snd_run. now apply H. Qed.

(** A statement that leaves [query_tags] alone. *)
Lemma keeps_tags (P : list TagRow -> Prop) {A : Type} (m : M A) :
  (forall db, query_tags (snd (m db)) = query_tags db) ->
  preserves (fun db => P (query_tags db)) m.
Proof. intros E db H. now rewrite E. Qed.

(** A statement that leaves [queries] alone. *)
Lemma keeps_queries (P : list QueryRow -> Prop) {A : Type} (m : M A) :
  (forall db, queries (snd (m db)) = queries db) ->
  preserves (fun db => P (queries db)) m.
Proof. intros E db H. now rewrite E. Qed.

Lemma tags_insert_query caller t x env db :
  query_tags (snd (insert_query caller t x env db)) = query_tags db.
Proof. unfold insert_query. now destruct (negb _). Qed.

Lemma tags_update_share s qid db :
  query_tags (snd (update_share s qid db)) = query_tags db.
Proof. unfold update_share. now destruct (_ && _). Qed.

Lemma share_keeps_tags (P : list TagRow -> Prop) caller qid env :
  preserves (fun db => P (query_tags db)) (post_share (Some caller) qid env).
Proof.
  unfold post_share.
  apply preserves_bind; [now apply preserves_read | intros [q|]];
    [|auto with d1].
  destruct (_ && _); [auto with d1|].
  apply preserves_bind; [|auto with d1].
  apply keeps_tags. apply tags_update_share.
Qed.

(** *** Stored tags are normalised *)

Lemma tag_rows_insert_tags (P : string -> Prop) qid tags :
  (forall t, In t (processedTags tags) -> P t) ->
  preserves (fun db => Forall (fun r => P (tag r)) (query_tags db))
            (insert_tags qid tags).
Proof.
  intros Hp. destruct tags as [[|t l]|]; simpl; auto with d1.
  apply preserves_for_each_in. intros a Ha db H. unfold insert_tag.
  destruct (existsb _ (query_tags db)); [assumption|].
  destruct (negb _); [assumption|]. simpl.
  apply Forall_app. split; [assumption|]. constructor; [|constructor].
  simpl. apply Hp. exact Ha.
Qed.

Lemma tag_rows_delete_tags (P : TagRow -> Prop) qid :
  preserves (fun db => Forall P (query_tags db)) (delete_tags qid).
Proof.
  intros db H. unfold delete_tags. simpl. rewrite Forall_forall in *.
  intros r Hr. apply filter_In in Hr as [Hr _]. auto.
Qed.

Lemma tag_rows_delete_query (P : TagRow -> Prop) qid caller :
  preserves (fun db => Forall P (query_tags db)) (delete_query qid caller).
Proof.
  intros db H. unfold delete_query. simpl. rewrite Forall_forall in *.
  intros r Hr. apply filter_In in Hr as [Hr _]. auto.
Qed.

Lemma tags_normal_preserved (r : Request) (env : Env) (db : DB) :
  Forall (fun row => tag_normal (tag row)) (query_tags db) ->
  Forall (fun row => tag_normal (tag row))
         (query_tags (snd (handle r env db))).
Proof.
  apply (handle_preserves
           (fun d => Forall (fun row => tag_normal (tag row)) (query_tags d))).
  apply handler_preserves.
  - intros caller t x. apply keeps_tags. intros d. apply tags_insert_query.
  - intros qid tags. apply tag_rows_insert_tags. intros t Ht.
    exact (proj1 (Forall_forall _ _)
             (MoreTagFacts.processedTags_normal tags) t Ht).
  - intros t x qid caller. now apply keeps_tags.
  - intros qid. apply tag_rows_delete_tags.
  - intros qid caller. apply tag_rows_delete_query.
  - intros caller qid. apply share_keeps_tags.
Qed.

Lemma reachable_tags_normal (db : DB) :
  reachable db -> Forall (fun row => tag_normal (tag row)) (query_tags db).
Proof.
  induction 1 as [us|db r env _ IH]; [constructor|].
  now apply tags_normal_preserved.
Qed.

Lemma tags_of_normal (db : DB) (qid : Z) :
  reachable db -> Forall tag_normal (tags_of qid db).
Proof.
  intros Hr. pose proof (reachable_tags_normal db Hr) as H.
  unfold tags_of. rewrite Forall_forall in *. intros t Ht.
  apply in_map_iff in Ht as [row [<- Hrow]].
  apply filter_In in Hrow as [Hrow _]. auto.
Qed.

(** *** What the listing shows of the stored tags *)

Lemma listed_tags (db : DB) (qid : Z) :
  Forall (fun t => truthy t = true) (tags_of qid db) ->
  Forall (fun t => has_char "," t = false) (tags_of qid db) ->
  split_tags (group_concat qid db) = sort_asc (tags_of qid db).
Proof.
  intros Ht Hc. unfold group_concat. fold (tags_of qid db).
  apply (OrderFacts.sort_asc_Forall _ _) in Ht.
  apply (OrderFacts.sort_asc_Forall _ _) in Hc.
  destruct (sort_asc (tags_of qid db)) as [|t l] eqn:E; [reflexivity|].
  unfold split_tags. cbn [truthy_opt].
  rewrite MoreTagFacts.join_truthy; [|discriminate | assumption].
  apply MoreTagFacts.split_join; [discriminate | assumption].
Qed.

(** *** A request on one query leaves the tags of the others *)

Lemma tags_of_insert_tag (q' qid : Z) (t : string) (db : DB) :
  q' <> qid -> tags_of q' (snd (insert_tag qid t db)) = tags_of q' db.
Proof.
  intros Hne. unfold insert_tag.
  destruct (existsb _ (query_tags db)); [reflexivity|].
  destruct (negb _); [reflexivity|]. unfold tags_of. simpl.
  rewrite filter_app, map_app. simpl. unfold tag_of at 2. simpl.
  destruct (Z.eqb qid q') eqn:E; [apply Z.eqb_eq in E; congruence|].
  simpl. now rewrite app_nil_r.
Qed.

Lemma tags_of_kept_insert_tags (q' qid : Z) (L : list string) tags :
  q' <> qid ->
  preserves (fun db => tags_of q' db = L) (insert_tags qid tags).
Proof.
  intros Hne. destruct tags as [[|t l]|]; simpl; auto with d1.
  apply preserves_for_each. intros a db H.
  now rewrite tags_of_insert_tag.
Qed.

Lemma filter_filter_implied {A : Type} (p g : A -> bool) (l : list A) :
  (forall x, p x = true -> g x = true) ->
  filter p (filter g l) = filter p l.
Proof.
  intros H. induction l as [|a l IH]; simpl; [reflexivity|].
  destruct (g a) eqn:G; simpl.
  - now rewrite IH.
  - destruct (p a) eqn:Pa; [|exact IH].
    rewrite (H a Pa) in G. discriminate.
Qed.

Lemma tags_of_kept_delete_tags (q' qid : Z) (L : list string) :
  q' <> qid -> preserves (fun db => tags_of q' db = L) (delete_tags qid).
Proof.
  intros Hne db H. rewrite <- H. unfold delete_tags, tags_of. simpl.
  f_equal. apply filter_filter_implied. intros r Hr.
  unfold tag_of in *. apply Z.eqb_eq in Hr. apply negb_true_iff.
  apply Z.eqb_neq. congruence.
Qed.

Lemma tags_of_kept_delete_query (q' qid caller : Z) (L : list string) :
  q' <> qid ->
  preserves (fun db => tags_of q' db = L) (delete_query qid caller).
Proof.
  intros Hne db H. rewrite <- H. unfold delete_query, tags_of. simpl.
  f_equal. apply filter_filter_implied. intros r Hr.
  unfold tag_of in Hr. apply Z.eqb_eq in Hr. apply negb_true_iff.
  rewrite <- not_true_iff_false. intros E.
  apply existsb_exists in E as [q [Hq Hi]].
  apply filter_In in Hq as [_ Ho]. apply andb_true_iff in Ho as [Ho _].
  unfold has_id in Hi. apply Z.eqb_eq in Hi, Ho. congruence.
Qed.

Lemma tags_of_ext (q' : Z) (db1 db2 : DB) :
  query_tags db1 = query_tags db2 -> tags_of q' db1 = tags_of q' db2.
Proof. unfold tags_of. now intros ->. Qed.

Lemma other_tags_kept (q' qid : Z) (r : Request) (env : Env) (db : DB) :
  q' <> qid ->
  match r with
  | CreateQuery _ _ => qid = (Z.max (queries_seq db) (max_id (queries db)) + 1)%Z
  | UpdateQuery _ i _ | DeleteQuery _ i | ShareQuery _ i => qid = i
  | _ => True
  end ->
  tags_of q' (snd (handle r env db)) = tags_of q' db.
Proof.
  intros Hne Hr. unfold handle. rewrite snd_run.
  destruct r as [p|p b|p i b|p i|p i|sid];
    unfold handler, get_queries, post_queries, put_queries, delete_queries;
    try (destruct p as [caller|]; [|reflexivity]); try subst i.
  - reflexivity.
  - unfold mbind. destruct (b_title b); [|reflexivity].
    destruct (b_text b); [|reflexivity]. cbn [bind_text ret].
    unfold insert_query at 1.
    destruct (negb _); [reflexivity|]. cbn [fst snd].
    match goal with
    | |- context [insert_tags ?i ?tg ?d] =>
        pose proof (tags_of_kept_insert_tags q' i (tags_of q' d) tg) as K;
        specialize (K ltac:(subst qid; exact Hne) d eq_refl);
        destruct (insert_tags i tg d) as [[u|e] d2]
    end; simpl in *; rewrite K; reflexivity.
  - unfold mbind. destruct (b_title b); [|reflexivity].
    destruct (b_text b); [|reflexivity]. cbn [bind_text ret].
    unfold update_query at 1. cbn [fst snd].
    destruct (Z.eqb _ 0); [reflexivity|].
    unfold delete_tags at 1. cbn [fst snd].
    match goal with
    | |- context [insert_tags ?i ?tg ?d] =>
        pose proof (tags_of_kept_insert_tags q' i (tags_of q' d) tg Hne d
                      eq_refl) as K;
        destruct (insert_tags i tg d) as [[u|e] d2]
    end; simpl in *; rewrite K;
      apply (tags_of_kept_delete_tags q' qid _ Hne
               (with_queries db _) eq_refl).
  - unfold mbind.
    pose proof (tags_of_kept_delete_query q' qid caller _ Hne db eq_refl) as K.
    destruct (delete_query qid caller db) as [[n|e] d] eqn:E; simpl in *;
      [|exact K].
    now destruct (Z.eqb n 0).
  - apply (share_keeps_tags
             (fun l => map tag (filter (tag_of q') l) = tags_of q' db)
             caller qid env db eq_refl).
  - unfold get_public. now destruct (find _ _).
Qed.

(** *** Row ids *)

Lemma seq_insert_tags s0 qid tags :
  preserves (fun db => (s0 <= queries_seq db)%Z) (insert_tags qid tags).
Proof.
  destruct tags as [[|t l]|]; simpl; auto with d1.
  apply preserves_for_each. intros a db H. unfold insert_tag.
  destruct (existsb _ (query_tags db)); [assumption|].
  now destruct (negb _).
Qed.

Lemma seq_share s0 caller qid env :
  preserves (fun db => (s0 <= queries_seq db)%Z)
            (post_share (Some caller) qid env).
Proof.
  unfold post_share.
  apply preserves_bind; [now apply preserves_read | intros [q|]];
    [|auto with d1].
  destruct (_ && _); [auto with d1|].
  apply preserves_bind; [|auto with d1].
  intros db H. unfold update_share. now destruct (_ && _).
Qed.

(** The AUTOINCREMENT counter never goes back. *)
Lemma seq_monotone (r : Request) (env : Env) (db : DB) :
  (queries_seq db <= queries_seq (snd (handle r env db)))%Z.
Proof.
  apply (handle_preserves (fun d => (queries_seq db <= queries_seq d)%Z));
    [|lia].
  apply handler_preserves.
  - intros caller t x d H. unfold insert_query.
    destruct (negb _); simpl; lia.
  - intros qid tags. apply seq_insert_tags.
  - intros t x qid caller d H. exact H.
  - intros qid d H. exact H.
  - intros qid caller d H. exact H.
  - intros caller qid. apply seq_share.
Qed.

Lemma max_id_nonneg (c : list QueryRow) : (0 <= max_id c)%Z.
Proof. induction c as [|h c IH]; simpl; lia. Qed.

Lemma ids_insert_tags qid tags :
  preserves (fun db => Forall (fun q => (0 < id q <= queries_seq db)%Z)
                              (queries db))
            (insert_tags qid tags).
Proof.
  destruct tags as [[|t l]|]; simpl; auto with d1.
  apply preserves_for_each. intros a db H. unfold insert_tag.
  destruct (existsb _ (query_tags db)); [assumption|].
  now destruct (negb _).
Qed.

Lemma ids_bounded_preserved (r : Request) (env : Env) (db : DB) :
  Forall (fun q => (0 < id q <= queries_seq db)%Z) (queries db) ->
  Forall (fun q => (0 < id q <= queries_seq (snd (handle r env db)))%Z)
         (queries (snd (handle r env db))).
Proof.
  apply (handle_preserves
           (fun d => Forall (fun q => (0 < id q <= queries_seq d)%Z)
                            (queries d))).
  apply handler_preserves.
  - intros caller t x d H. unfold insert_query.
    destruct (negb _); simpl; [assumption|].
    pose proof (max_id_nonneg (queries d)).
    apply Forall_app. split.
    + eapply Forall_impl; [|exact H]. simpl. intros q Hq. lia.
    + constructor; [simpl; lia | constructor].
  - intros qid tags. apply ids_insert_tags.
  - intros t x qid caller d H. unfold update_query. simpl.
    rewrite Forall_forall in *. intros q' Hin.
    apply in_map_iff in Hin as [q [<- Hin]].
    destruct (owned_by qid caller q); simpl; auto.
  - intros qid d H. exact H.
  - intros qid caller d H. unfold delete_query. simpl.
    rewrite Forall_forall in *. intros q Hin.
    apply filter_In in Hin as [Hin _]. auto.
  - intros caller qid. unfold post_share.
    apply preserves_bind; [now apply preserves_read | intros [q|]];
      [|auto with d1].
    destruct (_ && _); [auto with d1|].
    apply preserves_bind; [|auto with d1].
    intros d H. unfold update_share. destruct (_ && _); [assumption|]. simpl.
    rewrite Forall_forall in *. intros q' Hin.
    apply in_map_iff in Hin as [q0 [<- Hin]].
    destruct (has_id qid q0); simpl; auto.
Qed.

Lemma reachable_ids_bounded (db : DB) :
  reachable db ->
  Forall (fun q => (0 < id q <= queries_seq db)%Z) (queries db).
Proof.
  induction 1 as [us|db r env _ IH]; [constructor|].
  now apply ids_bounded_preserved.
Qed.

(** The row a successful create adds. *)
Lemma create_row (caller : Z) (b : Body) (env : Env) (db : DB) :
  status (fst (handle (CreateQuery (Some caller) b) env db)) = 201%Z ->
  exists t x,
    b_title b = Some t /\ b_text b = Some x
    /\ queries (snd (handle (CreateQuery (Some caller) b) env db))
       = queries db
         ++ [{| id := Z.max (queries_seq db) (max_id (queries db)) + 1;
                user_id := caller; title := t; text := x;
                is_public := 0; share_id := None;
                created_at := now env |}]
    /\ queries_seq (snd (handle (CreateQuery (Some caller) b) env db))
       = (Z.max (queries_seq db) (max_id (queries db)) + 1)%Z
    /\ users (snd (handle (CreateQuery (Some caller) b) env db)) = users db
    /\ registered caller db.
Proof.
  destruct (b_title b) as [t|] eqn:Ht;
    [|unfold handle, handler, run, post_queries, mbind; rewrite Ht;
      simpl; discriminate].
  destruct (b_text b) as [x|] eqn:Hx;
    [|unfold handle, handler, run, post_queries, mbind; rewrite Ht, Hx;
      simpl; discriminate].
  destruct (existsb (fun u => Z.eqb (uid u) caller) (users db)) eqn:Hr;
    [|unfold handle, handler, run, post_queries, mbind, insert_query;
      rewrite Ht, Hx; cbn [bind_text ret]; rewrite Hr; simpl; discriminate].
  rewrite (create_steps caller t x b env db Ht Hx Hr). cbv zeta.
  destruct (insert_tags _ _ _) as [[u|e] db2] eqn:E; simpl; [|discriminate].
  intros _. apply insert_tags_unit, insert_tags_inv in E. subst db2.
  unfold insert_query. rewrite Hr. simpl. exists t, x. now repeat split.
Qed.

(** *** Share tokens *)

Lemma d1_In_tokens (t : string) (c : list QueryRow) :
  In t (tokens c) <-> exists q, In q c /\ share_id q = Some t.
Proof.
  unfold tokens. rewrite in_flat_map. split.
  - intros [q [Hq Ht]]. exists q. split; [assumption|].
    destruct (share_id q); [destruct Ht as [->|[]]; reflexivity | destruct Ht].
  - intros [q [Hq Ht]]. exists q. split; [assumption|]. rewrite Ht. now left.
Qed.

Lemma tokens_map_keep (g : QueryRow -> QueryRow) (c : list QueryRow) :
  (forall q, share_id (g q) = share_id q) -> tokens (map g c) = tokens c.
Proof.
  intros Hg. induction c as [|q c IH]; simpl; [reflexivity|].
  now rewrite Hg, IH.
Qed.

Lemma tokens_filter (p : QueryRow -> bool) (c : list QueryRow) :
  NoDup (tokens c) -> NoDup (tokens (filter p c)).
Proof.
  induction c as [|q c IH]; simpl; [auto|]. intros H.
  assert (Hc : NoDup (tokens c)) by (now apply NoDup_app_remove_l in H).
  destruct (p q); [|auto]. simpl.
  destruct (share_id q) as [t|]; simpl in *; [|auto].
  inversion H as [|? ? Hn _]; subst. constructor; [|auto].
  intros Hin. apply Hn. apply d1_In_tokens in Hin as [x [Hx Ht]].
  apply d1_In_tokens. exists x. split; [|assumption].
  now apply filter_In in Hx as [Hx _].
Qed.

Lemma d1_tokens_inj (c : list QueryRow) (x y : QueryRow) (t : string) :
  NoDup (tokens c) -> In x c -> In y c ->
  share_id x = Some t -> share_id y = Some t -> x = y.
Proof.
  induction c as [|h c IH]; simpl; [tauto|].
  intros H Hx Hy Ex Ey.
  assert (Hc : NoDup (tokens c)) by (now apply NoDup_app_remove_l in H).
  assert (Hh : forall z, In z c -> share_id h = Some t -> share_id z = Some t ->
                         False).
  { intros z Hz Eh Ez. rewrite Eh in H. simpl in H.
    inversion H as [|? ? Hn _]; subst. apply Hn. apply d1_In_tokens. now exists z. }
  destruct Hx as [->|Hx], Hy as [->|Hy]; auto.
  - exfalso. eapply Hh; eauto.
  - exfalso. eapply Hh; eauto.
Qed.

Lemma d1_private_no_token (q : QueryRow) :
  share_inv q -> token_ok q ->
  num_truthy (is_public q) && truthy_opt (share_id q) = false ->
  share_id q = None.
Proof.
  intros [Hs _] Ht E. destruct (share_id q) as [t|] eqn:Et; [|reflexivity].
  exfalso. assert (Hp : is_public q = 1%Z) by (apply Hs; congruence).
  rewrite Hp in E. simpl in E. rewrite (Ht t Et) in E. discriminate.
Qed.

Lemma tokens_share_step (qid : Z) (s : string) (c : list QueryRow) :
  NoDup (map id c) -> NoDup (tokens c) ->
  (forall x, In x c -> has_id qid x = true -> share_id x = None) ->
  (forall x, In x c -> has_id qid x = false -> share_id x <> Some s) ->
  NoDup (tokens (map (fun x => if has_id qid x then set_shared s x else x) c)).
Proof.
  induction c as [|h c IH]; simpl; [auto|]. intros Hu H Hi Ho.
  assert (Hc : NoDup (tokens c)) by (now apply NoDup_app_remove_l in H).
  inversion Hu as [|? ? Hn Hd]; subst.
  destruct (has_id qid h) eqn:E; simpl.
  - assert (Hrest : forall x, In x c -> has_id qid x = false).
    { intros x Hx. unfold has_id in *. apply Z.eqb_eq in E.
      apply Z.eqb_neq. intros Ex. apply Hn. rewrite E, <- Ex.
      now apply in_map. }
    rewrite map_unchanged by assumption.
    constructor; [|assumption]. intros Hin.
    apply d1_In_tokens in Hin as [x [Hx Ht]].
    now apply (Ho x (or_intror Hx) (Hrest x Hx)).
  - destruct (share_id h) as [t|] eqn:Et; simpl in *.
    + inversion H as [|? ? Hn' _]; subst. constructor; [|apply IH; auto].
      intros Hin. apply d1_In_tokens in Hin as [x [Hx Ht]].
      apply in_map_iff in Hx as [x0 [<- Hx0]].
      destruct (has_id qid x0) eqn:E0.
      * simpl in Ht. inversion Ht; subst.
        apply (Ho h (or_introl eq_refl) E). exact Et.
      * apply Hn'. apply d1_In_tokens. now exists x0.
    + apply IH; auto.
Qed.

Lemma d1_tokens_share (caller qid : Z) (env : Env) (db : DB) :
  wf db -> NoDup (tokens (queries db)) ->
  NoDup (tokens (queries (snd (post_share (Some caller) qid env db)))).
Proof.
  intros (Hu & _ & Hq) Ht. rewrite Forall_forall in Hq.
  unfold post_share, mbind, select_owned.
  destruct (find _ _) as [q|] eqn:Hf; simpl; [|assumption].
  destruct (num_truthy _ && _) eqn:E; simpl; [assumption|].
  unfold update_share.
  destruct (existsb (has_id qid) (queries db)
            && existsb _ (queries db)) eqn:Ec; simpl; [assumption|].
  apply find_some in Hf as [Hin Ho].
  pose proof (owned_has_id _ _ _ Ho) as Hid.
  assert (Hex : existsb (has_id qid) (queries db) = true).
  { apply existsb_exists. now exists q. }
  rewrite Hex in Ec. simpl in Ec. rewrite <- not_true_iff_false in Ec.
  apply tokens_share_step; auto.
  - intros x Hx Hi. unfold has_id in *. apply Z.eqb_eq in Hi, Hid.
    rewrite (d1_unique_ids_inj _ x q Hu Hx Hin) by congruence.
    destruct (Hq q Hin). now apply d1_private_no_token.
  - intros x Hx Hi Ex. apply Ec. apply existsb_exists.
    exists x. split; [assumption|]. rewrite Hi. simpl.
    unfold share_id_is. rewrite Ex. apply String.eqb_refl.
Qed.

Lemma tokens_insert_tags qid tags :
  preserves (fun db => NoDup (tokens (queries db))) (insert_tags qid tags).
Proof.
  destruct tags as [[|t l]|]; simpl; auto with d1.
  apply preserves_for_each. intros a.
  apply (keeps_queries (fun c => NoDup (tokens c))).
  intros db. apply queries_insert_tag.
Qed.

Lemma preserves_both (P Q : DB -> Prop) {A : Type} (m : M A) :
  preserves P m -> preserves Q m -> preserves (fun db => P db /\ Q db) m.
Proof. intros HP HQ db [Hp Hq]. split; auto. Qed.

Lemma d1_tokens_preserved (r : Request) (env : Env) (db : DB) :
  wf db -> NoDup (tokens (queries db)) ->
  NoDup (tokens (queries (snd (handle r env db)))).
Proof.
  intros Hwf Ht.
  apply (handle_preserves
           (fun d => wf d /\ NoDup (tokens (queries d))) r env db);
    [|now split].
  apply handler_preserves.
  - intros caller t x. apply preserves_both; [apply wf_insert_query|].
    intros d H. unfold insert_query. destruct (negb _); [assumption|]. simpl.
    unfold tokens. rewrite flat_map_app. simpl. now rewrite app_nil_r.
  - intros qid tags.
    apply preserves_both; [apply wf_insert_tags | apply tokens_insert_tags].
  - intros t x qid caller. apply preserves_both; [apply wf_update_query|].
    intros d H. unfold update_query. simpl. rewrite tokens_map_keep; [exact H|].
    intros q. now destruct (owned_by qid caller q).
  - intros qid. apply preserves_both; [apply wf_delete_tags|].
    intros d H. exact H.
  - intros qid caller. apply preserves_both; [apply wf_delete_query|].
    intros d H. unfold delete_query. simpl. now apply tokens_filter.
  - intros caller qid d [Hw Hn]. split.
    + exact (wf_handler (ShareQuery (Some caller) qid) env d Hw).
    + now apply d1_tokens_share.
Qed.

Lemma d1_reachable_tokens (db : DB) : reachable db -> NoDup (tokens (queries db)).
Proof.
  induction 1 as [us|db r env Hr IH]; [constructor|].
  apply d1_tokens_preserved; [now apply d1_reachable_wf | exact IH].
Qed.

Lemma d1_find_exists (p : QueryRow -> bool) (c : list QueryRow) (x : QueryRow) :
  In x c -> p x = true -> exists y, find p c = Some y.
Proof.
  intros Hx Hp. destruct (find p c) as [y|] eqn:E; [now exists y|].
  rewrite (find_none _ _ E x Hx) in Hp. discriminate.
Qed.

(** The public lookup of a token finds the one query that carries
    it. *)
Lemma d1_public_lookup (db : DB) (q : QueryRow) (t : string) (env : Env) :
  reachable db -> In q (queries db) ->
  is_public q = 1%Z -> share_id q = Some t ->
  handle (GetPublic t) env db = (mkResponse 200 (public_view db q), db).
Proof.
  intros Hr Hq Hp Ht. unfold handle, handler, run, get_public.
  assert (Hs : shared_as t q = true).
  { unfold shared_as, share_id_is. now rewrite Ht, Hp, String.eqb_refl. }
  destruct (d1_find_exists _ _ _ Hq Hs) as [y Hy]. rewrite Hy.
  apply find_some in Hy as [Hin Hy]. unfold shared_as, share_id_is in Hy.
  destruct (share_id y) as [s|] eqn:Es; [|discriminate].
  apply andb_true_iff in Hy as [Hy _]. apply String.eqb_eq in Hy. subst s.
  now rewrite (d1_tokens_inj _ y q t (d1_reachable_tokens db Hr) Hin Hq Es Ht).
Qed.

Lemma d1_set_shared_same (q : QueryRow) (t : string) :
  is_public q = 1%Z -> share_id q = Some t -> set_shared t q = q.
Proof. destruct q; simpl; intros -> ->; reflexivity. Qed.

(** After a share that answers 200 the table holds the query, public,
    under the answered token. *)
Lemma d1_share_outcome (db : DB) (caller qid : Z) (q : QueryRow) (env : Env) :
  wf db -> find (owned_by qid caller) (queries db) = Some q ->
  status (fst (handle (ShareQuery (Some caller) qid) env db)) = 200%Z ->
  exists t,
    fst (handle (ShareQuery (Some caller) qid) env db)
    = mkResponse 200 (JObj [("shareId", JStr t)])
    /\ In (set_shared t q)
          (queries (snd (handle (ShareQuery (Some caller) qid) env db)))
    /\ query_tags (snd (handle (ShareQuery (Some caller) qid) env db))
       = query_tags db.
Proof.
  intros Hwf Hf.
  destruct (num_truthy (is_public q) && truthy_opt (share_id q)) eqn:E.
  - intros _. apply andb_true_iff in E as [Hp _].
    destruct (d1_share_public db caller qid q Hwf Hf Hp) as [t [Ht Hs]].
    destruct (d1_public_has_token db q Hwf (proj1 (find_some _ _ Hf)) Hp)
      as [H1 _].
    exists t. rewrite Hs. simpl. split; [reflexivity|]. split; [|reflexivity].
    rewrite d1_set_shared_same by assumption. now apply find_some in Hf.
  - rewrite (share_private_step db caller qid q env Hf E).
    destruct (existsb _ (queries db)); simpl; [discriminate|]. intros _.
    exists (new_shareId env). split; [reflexivity|]. split; [|reflexivity].
    apply find_some in Hf as [Hin Ho]. apply in_map_iff. exists q.
    split; [|assumption]. now rewrite (owned_has_id _ _ _ Ho).
Qed.

(** *** Sharing is one way *)

Ltac unchanged := repeat (split; [assumption|]); assumption.

Lemma d1_public_stays (db : DB) (q : QueryRow) (t : string) (r : Request)
  (env : Env) (q' : QueryRow) :
  reachable db -> In q (queries db) ->
  is_public q = 1%Z -> share_id q = Some t ->
  In q' (queries (snd (handle r env db))) -> id q' = id q ->
  is_public q' = 1%Z /\ share_id q' = Some t.
Proof.
  intros Hr Hin Hp Ht.
  pose proof (d1_reachable_wf db Hr) as Hwf.
  pose proof (reachable_ids_bounded db Hr) as Hb.
  set (P := fun d : DB =>
              wf d /\ (id q <= queries_seq d)%Z
              /\ Forall (fun x => (id x <= queries_seq d)%Z) (queries d)
              /\ forall x, In x (queries d) -> id x = id q ->
                           is_public x = 1%Z /\ share_id x = Some t).
  assert (H0 : P db).
  { unfold P. split; [assumption|]. rewrite Forall_forall in Hb.
    split; [apply (Hb q Hin)|]. split.
    - apply Forall_forall. intros x Hx. apply (Hb x Hx).
    - intros x Hx E. destruct Hwf as (Hu & _).
      now rewrite (d1_unique_ids_inj _ x q Hu Hx Hin E). }
  assert (H1 : P (snd (handle r env db))).
  { apply (handle_preserves P r env db); [|exact H0]. clear H0.
    apply handler_preserves.
    - intros caller t0 x d (Hw & Hs & Hall & Hq). unfold P.
      split; [now apply wf_insert_query|]. unfold insert_query.
      destruct (negb _); simpl; [unchanged|].
      pose proof (max_id_nonneg (queries d)). split; [lia|]. split.
      + apply Forall_app. split.
        * eapply Forall_impl; [|exact Hall]. simpl. intros a Ha. lia.
        * constructor; [simpl; lia | constructor].
      + intros z Hz E. apply in_app_or in Hz as [Hz|[<-|[]]]; [auto|].
        simpl in E. lia.
    - intros qid tags d (Hw & Hs & Hall & Hq). unfold P.
      split; [now apply wf_insert_tags|].
      assert (Eq : queries (snd (insert_tags qid tags d)) = queries d
                   /\ queries_seq (snd (insert_tags qid tags d))
                      = queries_seq d).
      { apply (preserves_both
                 (fun x => queries x = queries d)
                 (fun x => queries_seq x = queries_seq d));
          [| |now split];
          (destruct tags as [[|a l]|]; simpl; auto with d1;
           apply preserves_for_each; intros b0 d0 H; unfold insert_tag;
           destruct (existsb _ (query_tags d0)); [assumption|];
           now destruct (negb _)). }
      destruct Eq as [-> ->]. unchanged.
    - intros t0 x qid caller d (Hw & Hs & Hall & Hq). unfold P.
      split; [now apply wf_update_query|]. unfold update_query. simpl.
      split; [assumption|]. split.
      + rewrite Forall_forall in *. intros y Hy.
        apply in_map_iff in Hy as [y0 [<- Hy0]].
        destruct (owned_by qid caller y0); simpl; auto.
      + intros y Hy E. apply in_map_iff in Hy as [y0 [<- Hy0]].
        destruct (owned_by qid caller y0); simpl in *; auto.
    - intros qid d (Hw & Hs & Hall & Hq). unfold P.
      split; [now apply wf_delete_tags|].
      unchanged.
    - intros qid caller d (Hw & Hs & Hall & Hq). unfold P.
      split; [now apply wf_delete_query|]. unfold delete_query. simpl.
      split; [assumption|]. split.
      + rewrite Forall_forall in *. intros y Hy.
        apply filter_In in Hy as [Hy _]. auto.
      + intros y Hy E. apply filter_In in Hy as [Hy _]. auto.
    - intros caller qid d (Hw & Hs & Hall & Hq). unfold P.
      split; [exact (wf_handler (ShareQuery (Some caller) qid) env d Hw)|].
      unfold post_share, mbind, select_owned.
      destruct (find _ _) as [target|] eqn:Hf; simpl; [|unchanged].
      destruct (num_truthy _ && _) eqn:E; simpl; [unchanged|].
      unfold update_share.
      destruct (existsb (has_id qid) (queries d) && existsb _ (queries d));
        simpl; [unchanged|].
      split; [assumption|]. split.
      + rewrite Forall_forall in *. intros y Hy.
        apply in_map_iff in Hy as [y0 [<- Hy0]].
        destruct (has_id qid y0); simpl; auto.
      + intros y Hy Ey. apply in_map_iff in Hy as [y0 [<- Hy0]].
        destruct (has_id qid y0) eqn:Ei; [|auto]. exfalso. simpl in Ey.
        apply find_some in Hf as [Ht' Ho].
        pose proof (owned_has_id _ _ _ Ho) as Hi'.
        unfold has_id in *. apply Z.eqb_eq in Ei, Hi'.
        destruct Hw as (Hu & _ & Hrows). rewrite Forall_forall in Hrows.
        destruct (Hq target Ht' ltac:(congruence)) as [Hp' Hs'].
        destruct (Hrows target Ht') as [_ Hk].
        rewrite Hp', Hs' in E. simpl in E. rewrite (Hk t Hs') in E.
        discriminate. }
  destruct H1 as (_ & _ & _ & H1). exact (H1 q').
Qed.

(** *** Deleting *)

Lemma d1_delete_effect (db : DB) (caller qid : Z) (env : Env) :
  unique_ids db ->
  status (fst (handle (DeleteQuery (Some caller) qid) env db)) = 200%Z ->
  users (snd (handle (DeleteQuery (Some caller) qid) env db)) = users db
  /\ (forall x, In x (queries (snd (handle (DeleteQuery (Some caller) qid)
                                      env db)))
                <-> In x (queries db) /\ id x <> qid)
  /\ tags_of qid (snd (handle (DeleteQuery (Some caller) qid) env db)) = []
  /\ ~ In qid (map id (queries (snd (handle (DeleteQuery (Some caller) qid)
                                       env db)))).
Proof.
  intros Hu.
  destruct (filter (owned_by qid caller) (queries db)) as [|q l] eqn:E.
  - destruct (d1_unmatched_outcomes db caller qid E) as (Hd & _).
    rewrite Hd. simpl. discriminate.
  - intros _. unfold handle, handler, run, delete_queries, mbind, delete_query.
    rewrite E. simpl.
    assert (Hq : In q (queries db) /\ owned_by qid caller q = true).
    { apply filter_In. rewrite E. now left. }
    destruct Hq as [Hq Ho]. pose proof (owned_has_id _ _ _ Ho) as Hi.
    unfold has_id in Hi. apply Z.eqb_eq in Hi.
    assert (R : forall x, In x (filter (fun y => negb (owned_by qid caller y))
                                       (queries db))
                          <-> In x (queries db) /\ id x <> qid).
    { intros x. rewrite filter_In. split.
      - intros [Hx Hn]. split; [assumption|]. intros Ex.
        rewrite (d1_unique_ids_inj _ x q Hu Hx Hq) in Hn by congruence.
        rewrite Ho in Hn. discriminate.
      - intros [Hx Hn]. split; [assumption|]. apply negb_true_iff.
        unfold owned_by. apply andb_false_iff. left. now apply Z.eqb_neq. }
    split; [reflexivity|]. split; [exact R|]. split.
    + unfold tags_of. simpl.
      match goal with
      | |- map tag ?X = [] => assert (F : X = []); [|now rewrite F]
      end.
      apply filter_nil. intros r Hr. apply filter_In in Hr as [_ Hr].
      unfold tag_of. apply Z.eqb_neq. intros Er.
      apply negb_true_iff, orb_false_iff in Hr. destruct Hr as [Hr _].
      unfold has_id in Hr. rewrite Hi, Er, Z.eqb_refl in Hr. discriminate.
    + intros Hin. apply in_map_iff in Hin as [x [Ex Hx]].
      apply R in Hx as [_ Hn]. contradiction.
Qed.

(** *** Creating *)

Lemma d1_create_listed (caller : Z) (b : Body) (env : Env) (db : DB) :
  reachable db ->
  status (fst (handle (CreateQuery (Some caller) b) env db)) = 201%Z ->
  exists row,
    In row (listByOwner caller
              (snd (handle (CreateQuery (Some caller) b) env db)))
    /\ b_title b = Some (title row) /\ b_text b = Some (text row)
    /\ is_public row = 0%Z /\ share_id row = None
    /\ created_at row = now env
    /\ tags_of (id row) (snd (handle (CreateQuery (Some caller) b) env db))
       = processedTags (b_tags b)
    /\ (queries_seq db < id row)%Z
    /\ forall other, other <> caller ->
         ~ In row (listByOwner other
                     (snd (handle (CreateQuery (Some caller) b) env db))).
Proof.
  intros Hr H.
  destruct (create_row caller b env db H) as (t & x & Ht & Hx & Eq & _).
  destruct (d1_create_stores_tags caller b env db (d1_reachable_wf db Hr) H)
    as (row & Eq' & Hu & Htags).
  rewrite Eq in Eq'. apply app_inv_head in Eq'. inversion Eq'; subst row.
  match type of Eq with _ = _ ++ [?r] => exists r end. split.
  { apply d1_In_listByOwner. rewrite Eq. split; [|reflexivity].
    apply in_or_app. right. now left. }
  cbn [title text is_public share_id created_at id].
  split; [exact Ht|]. split; [exact Hx|]. split; [reflexivity|].
  split; [reflexivity|]. split; [reflexivity|]. split; [exact Htags|].
  split; [lia|].
  intros other Ho Hin. apply d1_In_listByOwner in Hin as [_ E].
  simpl in E. congruence.
Qed.

(** *** The tags of a user *)

Lemma d1_In_distinct_tags (caller : Z) (db : DB) (t : string) :
  In t (distinct_tags caller db)
  <-> exists q, In q (queries db) /\ user_id q = caller
                /\ In t (tags_of (id q) db).
Proof.
  unfold distinct_tags.
  rewrite (proj2 (proj2 (OrderFacts.sort_distinct_spec _))), in_map_iff.
  split.
  - intros [r [<- Hr]]. apply filter_In in Hr as [Hr Ho].
    unfold owner_tag in Ho. apply existsb_exists in Ho as [q [Hq Hc]].
    apply andb_true_iff in Hc as [Hi Hc]. unfold has_id in Hi.
    apply Z.eqb_eq in Hi, Hc. exists q. repeat split; auto.
    unfold tags_of. apply in_map. apply filter_In. split; [assumption|].
    unfold tag_of. now apply Z.eqb_eq.
  - intros [q [Hq [Hc Ht]]]. unfold tags_of in Ht.
    apply in_map_iff in Ht as [r [<- Hr]]. apply filter_In in Hr as [Hr Hi].
    exists r. split; [reflexivity|]. apply filter_In. split; [assumption|].
    unfold owner_tag. apply existsb_exists. exists q. split; [assumption|].
    unfold tag_of in Hi. apply Z.eqb_eq in Hi. unfold has_id.
    apply andb_true_iff. split; apply Z.eqb_eq; congruence.
Qed.

(** *** The authorization check *)

Section AuthPayload.

Variable verify : string -> string -> option Z.

Lemma truthy_app_sep (a b : string) (c : ascii) :
  truthy (a ++ String c b)%string = true.
Proof. destruct a; reflexivity. Qed.

Lemma auth_token (key scheme token : string) :
  truthy key = true ->
  has_char " " scheme = false -> has_char " " token = false ->
  getAuthPayload verify (Some key) (Some (scheme ++ String " " token)%string)
  = verify token key.
Proof.
  intros Hk Hs Ht. unfold getAuthPayload. cbn [truthy_opt].
  rewrite Hk, truthy_app_sep. cbn [negb].
  rewrite MoreTagFacts.split_app by assumption.
  now rewrite MoreTagFacts.split_clean by assumption.
Qed.

Lemma auth_token_then_more (key scheme token more : string) :
  truthy key = true ->
  has_char " " scheme = false -> has_char " " token = false ->
  getAuthPayload verify (Some key)
    (Some (scheme ++ String " " (token ++ String " " more))%string)
  = verify token key.
Proof.
  intros Hk Hs Ht. unfold getAuthPayload. cbn [truthy_opt].
  rewrite Hk, truthy_app_sep. cbn [negb].
  rewrite MoreTagFacts.split_app by assumption.
  now rewrite MoreTagFacts.split_app by assumption.
Qed.

Lemma auth_one_piece (secret : option string) (a : string) :
  has_char " " a = false ->
  getAuthPayload verify secret (Some a) = None.
Proof.
  intros Ha. unfold getAuthPayload.
  destruct (negb (truthy_opt secret)); [reflexivity|].
  destruct (negb (truthy_opt (Some a))); [reflexivity|].
  destruct secret; [|reflexivity].
  now rewrite MoreTagFacts.split_clean by assumption.
Qed.

Lemma auth_closed (secret auth : option string) :
  truthy_opt secret = false \/ truthy_opt auth = false ->
  getAuthPayload verify secret auth = None.
Proof.
  intros [H|H]; unfold getAuthPayload; rewrite H; simpl; [reflexivity|].
  now destruct (negb (truthy_opt secret)).
Qed.

End AuthPayload.

(** Without a payload no protected endpoint reads or writes. *)
Lemma unauthorized_everywhere (env : Env) (db : DB) :
  handle (ListQueries None) env db = (unauthorized, db)
  /\ run (get_tags None) db = (unauthorized, db)
  /\ (forall b, handle (CreateQuery None b) env db = (unauthorized, db))
  /\ (forall qid b, handle (UpdateQuery None qid b) env db = (unauthorized, db))
  /\ (forall qid, handle (DeleteQuery None qid) env db = (unauthorized, db))
  /\ (forall qid, handle (ShareQuery None qid) env db = (unauthorized, db)).
Proof. repeat split. Qed.

(** *** Users *)

Lemma users_handle (r : Request) (env : Env) (db : DB) :
  users (snd (handle r env db)) = users db.
Proof.
  apply (handle_preserves (fun d => users d = users db)); [|reflexivity].
  apply handler_preserves.
  - intros caller t x d H. unfold insert_query. now destruct (negb _).
  - intros qid tags. destruct tags as [[|t l]|]; simpl; auto with d1.
    apply preserves_for_each. intros a d H. unfold insert_tag.
    destruct (existsb _ (query_tags d)); [assumption|].
    now destruct (negb _).
  - intros t x qid caller d H. exact H.
  - intros qid d H. exact H.
  - intros qid caller d H. exact H.
  - intros caller qid. unfold post_share.
    apply preserves_bind; [now apply preserves_read | intros [q|]];
      [|auto with d1].
    destruct (_ && _); [auto with d1|].
    apply preserves_bind; [|auto with d1].
    intros d H. unfold update_share. now destruct (_ && _).
Qed.

Lemma max_uid_ge (us : list UserRow) (u : UserRow) :
  In u us -> (uid u <= max_uid us)%Z.
Proof.
  induction us as [|h us IH]; simpl; [tauto|].
  intros [<-|H]; [lia | specialize (IH H); lia].
Qed.

Lemma name_taken_iff (name : string) (us : list UserRow) :
  existsb (fun u => String.eqb (username u) name) us = true
  <-> In name (map username us).
Proof.
  rewrite existsb_exists, in_map_iff.
  split; intros [u H]; exists u; rewrite String.eqb_eq in *; tauto.
Qed.

Section Signup.

Variable bcrypt_hash : string -> string -> string.

Lemma signup_taken (name password salt : string) (db : DB) :
  In name (map username (users db)) ->
  signup bcrypt_hash name password salt db
  = (message 409 "Username already exists.", db).
Proof.
  intros H. apply name_taken_iff in H. unfold signup, insert_user.
  now rewrite H.
Qed.

Lemma signup_fresh (name password salt : string) (db : DB) :
  ~ In name (map username (users db)) ->
  signup bcrypt_hash name password salt db
  = (message 201 "User created successfully.",
     {| users := users db
                 ++ [{| uid := max_uid (users db) + 1;
                        username := name;
                        password_hash := bcrypt_hash password salt |}];
        queries := queries db;
        query_tags := query_tags db;
        queries_seq := queries_seq db |}).
Proof.
  intros H. rewrite <- name_taken_iff in H. apply not_true_is_false in H.
  unfold signup, insert_user. now rewrite H.
Qed.

Lemma signup_cases (name password salt : string) (db : DB) :
  (In name (map username (users db))
   /\ signup bcrypt_hash name password salt db
      = (message 409 "Username already exists.", db))
  \/ (~ In name (map username (users db))
      /\ signup bcrypt_hash name password salt db
         = (message 201 "User created successfully.",
            {| users := users db
                        ++ [{| uid := max_uid (users db) + 1;
                               username := name;
                               password_hash := bcrypt_hash password salt |}];
               queries := queries db;
               query_tags := query_tags db;
               queries_seq := queries_seq db |})).
Proof.
  destruct (in_dec string_dec name (map username (users db))) as [H|H].
  - left. split; [assumption | now apply signup_taken].
  - right. split; [assumption | now apply signup_fresh].
Qed.

(** Every query belongs to a registered user. *)
Lemma owners_registered_request (r : Request) (env : Env) (db : DB) :
  Forall (fun q => registered (user_id q) db) (queries db) ->
  Forall (fun q => registered (user_id q) (snd (handle r env db)))
         (queries (snd (handle r env db))).
Proof.
  intros H. unfold registered in *. rewrite users_handle.
  set (R := fun q => existsb (fun u => Z.eqb (uid u) (user_id q)) (users db)
                     = true) in *.
  assert (K : users (snd (handle r env db)) = users db
              /\ Forall R (queries (snd (handle r env db))));
    [|exact (proj2 K)].
  apply (handle_preserves
           (fun d => users d = users db /\ Forall R (queries d)));
    [|now split].
  apply handler_preserves.
  - intros caller t x d [Hu Hd]. unfold insert_query.
    destruct (negb _) eqn:E; [now split|]. simpl. split; [assumption|].
    apply Forall_app. split; [assumption|]. constructor; [|constructor].
    unfold R. simpl. rewrite <- Hu. now apply negb_false_iff in E.
  - intros qid tags. destruct tags as [[|t l]|]; simpl; auto with d1.
    apply preserves_for_each. intros a d Hd. unfold insert_tag.
    destruct (existsb _ (query_tags d)); [assumption|].
    now destruct (negb _).
  - intros t x qid caller d [Hu Hd]. unfold update_query. simpl.
    split; [assumption|].
    rewrite Forall_forall in *. intros q' Hin.
    apply in_map_iff in Hin as [q [<- Hin]].
    destruct (owned_by qid caller q); simpl; auto.
    unfold R, set_content. simpl. now apply Hd.
  - intros qid d Hd. exact Hd.
  - intros qid caller d [Hu Hd]. unfold delete_query. simpl.
    split; [assumption|].
    rewrite Forall_forall in *. intros q Hin.
    apply filter_In in Hin as [Hin _]. auto.
  - intros caller qid. unfold post_share.
    apply preserves_bind; [now apply preserves_read | intros [q|]];
      [|auto with d1].
    destruct (_ && _); [auto with d1|].
    apply preserves_bind; [|auto with d1].
    intros d [Hu Hd]. unfold update_share. destruct (_ && _); [now split|].
    simpl. split; [assumption|].
    rewrite Forall_forall in *. intros q' Hin.
    apply in_map_iff in Hin as [q0 [<- Hin]].
    destruct (has_id qid q0); simpl; auto.
    unfold R, set_shared. simpl. now apply Hd.
Qed.

Lemma registered_signup (name password salt : string) (db : DB) (c : Z) :
  registered c db ->
  registered c (snd (signup bcrypt_hash name password salt db)).
Proof.
  intros H. destruct (signup_cases name password salt db) as [[_ E]|[_ E]];
    rewrite E; simpl; [assumption|].
  unfold registered in *. simpl. rewrite existsb_app, H. reflexivity.
Qed.

Lemma queries_signup (name password salt : string) (db : DB) :
  queries (snd (signup bcrypt_hash name password salt db)) = queries db
  /\ query_tags (snd (signup bcrypt_hash name password salt db))
     = query_tags db
  /\ queries_seq (snd (signup bcrypt_hash name password salt db))
     = queries_seq db.
Proof.
  destruct (signup_cases name password salt db) as [[_ E]|[_ E]];
    rewrite E; simpl; auto.
Qed.

Lemma names_signup (name password salt : string) (db : DB) :
  NoDup (map username (users db)) ->
  NoDup (map username (users (snd (signup bcrypt_hash name password salt db)))).
Proof.
  intros H. destruct (signup_cases name password salt db) as [[_ E]|[Hn E]];
    rewrite E; simpl; [assumption|].
  rewrite map_app. simpl.
  apply NoDup_app_remove_l with (l := []). simpl.
  apply Permutation_NoDup with (l := name :: map username (users db)).
  - apply Permutation_cons_append.
  - now constructor.
Qed.

Lemma uids_signup (name password salt : string) (db : DB) :
  NoDup (map uid (users db)) ->
  NoDup (map uid (users (snd (signup bcrypt_hash name password salt db)))).
Proof.
  intros H. destruct (signup_cases name password salt db) as [[_ E]|[Hn E]];
    rewrite E; simpl; [assumption|].
  rewrite map_app. simpl.
  apply Permutation_NoDup
    with (l := (max_uid (users db) + 1)%Z :: map uid (users db)).
  - apply Permutation_cons_append.
  - constructor; [|assumption].
    intros Hin. apply in_map_iff in Hin as [u [Eu Hin]].
    apply max_uid_ge in Hin. lia.
Qed.

Lemma wf_signup (name password salt : string) (db : DB) :
  wf db -> wf (snd (signup bcrypt_hash name password salt db)).
Proof.
  intros H. destruct (signup_cases name password salt db) as [[_ E]|[_ E]];
    rewrite E; simpl; [assumption|].
  exact H.
Qed.

Lemma served_invariant (db : DB) :
  served bcrypt_hash db ->
  NoDup (map username (users db))
  /\ NoDup (map uid (users db))
  /\ wf db
  /\ Forall (fun q => registered (user_id q) db) (queries db).
Proof.
  induction 1 as [|db name password salt H [Hn [Hu [Hw Ho]]]
                  |db r env H [Hn [Hu [Hw Ho]]]].
  - simpl. repeat split; try constructor.
    intros r [].
  - split; [now apply names_signup|].
    split; [now apply uids_signup|].
    split; [now apply wf_signup|].
    destruct (queries_signup name password salt db) as [-> _].
    rewrite Forall_forall in *. intros q Hq.
    apply registered_signup. now apply Ho.
  - rewrite users_handle.
    split; [assumption|]. split; [assumption|].
    split; [unfold handle; rewrite snd_run; now apply wf_handler|].
    now apply owners_registered_request.
Qed.

End Signup.

(** *** Signing up, then logging in *)

Section SignupLogin.

Variable bcrypt_hash : string -> string -> string.
Variable bcrypt_compare : string -> string -> bool.
Variable sign : Z -> string -> Z -> string.

Lemma find_fresh_last (name : string) (us : list UserRow) (u : UserRow) :
  ~ In name (map username us) -> username u = name ->
  find (fun v => String.eqb (username v) name) (us ++ [u]) = Some u.
Proof.
  intros Hn Eu. induction us as [|h us IH]; simpl.
  - now rewrite Eu, String.eqb_refl.
  - simpl in Hn. destruct (String.eqb (username h) name) eqn:E.
    + apply String.eqb_eq in E. tauto.
    + apply IH. tauto.
Qed.

Lemma signup_then_login (name password salt : string) (env : Env) (db : DB) :
  bcrypt_compare password (bcrypt_hash password salt) = true ->
  fst (signup bcrypt_hash name password salt db)
  = message 201 "User created successfully." ->
  login bcrypt_compare sign name password env
    (snd (signup bcrypt_hash name password salt db))
  = mkResponse 200
      (JObj [("token",
              JStr (sign (max_uid (users db) + 1) name (now env + 3600))%Z);
             ("user", JObj [("username", JStr name)])]).
Proof.
  intros Hc E.
  destruct (signup_cases bcrypt_hash name password salt db)
    as [[_ E']|[Hn E']]; rewrite E' in *; [discriminate|]. clear E.
  unfold login. cbn [snd users].
  rewrite (find_fresh_last name (users db)
             {| uid := max_uid (users db) + 1; username := name;
                password_hash := bcrypt_hash password salt |} Hn eq_refl).
  cbn [password_hash uid username negb]. now rewrite Hc.
Qed.

End SignupLogin.


(** *** PRIMARY KEY (query_id, tag): no query has a tag twice *)

Lemma NoDup_map_filter {A B : Type} (f : A -> B) (g : A -> bool) (l : list A) :
  NoDup (map f l) -> NoDup (map f (filter g l)).
Proof.
  induction l as [|a l IH]; simpl; [trivial|].
  intros H. inversion H as [|? ? Hn Hl]; subst.
  destruct (g a); simpl; [|now apply IH].
  constructor; [|now apply IH].
  intros Hin. apply Hn. apply in_map_iff in Hin as [x [E Hx]].
  apply filter_In in Hx as [Hx _]. apply in_map_iff. now exists x.
Qed.

Lemma filter_swap {A : Type} (p g : A -> bool) (l : list A) :
  filter p (filter g l) = filter g (filter p l).
Proof.
  induction l as [|a l IH]; simpl; [reflexivity|].
  destruct (g a) eqn:Eg, (p a) eqn:Ep; simpl; rewrite ?Eg, ?Ep, IH;
    reflexivity.
Qed.

Lemma NoDup_snoc {A : Type} (l : list A) (x : A) :
  NoDup l -> ~ In x l -> NoDup (l ++ [x]).
Proof.
  intros Hl Hx. apply Permutation_NoDup with (l := x :: l);
    [apply Permutation_cons_append | now constructor].
Qed.

Lemma key_insert_tag (q0 qid : Z) (t : string) :
  preserves (fun db => NoDup (tags_of q0 db)) (insert_tag qid t).
Proof.
  intros db H. unfold insert_tag.
  destruct (existsb _ (query_tags db)) eqn:E; [assumption|].
  destruct (negb _); [assumption|]. unfold tags_of in *. simpl.
  rewrite filter_app, map_app. simpl. unfold tag_of at 2. simpl.
  destruct (Z.eqb qid q0) eqn:Eq; simpl; [|now rewrite app_nil_r].
  apply Z.eqb_eq in Eq. subst q0. apply NoDup_snoc; [assumption|].
  intros Hin. apply in_map_iff in Hin as [r [Er Hr]].
  apply filter_In in Hr as [Hr Hq].
  assert (X : existsb (fun r => tag_of qid r && String.eqb (tag r) t)
                      (query_tags db) = true).
  { apply existsb_exists. exists r. split; [assumption|].
    now rewrite Hq, Er, String.eqb_refl. }
  congruence.
Qed.

Lemma key_insert_tags (q0 qid : Z) tags :
  preserves (fun db => NoDup (tags_of q0 db)) (insert_tags qid tags).
Proof.
  destruct tags as [[|t l]|]; simpl; auto with d1.
  apply preserves_for_each. intros a. apply key_insert_tag.
Qed.

Lemma keys_preserved (q0 : Z) (r : Request) (env : Env) (db : DB) :
  NoDup (tags_of q0 db) -> NoDup (tags_of q0 (snd (handle r env db))).
Proof.
  apply (handle_preserves (fun d => NoDup (tags_of q0 d))).
  apply handler_preserves.
  - intros caller t x d H. unfold tags_of in *.
    now rewrite tags_insert_query.
  - intros qid tags. apply key_insert_tags.
  - intros t x qid caller d H. exact H.
  - intros qid d H. unfold tags_of, delete_tags in *. simpl.
    rewrite filter_swap. now apply NoDup_map_filter.
  - intros qid caller d H. unfold tags_of, delete_query in *. simpl.
    rewrite filter_swap. now apply NoDup_map_filter.
  - intros caller qid.
    apply (share_keeps_tags
             (fun l => NoDup (map tag (filter (tag_of q0) l)))).
Qed.

Lemma reachable_keys (db : DB) (q0 : Z) :
  reachable db -> NoDup (tags_of q0 db).
Proof.
  induction 1 as [us|db r env _ IH]; [constructor|].
  now apply keys_preserved.
Qed.

(** *** AUTOINCREMENT: an id is never handed out twice *)

Lemma rows_from_map (c0 : list QueryRow) (bound : Z) (g : QueryRow -> QueryRow)
  (c : list QueryRow) :
  (forall q, id (g q) = id q /\ user_id (g q) = user_id q
             /\ created_at (g q) = created_at q) ->
  rows_from c0 bound c -> rows_from c0 bound (map g c).
Proof.
  intros Hg H row Hin Hb. apply in_map_iff in Hin as [q [<- Hq]].
  destruct (Hg q) as (Ei & Eu & Ec). rewrite Ei in Hb.
  destruct (H q Hq Hb) as [old (Ho & E1 & E2 & E3)].
  exists old. rewrite Ei, Eu, Ec. now repeat split.
Qed.

Lemma rows_from_filter (c0 : list QueryRow) (bound : Z) (p : QueryRow -> bool)
  (c : list QueryRow) :
  rows_from c0 bound c -> rows_from c0 bound (filter p c).
Proof.
  intros H row Hin. apply filter_In in Hin as [Hin _]. now apply H.
Qed.

Lemma history_handler (db0 : DB) (r : Request) (env : Env) :
  preserves (fun d => (queries_seq db0 <= queries_seq d)%Z
                      /\ rows_from (queries db0) (queries_seq db0) (queries d))
            (handler r env).
Proof.
  apply handler_preserves.
  - intros caller t x d [Hs Hr]. unfold insert_query.
    destruct (negb _); [now split|]. simpl. split; [lia|].
    intros row Hin Hb. apply in_app_or in Hin as [Hin|[<-|[]]];
      [now apply Hr|]. simpl in Hb. lia.
  - intros qid tags. apply preserves_both.
    + apply seq_insert_tags.
    + destruct tags as [[|t l]|]; simpl; auto with d1.
      apply preserves_for_each. intros a.
      apply (keeps_queries
               (fun c => rows_from (queries db0) (queries_seq db0) c)).
      intros db. apply queries_insert_tag.
  - intros t x qid caller d [Hs Hr]. unfold update_query. simpl.
    split; [assumption|]. apply rows_from_map; [|assumption].
    intros q. now destruct (owned_by qid caller q).
  - intros qid d H. exact H.
  - intros qid caller d [Hs Hr]. unfold delete_query. simpl.
    split; [assumption|]. now apply rows_from_filter.
  - intros caller qid. unfold post_share.
    apply preserves_bind; [now apply preserves_read | intros [q|]];
      [|auto with d1].
    destruct (_ && _); [auto with d1|].
    apply preserves_bind; [|auto with d1].
    intros d [Hs Hr]. unfold update_share. destruct (_ && _); [now split|].
    simpl. split; [assumption|]. apply rows_from_map; [|assumption].
    intros z. now destruct (has_id qid z).
Qed.

Lemma history_serve_all (db0 : DB) (rs : list (Request * Env)) (d : DB) :
  (queries_seq db0 <= queries_seq d)%Z ->
  rows_from (queries db0) (queries_seq db0) (queries d) ->
  (queries_seq db0 <= queries_seq (serve_all rs d))%Z
  /\ rows_from (queries db0) (queries_seq db0) (queries (serve_all rs d)).
Proof.
  revert d. induction rs as [|[r env] rs IH]; intros d Hs Hr; simpl;
    [now split|].
  apply IH;
    apply (handle_preserves _ r env d (history_handler db0 r env));
    now split.
Qed.

Lemma id_keeps_its_row (db : DB) (q : QueryRow) (rs : list (Request * Env))
  (row : QueryRow) :
  reachable db -> In q (queries db) ->
  In row (queries (serve_all rs db)) -> id row = id q ->
  user_id row = user_id q /\ created_at row = created_at q.
Proof.
  intros Hr Hq Hrow E.
  pose proof (reachable_ids_bounded db Hr) as B.
  rewrite Forall_forall in B. specialize (B q Hq).
  destruct (history_serve_all db rs db) as [_ H]; [lia | |].
  { intros x Hx _. exists x. now repeat split. }
  destruct (H row Hrow) as [old (Ho & E1 & E2 & E3)]; [lia|].
  destruct (d1_reachable_wf db Hr) as [Hu _].
  assert (old = q) as ->.
  { apply (d1_unique_ids_inj (queries db)); auto. congruence. }
  now split.
Qed.

(** *** The outcomes of a create *)

Lemma queries_insert_tags qid tags db :
  queries (snd (insert_tags qid tags db)) = queries db.
Proof.
  assert (H : preserves (fun d => queries d = queries db)
                        (insert_tags qid tags)).
  { destruct tags as [[|t l]|]; simpl; auto with d1.
    apply preserves_for_each. intros a.
    apply (keeps_queries (fun c => c = queries db)).
    intros d. apply queries_insert_tag. }
  now apply H.
Qed.

Lemma create_outcome (caller : Z) (t x : string) (b : Body) (env : Env)
  (db : DB) :
  reachable db -> registered caller db ->
  b_title b = Some t -> b_text b = Some x ->
  (status (fst (handle (CreateQuery (Some caller) b) env db)) = 201%Z
   <-> NoDup (processedTags (b_tags b)))
  /\ (status (fst (handle (CreateQuery (Some caller) b) env db)) = 201%Z
      \/ fst (handle (CreateQuery (Some caller) b) env db) = internal_error)
  /\ queries (snd (handle (CreateQuery (Some caller) b) env db))
     = queries db
       ++ [{| id := Z.max (queries_seq db) (max_id (queries db)) + 1;
              user_id := caller; title := t; text := x;
              is_public := 0; share_id := None; created_at := now env |}].
Proof.
  intros Hr Hc Ht Hx. split; [split|split].
  - intros H201.
    destruct (d1_create_stores_tags caller b env db (d1_reachable_wf db Hr)
                H201) as [row (_ & _ & <-)].
    apply reachable_keys. now constructor.
  - now apply (create_complete caller t x b env db (d1_reachable_wf db Hr)).
  - rewrite (create_steps caller t x b env db Ht Hx Hc). cbv zeta.
    destruct (insert_tags _ _ _) as [[u|e] db2]; [now left | now right].
  - rewrite (create_steps caller t x b env db Ht Hx Hc). cbv zeta.
    pose proof (queries_insert_tags
                  (Z.max (queries_seq db) (max_id (queries db)) + 1)
                  (b_tags b) (snd (insert_query caller t x env db))) as Q.
    destruct (insert_tags _ _ _) as [[u|e] db2]; simpl in *; rewrite Q;
      unfold insert_query; unfold registered in Hc; now rewrite Hc.
Qed.

End D1More.

(* ================================================================== *)
(** ** The add form *)

Module ClientFacts.
Import JS JSFacts.

Lemma submit_Some (tv xv gv t x : string) (tags : list string) :
  Client.submit tv xv gv = Some (t, x, tags) ->
  t = trim tv /\ x = trim xv /\ tags = Frontend.processTags gv
  /\ truthy t = true /\ truthy x = true.
Proof.
  unfold Client.submit.
  destruct (truthy (trim tv)) eqn:Et, (truthy (trim xv)) eqn:Ex;
    simpl; try discriminate.
  intros E. inversion E; subst. now repeat split.
Qed.

Lemma mongo_create_not_refused (caller : Mongo.ObjectId) (t x : string)
  (tags : list string) (env : Mongo.Env) (db : Mongo.DB) :
  truthy t = true -> truthy x = true ->
  status (fst (Mongo.post_queries caller (Client.mongo_body t x tags) env db))
  <> 400%Z.
Proof.
  intros Ht Hx. unfold Mongo.post_queries, Mongo.missing_title_or_text.
  cbn [Client.mongo_body Mongo.b_title Mongo.b_text truthy_opt].
  rewrite Ht, Hx. cbn [negb orb].
  destruct (Mongo.save_new _ _ _) as [[doc c]|e]; simpl; discriminate.
Qed.

End ClientFacts.

(* ================================================================== *)
(** ** The shape of share tokens *)

Module TokenMore.
Import JS JSFacts.

Lemma has_char_app (c : ascii) (a b : string) :
  has_char c (a ++ b)%string = has_char c a || has_char c b.
Proof.
  induction a as [|d a IH]; simpl; [reflexivity|].
  now rewrite IH, orb_assoc.
Qed.

Lemma length_app (a b : string) :
  String.length (a ++ b)%string = String.length a + String.length b.
Proof. induction a as [|d a IH]; simpl; [reflexivity | now rewrite IH]. Qed.

Lemma hex_length (bs : list byte) :
  String.length (hex bs) = 2 * List.length bs.
Proof.
  induction bs as [|b bs IH]; [reflexivity|].
  cbn [hex]. rewrite length_app, IH. simpl. lia.
Qed.

Lemma hex_digit_alphabet (n : N) :
  has_char (hex_digit n) "0123456789abcdef" = true.
Proof.
  destruct n as [|p]; [reflexivity|].
  repeat (destruct p as [p|p|]; try reflexivity).
Qed.

Lemma hex_byte_alphabet (c : ascii) (b : byte) :
  has_char c (hex_byte b) = true -> has_char c "0123456789abcdef" = true.
Proof.
  unfold hex_byte. cbn [has_char]. rewrite orb_false_r. intros H.
  apply orb_true_iff in H as [H|H]; apply Ascii.eqb_eq in H; subst c;
    apply hex_digit_alphabet.
Qed.

Lemma hex_alphabet (c : ascii) (bs : list byte) :
  has_char c (hex bs) = true -> has_char c "0123456789abcdef" = true.
Proof.
  induction bs as [|b bs IH]; cbn [hex]; [discriminate|].
  rewrite has_char_app. intros H. apply orb_true_iff in H as [H|H];
    [now apply hex_byte_alphabet with b | now apply IH].
Qed.

Lemma hex_no_dash (bs : list byte) : has_char "-" (hex bs) = false.
Proof.
  destruct (has_char "-" (hex bs)) eqn:E; [|reflexivity].
  apply hex_alphabet in E. discriminate.
Qed.

Lemma randomBytes_length (e : Entropy) (off n : nat) :
  List.length (randomBytes e off n) = n.
Proof. unfold randomBytes. now rewrite length_map, length_seq. Qed.

(** The first two groups of a UUID. *)
Lemma uuid_groups (e : Entropy) (off : nat) :
  exists rest,
    D1.randomUUID e off
    = (hex (randomBytes e off 4)
       ++ String "-" (hex (randomBytes e (4 + off) 2) ++ String "-" rest))%string.
Proof. unfold D1.randomUUID, randomBytes. eexists. reflexivity. Qed.

Lemma d1_new_shareId_bytes (env : D1.Env) :
  D1.new_shareId env
  = (hex (randomBytes (D1.entropy env) 0 4)
     ++ hex (randomBytes (D1.entropy env) 20 2))%string.
Proof.
  unfold D1.new_shareId.
  destruct (uuid_groups (D1.entropy env) 0) as [r0 ->].
  destruct (uuid_groups (D1.entropy env) 16) as [r1 ->].
  rewrite !MoreTagFacts.split_app by apply hex_no_dash.
  reflexivity.
Qed.

End TokenMore.

(* ================================================================== *)
(** ** The tags field of the form *)

Module FrontendFacts.
Import JS JSFacts Frontend.

Lemma processTags_normal (s : string) : Forall tag_normal (processTags s).
Proof. apply MoreTagFacts.tagValues_normal. Qed.

Lemma processTags_no_comma (s : string) :
  Forall (fun t => has_char "," t = false) (processTags s).
Proof.
  unfold processTags. apply Forall_forall. intros t Ht.
  apply filter_In in Ht as [Ht _].
  apply in_map_iff in Ht as [p [<- Hp]].
  apply MoreTagFacts.has_char_normalise.
  pose proof (MoreTagFacts.split_pieces_clean "," s) as F.
  rewrite Forall_forall in F. now apply F.
Qed.

Lemma processTags_fixed (s : string) :
  processedTags (Some (processTags s)) = processTags s.
Proof.
  cbn [processedTags]. apply MoreTagFacts.tagValues_of_normal.
  apply processTags_normal.
Qed.

End FrontendFacts.

(* ================================================================== *)
(** * Beyond the contract, property by property *)

Lemma string_leb_trans (a b c : string) :
  String.leb a b = true -> String.leb b c = true -> String.leb a c = true.
Proof.
  unfold String.leb. revert b c.
  induction a as [|x a IH]; intros [|y b] [|z c]; simpl; try congruence.
  unfold Ascii.compare.
  destruct (N.compare_spec (N_of_ascii x) (N_of_ascii y)) as [E1|L1|G1];
    destruct (N.compare_spec (N_of_ascii y) (N_of_ascii z)) as [E2|L2|G2];
    try congruence; intros H1 H2.
  - rewrite E1, E2, N.compare_refl. now apply IH with b.
  - rewrite E1. now apply N.compare_lt_iff in L2 as ->.
  - rewrite <- E2. now apply N.compare_lt_iff in L1 as ->.
  - assert (L : (N_of_ascii x < N_of_ascii z)%N) by lia.
    now apply N.compare_lt_iff in L as ->.
Qed.

Lemma sort_asc_ascending (l : list string) :
  StronglySorted (fun a b => String.leb a b = true) (sort_asc l).
Proof.
  apply Sorted_StronglySorted.
  - intros a b c. apply string_leb_trans.
  - apply OrderFacts.sort_asc_sorted.
Qed.

Lemma sort_distinct_ascending (l : list string) :
  StronglySorted (fun a b => String.leb a b = true) (sort_asc (distinct l)).
Proof.
  apply Sorted_StronglySorted.
  - intros a b c. apply string_leb_trans.
  - apply OrderFacts.sort_asc_sorted.
Qed.

(** ** Tags *)

(** X1: the tag pipeline of both backends,
    [tags.map(t => t.trim().toLowerCase()).filter(t => t)], is
    idempotent, and each tag it returns is not empty and is left as it
    is by trimming and lower-casing. *)
Theorem X1_tag_pipeline_idempotent (l : list string) :
  tagValues (tagValues l) = tagValues l
  /\ Forall tag_normal (tagValues l).
Proof.
  split; [|apply MoreTagFacts.tagValues_normal].
  apply MoreTagFacts.tagValues_of_normal, MoreTagFacts.tagValues_normal.
Qed.

(** X2: what [processTags] of the browser code makes of the tags field
    is stored as it is by the server: the server's pipeline does not
    change it, and every tag is normalised and free of commas. *)
Theorem X2_form_tags_pass_the_server (s : string) :
  processedTags (Some (Frontend.processTags s)) = Frontend.processTags s
  /\ Forall (fun t => tag_normal t /\ JS.has_char "," t = false)
            (Frontend.processTags s).
Proof.
  split; [apply FrontendFacts.processTags_fixed|].
  pose proof (FrontendFacts.processTags_normal s) as N.
  pose proof (FrontendFacts.processTags_no_comma s) as C.
  rewrite Forall_forall in *. intros t Ht. split; auto.
Qed.

(** ** Listings *)

(** X3: GET /api/queries of the document store answers 200 with the
    documents of a list, in its order, and writes nothing; the list
    holds exactly the caller's queries, each as often as it is stored,
    and no query comes before one that was created later. *)
Theorem X3_mongo_listing_newest_first (caller : Mongo.ObjectId)
  (env : Mongo.Env) (db : Mongo.DB) :
  Mongo.handle (Mongo.ListQueries caller) env db
  = (mkResponse 200 (JArr (map Mongo.toJSON (Mongo.listByOwner caller db))),
     db)
  /\ Permutation (Mongo.listByOwner caller db)
                 (filter (Mongo.of_user caller) (Mongo.queries db))
  /\ StronglySorted (fun a b => (Mongo.createdAt b <= Mongo.createdAt a)%Z)
                    (Mongo.listByOwner caller db)
  /\ (forall q, In q (Mongo.listByOwner caller db)
                <-> In q (Mongo.queries db) /\ Mongo.user q = caller).
Proof.
  split; [reflexivity|].
  split; [apply MongoMore.sort_desc_perm|]. split.
  - apply Sorted_StronglySorted; [|apply MongoMore.sort_desc_sorted].
    intros a b c Hab Hbc. lia.
  - intros q. apply MongoFacts.mongo_In_listByOwner.
Qed.

(** X4: GET /queries of the relational store answers 200 with the
    formatted rows of a list, in its order, and writes nothing; the
    list holds exactly the caller's rows, and no row comes before one
    that was created later. *)
Theorem X4_d1_listing_newest_first (caller : Z) (env : D1.Env) (db : D1.DB) :
  D1.handle (D1.ListQueries (Some caller)) env db
  = (mkResponse 200
       (JArr (map (D1.format_query db) (D1.listByOwner caller db))), db)
  /\ Permutation (D1.listByOwner caller db)
                 (filter (fun q => Z.eqb (D1.user_id q) caller) (D1.queries db))
  /\ StronglySorted (fun a b => (D1.created_at b <= D1.created_at a)%Z)
                    (D1.listByOwner caller db)
  /\ (forall q, In q (D1.listByOwner caller db)
                <-> In q (D1.queries db) /\ D1.user_id q = caller).
Proof.
  split; [reflexivity|].
  split; [apply D1More.d1_sort_desc_perm|]. split.
  - apply Sorted_StronglySorted; [|apply D1More.d1_sort_desc_sorted].
    intros a b c Hab Hbc. lia.
  - intros q. apply D1Facts.d1_In_listByOwner.
Qed.

(** X5: GET /api/tags of the document store answers 200 with the tags
    of the caller's queries, each once, in ascending order, and writes
    nothing. *)
Theorem X5_mongo_tags_endpoint (caller : Mongo.ObjectId) (db : Mongo.DB) :
  Mongo.get_tags caller db
  = (mkResponse 200 (str_array (Mongo.distinct_tags caller db)), db)
  /\ StronglySorted (fun a b => String.leb a b = true)
                    (Mongo.distinct_tags caller db)
  /\ NoDup (Mongo.distinct_tags caller db)
  /\ (forall t, In t (Mongo.distinct_tags caller db)
                <-> exists q, In q (Mongo.queries db)
                              /\ Mongo.user q = caller
                              /\ In t (Mongo.tags q)).
Proof.
  split; [reflexivity|]. split; [apply sort_distinct_ascending|].
  split; [apply OrderFacts.sort_distinct_spec|].
  intros t. apply MongoMore.mongo_In_distinct_tags.
Qed.

(** X6: GET /tags of the relational store answers 200 with the tags of
    the caller's queries, each once, in ascending order, and writes
    nothing. *)
Theorem X6_d1_tags_endpoint (caller : Z) (db : D1.DB) :
  D1.run (D1.get_tags (Some caller)) db
  = (mkResponse 200 (str_array (D1.distinct_tags caller db)), db)
  /\ StronglySorted (fun a b => String.leb a b = true)
                    (D1.distinct_tags caller db)
  /\ NoDup (D1.distinct_tags caller db)
  /\ (forall t, In t (D1.distinct_tags caller db)
                <-> exists q, In q (D1.queries db)
                              /\ D1.user_id q = caller
                              /\ In t (D1.tags_of (D1.id q) db)).
Proof.
  split; [reflexivity|]. split; [apply sort_distinct_ascending|].
  split; [apply OrderFacts.sort_distinct_spec|].
  intros t. apply D1More.d1_In_distinct_tags.
Qed.

(** ** What is stored *)

(** X7: every query in the document store has a non-empty title, a
    non-empty text and normalised tags: the checks of create and update
    cover every way a query gets in. *)
Theorem X7_mongo_stored_content_valid (db : Mongo.DB) :
  Mongo.reachable db ->
  Forall (fun q => JS.truthy (Mongo.title q) = true
                   /\ JS.truthy (Mongo.text q) = true
                   /\ Forall tag_normal (Mongo.tags q))
         (Mongo.queries db).
Proof. apply MongoMore.reachable_content. Qed.

Lemma X7_mongo_stored_content_valid_witness :
  Forall (fun q => JS.truthy (Mongo.title q) = true
                   /\ JS.truthy (Mongo.text q) = true
                   /\ Forall tag_normal (Mongo.tags q))
         (Mongo.queries Sample.mongo_one).
Proof.
  exact (X7_mongo_stored_content_valid Sample.mongo_one mongo_one_reachable).
Defined.

(** X8: in the relational store the tags of a query are normalised and
    pairwise distinct, and when none of them holds a comma the listing
    and the public lookup show exactly the stored tags, in ascending
    order whatever the order they were sent in: splitting the
    GROUP_CONCAT column gives the stored tags, sorted. *)
Theorem X8_d1_stored_tags (db : D1.DB) (qid : Z) :
  D1.reachable db ->
  Forall tag_normal (D1.tags_of qid db)
  /\ NoDup (D1.tags_of qid db)
  /\ (Forall (fun t => JS.has_char "," t = false) (D1.tags_of qid db) ->
      D1.split_tags (D1.group_concat qid db) = sort_asc (D1.tags_of qid db)
      /\ Permutation (D1.split_tags (D1.group_concat qid db))
                     (D1.tags_of qid db)
      /\ StronglySorted (fun a b => String.leb a b = true)
                        (D1.split_tags (D1.group_concat qid db))).
Proof.
  intros Hr. pose proof (D1More.tags_of_normal db qid Hr) as N.
  split; [exact N|]. split; [now apply D1More.reachable_keys|].
  intros Hc.
  assert (E : D1.split_tags (D1.group_concat qid db)
              = sort_asc (D1.tags_of qid db)).
  { apply D1More.listed_tags; [|exact Hc].
    rewrite Forall_forall in *. intros t Ht. now apply N. }
  rewrite E. split; [reflexivity|].
  split; [apply OrderFacts.sort_asc_perm | apply sort_asc_ascending].
Qed.

Lemma d1_unsorted_reachable : D1.reachable Sample.d1_unsorted.
Proof. exact (D1.reach_step _ _ _ (D1.reach_init _)). Defined.

Lemma X8_d1_stored_tags_witness :
  D1.tags_of 1 Sample.d1_unsorted = ["zeta"; "alpha"]
  /\ D1.split_tags (D1.group_concat 1 Sample.d1_unsorted) = ["alpha"; "zeta"]
  /\ Permutation (D1.split_tags (D1.group_concat 1 Sample.d1_unsorted))
                 (D1.tags_of 1 Sample.d1_unsorted).
Proof.
  split; [reflexivity|]. split; [reflexivity|].
  apply (X8_d1_stored_tags Sample.d1_unsorted 1 d1_unsorted_reachable).
  repeat constructor.
Defined.

(** ** Share tokens *)

(** X9: in the document store no two queries carry the same share
    token. *)
Theorem X9_mongo_share_tokens_unique (db : Mongo.DB) :
  Mongo.reachable db ->
  NoDup (Mongo.tokens (Mongo.queries db))
  /\ (forall q1 q2 t,
         In q1 (Mongo.queries db) -> In q2 (Mongo.queries db) ->
         Mongo.shareId q1 = Some t -> Mongo.shareId q2 = Some t -> q1 = q2).
Proof.
  intros Hr. pose proof (MongoMore.mongo_reachable_tokens db Hr) as N.
  split; [exact N|]. intros q1 q2 t. now apply MongoMore.tokens_inj.
Qed.

Lemma X9_mongo_share_tokens_unique_witness :
  NoDup (Mongo.tokens (Mongo.queries Sample.mongo_shared))
  /\ (forall q1 q2 t,
         In q1 (Mongo.queries Sample.mongo_shared) ->
         In q2 (Mongo.queries Sample.mongo_shared) ->
         Mongo.shareId q1 = Some t -> Mongo.shareId q2 = Some t -> q1 = q2).
Proof.
  exact (X9_mongo_share_tokens_unique Sample.mongo_shared
           mongo_shared_reachable).
Defined.

(** X10: in the relational store no two rows carry the same share
    token. *)
Theorem X10_d1_share_tokens_unique (db : D1.DB) :
  D1.reachable db ->
  NoDup (D1.tokens (D1.queries db))
  /\ (forall q1 q2 t,
         In q1 (D1.queries db) -> In q2 (D1.queries db) ->
         D1.share_id q1 = Some t -> D1.share_id q2 = Some t -> q1 = q2).
Proof.
  intros Hr. pose proof (D1More.d1_reachable_tokens db Hr) as N.
  split; [exact N|]. intros q1 q2 t. now apply D1More.d1_tokens_inj.
Qed.

Lemma X10_d1_share_tokens_unique_witness :
  NoDup (D1.tokens (D1.queries Sample.d1_shared))
  /\ (forall q1 q2 t,
         In q1 (D1.queries Sample.d1_shared) ->
         In q2 (D1.queries Sample.d1_shared) ->
         D1.share_id q1 = Some t -> D1.share_id q2 = Some t -> q1 = q2).
Proof.
  exact (X10_d1_share_tokens_unique Sample.d1_shared d1_shared_reachable).
Defined.

(** X11: in the document store, when the share of a query by its owner
    answers 200, the public lookup of the answered token answers 200
    with the title, text, tags and creation time of that very query. *)
Theorem X11_mongo_share_then_lookup (db : Mongo.DB)
  (caller id : Mongo.ObjectId) (q : Mongo.QueryDoc) (env : Mongo.Env) :
  Mongo.reachable db ->
  find (Mongo.owned_by id caller) (Mongo.queries db) = Some q ->
  status (fst (Mongo.post_share caller id env db)) = 200%Z ->
  exists t,
    fst (Mongo.post_share caller id env db)
    = mkResponse 200 (JObj [("shareId", JStr t)])
    /\ Mongo.get_public t (snd (Mongo.post_share caller id env db))
       = (mkResponse 200 (JObj [("title", JStr (Mongo.title q));
                                ("text", JStr (Mongo.text q));
                                ("tags", str_array (Mongo.tags q));
                                ("createdAt", JNum (Mongo.createdAt q))]),
          snd (Mongo.post_share caller id env db)).
Proof.
  intros Hr Hf H200.
  destruct (MongoMore.mongo_share_outcome db caller id q env
              (MongoFacts.mongo_reachable_wf db Hr) Hf H200) as [t [E Hin]].
  exists t. split; [exact E|].
  exact (MongoMore.mongo_public_lookup _ (Mongo.set_shared t q) t
           (Mongo.reach_step db (Mongo.ShareQuery caller id) env Hr)
           Hin eq_refl eq_refl).
Qed.

Lemma X11_mongo_share_then_lookup_witness :
  exists t,
    fst (Mongo.post_share 1 7 Sample.menv Sample.mongo_one)
    = mkResponse 200 (JObj [("shareId", JStr t)])
    /\ Mongo.get_public t (snd (Mongo.post_share 1 7 Sample.menv Sample.mongo_one))
       = (mkResponse 200
            (JObj [("title", JStr (Mongo.title Sample.mongo_alice_query));
                   ("text", JStr (Mongo.text Sample.mongo_alice_query));
                   ("tags", str_array (Mongo.tags Sample.mongo_alice_query));
                   ("createdAt",
                    JNum (Mongo.createdAt Sample.mongo_alice_query))]),
          snd (Mongo.post_share 1 7 Sample.menv Sample.mongo_one)).
Proof.
  exact (X11_mongo_share_then_lookup Sample.mongo_one 1 7
           Sample.mongo_alice_query Sample.menv mongo_one_reachable
           eq_refl eq_refl).
Defined.

(** X12: in the relational store, when the share of a query by its
    owner answers 200, the public lookup of the answered token answers
    200 with the title, text and creation time of that very row and
    with the tags its listing showed before the share. *)
Theorem X12_d1_share_then_lookup (db : D1.DB) (caller qid : Z)
  (q : D1.QueryRow) (env env' : D1.Env) :
  D1.reachable db ->
  find (D1.owned_by qid caller) (D1.queries db) = Some q ->
  status (fst (D1.handle (D1.ShareQuery (Some caller) qid) env db)) = 200%Z ->
  exists t,
    fst (D1.handle (D1.ShareQuery (Some caller) qid) env db)
    = mkResponse 200 (JObj [("shareId", JStr t)])
    /\ D1.handle (D1.GetPublic t) env'
         (snd (D1.handle (D1.ShareQuery (Some caller) qid) env db))
       = (mkResponse 200
            (JObj [("title", JStr (D1.title q));
                   ("text", JStr (D1.text q));
                   ("tags",
                    str_array (D1.split_tags (D1.group_concat (D1.id q) db)));
                   ("createdAt", JNum (D1.created_at q))]),
          snd (D1.handle (D1.ShareQuery (Some caller) qid) env db)).
Proof.
  intros Hr Hf H200.
  destruct (D1More.d1_share_outcome db caller qid q env
              (D1Facts.d1_reachable_wf db Hr) Hf H200) as [t [E [Hin Ht]]].
  exists t. split; [exact E|].
  rewrite (D1More.d1_public_lookup _ (D1.set_shared t q) t env'
             (D1.reach_step db (D1.ShareQuery (Some caller) qid) env Hr)
             Hin eq_refl eq_refl).
  unfold D1.public_view, D1.group_concat. now rewrite Ht.
Qed.

Lemma X12_d1_share_then_lookup_witness :
  exists t,
    fst (D1.handle (D1.ShareQuery (Some 1%Z) 1) Sample.denv Sample.d1_one)
    = mkResponse 200 (JObj [("shareId", JStr t)])
    /\ D1.handle (D1.GetPublic t) Sample.denv'
         (snd (D1.handle (D1.ShareQuery (Some 1%Z) 1) Sample.denv
                 Sample.d1_one))
       = (mkResponse 200
            (JObj [("title", JStr (D1.title Sample.d1_alice_query));
                   ("text", JStr (D1.text Sample.d1_alice_query));
                   ("tags",
                    str_array
                      (D1.split_tags
                         (D1.group_concat (D1.id Sample.d1_alice_query)
                            Sample.d1_one)));
                   ("createdAt", JNum (D1.created_at Sample.d1_alice_query))]),
          snd (D1.handle (D1.ShareQuery (Some 1%Z) 1) Sample.denv
                 Sample.d1_one)).
Proof.
  exact (X12_d1_share_then_lookup Sample.d1_one 1 1 Sample.d1_alice_query
           Sample.denv Sample.denv' d1_one_reachable eq_refl eq_refl).
Defined.

(** X13: sharing is one way in the document store.  Whatever request
    is served next, by whomever, a public query that is still stored
    is still public, under the same token: no endpoint withdraws or
    replaces a token. *)
Theorem X13_mongo_public_stays_public (db : Mongo.DB) (q : Mongo.QueryDoc)
  (t : string) (r : Mongo.Request) (env : Mongo.Env) (q' : Mongo.QueryDoc) :
  Mongo.reachable db -> In q (Mongo.queries db) ->
  Mongo.isPublic q = true -> Mongo.shareId q = Some t ->
  In q' (Mongo.queries (snd (Mongo.handle r env db))) ->
  Mongo._id q' = Mongo._id q ->
  Mongo.isPublic q' = true /\ Mongo.shareId q' = Some t.
Proof.
  intros Hr. apply MongoMore.mongo_public_stays.
  now apply MongoFacts.mongo_reachable_wf.
Qed.

Lemma X13_mongo_public_stays_public_witness :
  Mongo.isPublic
    (Mongo.set_shared "000000000000000000000000" Sample.mongo_alice_query)
  = true
  /\ Mongo.shareId
       (Mongo.set_shared "000000000000000000000000" Sample.mongo_alice_query)
     = Some "000000000000000000000000".
Proof.
  exact (X13_mongo_public_stays_public Sample.mongo_shared
           (Mongo.set_shared "000000000000000000000000"
              Sample.mongo_alice_query)
           "000000000000000000000000" (Mongo.ShareQuery 1 7) Sample.menv'
           (Mongo.set_shared "000000000000000000000000"
              Sample.mongo_alice_query)
           mongo_shared_reachable (or_introl eq_refl) eq_refl eq_refl
           (or_introl eq_refl) eq_refl).
Defined.

(** X14: sharing is one way in the relational store, in the same
    sense. *)
Theorem X14_d1_public_stays_public (db : D1.DB) (q : D1.QueryRow)
  (t : string) (r : D1.Request) (env : D1.Env) (q' : D1.QueryRow) :
  D1.reachable db -> In q (D1.queries db) ->
  D1.is_public q = 1%Z -> D1.share_id q = Some t ->
  In q' (D1.queries (snd (D1.handle r env db))) ->
  D1.id q' = D1.id q ->
  D1.is_public q' = 1%Z /\ D1.share_id q' = Some t.
Proof. apply D1More.d1_public_stays. Qed.

Lemma X14_d1_public_stays_public_witness :
  D1.is_public (D1.set_shared "000000000000" Sample.d1_alice_query) = 1%Z
  /\ D1.share_id (D1.set_shared "000000000000" Sample.d1_alice_query)
     = Some "000000000000".
Proof.
  exact (X14_d1_public_stays_public Sample.d1_shared
           (D1.set_shared "000000000000" Sample.d1_alice_query)
           "000000000000" (D1.ShareQuery (Some 1%Z) 1) Sample.denv'
           (D1.set_shared "000000000000" Sample.d1_alice_query)
           d1_shared_reachable (or_introl eq_refl) eq_refl eq_refl
           (or_introl eq_refl) eq_refl).
Defined.

(** X15: the token the document store draws,
    [crypto.randomBytes(12).toString('hex')], is 24 characters long and
    made of the digits 0-9 and the letters a-f only. *)
Theorem X15_mongo_token_shape (env : Mongo.Env) :
  String.length (Mongo.new_shareId env) = 24
  /\ (forall c, JS.has_char c (Mongo.new_shareId env) = true ->
                JS.has_char c "0123456789abcdef" = true).
Proof.
  unfold Mongo.new_shareId. split.
  - now rewrite TokenMore.hex_length, TokenMore.randomBytes_length.
  - intros c. apply TokenMore.hex_alphabet.
Qed.

(** X16: the token the relational store draws from two UUIDs is the
    hexadecimal print of six of their bytes: the first four of the
    first and the fifth and sixth of the second.  It is 12 characters
    long, free of dashes, and none of the version and variant bits of
    the UUIDs is in it. *)
Theorem X16_d1_token_shape (env : D1.Env) :
  D1.new_shareId env
  = (hex (randomBytes (D1.entropy env) 0 4)
     ++ hex (randomBytes (D1.entropy env) 20 2))%string
  /\ String.length (D1.new_shareId env) = 12
  /\ (forall c, JS.has_char c (D1.new_shareId env) = true ->
                JS.has_char c "0123456789abcdef" = true).
Proof.
  rewrite TokenMore.d1_new_shareId_bytes. split; [reflexivity|]. split.
  - rewrite TokenMore.length_app, !TokenMore.hex_length,
      !TokenMore.randomBytes_length. reflexivity.
  - intros c. rewrite TokenMore.has_char_app. intros H.
    apply orb_true_iff in H as [H|H]; now apply TokenMore.hex_alphabet in H.
Qed.

(** ** Delete and create *)

(** X17: a delete that answers 200 in the document store removes the
    query with that id and nothing else: the users and every other
    query stay, and the id is free again. *)
Theorem X17_mongo_delete_removes_one (db : Mongo.DB)
  (caller id : Mongo.ObjectId) :
  Mongo.reachable db ->
  status (fst (Mongo.delete_queries caller id db)) = 200%Z ->
  Mongo.users (snd (Mongo.delete_queries caller id db)) = Mongo.users db
  /\ (forall x, In x (Mongo.queries (snd (Mongo.delete_queries caller id db)))
                <-> In x (Mongo.queries db) /\ Mongo._id x <> id)
  /\ Mongo.id_taken id (Mongo.queries (snd (Mongo.delete_queries caller id db)))
     = false.
Proof.
  intros Hr. apply MongoMore.mongo_delete_effect.
  apply (MongoFacts.mongo_reachable_wf db Hr).
Qed.

Lemma X17_mongo_delete_removes_one_witness :
  Mongo.users (snd (Mongo.delete_queries 1 7 Sample.mongo_one))
  = Mongo.users Sample.mongo_one
  /\ (forall x,
         In x (Mongo.queries (snd (Mongo.delete_queries 1 7 Sample.mongo_one)))
         <-> In x (Mongo.queries Sample.mongo_one) /\ Mongo._id x <> 7%nat)
  /\ Mongo.id_taken 7
       (Mongo.queries (snd (Mongo.delete_queries 1 7 Sample.mongo_one)))
     = false.
Proof.
  exact (X17_mongo_delete_removes_one Sample.mongo_one 1 7
           mongo_one_reachable eq_refl).
Defined.

(** X18: a delete that answers 200 in the relational store removes the
    row with that id together with its tag rows (ON DELETE CASCADE) and
    nothing else: the users and every other row stay. *)
Theorem X18_d1_delete_cascades (db : D1.DB) (caller qid : Z) (env : D1.Env) :
  D1.reachable db ->
  status (fst (D1.handle (D1.DeleteQuery (Some caller) qid) env db)) = 200%Z ->
  D1.users (snd (D1.handle (D1.DeleteQuery (Some caller) qid) env db))
  = D1.users db
  /\ (forall x,
         In x (D1.queries
                 (snd (D1.handle (D1.DeleteQuery (Some caller) qid) env db)))
         <-> In x (D1.queries db) /\ D1.id x <> qid)
  /\ D1.tags_of qid (snd (D1.handle (D1.DeleteQuery (Some caller) qid) env db))
     = []
  /\ (forall q', q' <> qid ->
         D1.tags_of q'
           (snd (D1.handle (D1.DeleteQuery (Some caller) qid) env db))
         = D1.tags_of q' db).
Proof.
  intros Hr H200.
  destruct (D1More.d1_delete_effect db caller qid env
              (proj1 (D1Facts.d1_reachable_wf db Hr)) H200)
    as (Hu & Hq & Ht & _).
  split; [exact Hu|]. split; [exact Hq|]. split; [exact Ht|].
  intros q' Hne. now apply D1More.other_tags_kept with qid.
Qed.

Lemma X18_d1_delete_cascades_witness :
  D1.users (snd (D1.handle (D1.DeleteQuery (Some 1%Z) 1) Sample.denv'
                   Sample.d1_one))
  = D1.users Sample.d1_one
  /\ (forall x,
         In x (D1.queries
                 (snd (D1.handle (D1.DeleteQuery (Some 1%Z) 1) Sample.denv'
                         Sample.d1_one)))
         <-> In x (D1.queries Sample.d1_one) /\ D1.id x <> 1%Z)
  /\ D1.tags_of 1 (snd (D1.handle (D1.DeleteQuery (Some 1%Z) 1) Sample.denv'
                          Sample.d1_one))
     = []
  /\ (forall q', q' <> 1%Z ->
         D1.tags_of q'
           (snd (D1.handle (D1.DeleteQuery (Some 1%Z) 1) Sample.denv'
                   Sample.d1_one))
         = D1.tags_of q' Sample.d1_one).
Proof.
  exact (X18_d1_delete_cascades Sample.d1_one 1 1 Sample.denv'
           d1_one_reachable eq_refl).
Defined.

(** X19: a create that answers 201 in the document store answers the
    stored document; it has the title and text of the body, the
    normalised tags, the request time as creation time, is private and
    without token, and from then on is in the listing of the caller and
    of nobody else. *)
Theorem X19_mongo_create_then_list (caller : Mongo.ObjectId) (b : Mongo.Body)
  (env : Mongo.Env) (db : Mongo.DB) :
  status (fst (Mongo.post_queries caller b env db)) = 201%Z ->
  exists doc,
    fst (Mongo.post_queries caller b env db)
    = mkResponse 201 (Mongo.toJSON doc)
    /\ In doc (Mongo.listByOwner caller
                 (snd (Mongo.post_queries caller b env db)))
    /\ Mongo.b_title b = Some (Mongo.title doc)
    /\ Mongo.b_text b = Some (Mongo.text doc)
    /\ Mongo.tags doc = processedTags (Mongo.b_tags b)
    /\ Mongo.isPublic doc = false /\ Mongo.shareId doc = None
    /\ Mongo.createdAt doc = Mongo.now env
    /\ forall other, other <> caller ->
         ~ In doc (Mongo.listByOwner other
                     (snd (Mongo.post_queries caller b env db))).
Proof. apply MongoMore.mongo_create_listed. Qed.

Lemma X19_mongo_create_then_list_witness :
  exists doc,
    fst (Mongo.post_queries 1
           (Sample.mbody (Some "t") (Some "select 1") (Some Sample.sql_tags))
           Sample.menv Sample.mongo_init)
    = mkResponse 201 (Mongo.toJSON doc)
    /\ In doc
         (Mongo.listByOwner 1
            (snd (Mongo.post_queries 1
                    (Sample.mbody (Some "t") (Some "select 1")
                       (Some Sample.sql_tags))
                    Sample.menv Sample.mongo_init)))
    /\ Mongo.tags doc = ["sql"; "sql"; "perf"].
Proof.
  destruct (X19_mongo_create_then_list 1
              (Sample.mbody (Some "t") (Some "select 1") (Some Sample.sql_tags))
              Sample.menv Sample.mongo_init eq_refl)
    as [doc (E & L & _ & _ & T & _)].
  exists doc. split; [exact E|]. split; [exact L | exact T].
Defined.

(** X20: a create that answers 201 in the relational store adds a row
    that from then on is in the listing of the caller and of nobody
    else; it has the title and text of the body, the request time as
    creation time, is private and without token, its tags are the
    normalised tags of the body, and its id is larger than every id
    handed out before. *)
Theorem X20_d1_create_then_list (caller : Z) (b : D1.Body) (env : D1.Env)
  (db : D1.DB) :
  D1.reachable db ->
  status (fst (D1.handle (D1.CreateQuery (Some caller) b) env db)) = 201%Z ->
  exists row,
    In row (D1.listByOwner caller
              (snd (D1.handle (D1.CreateQuery (Some caller) b) env db)))
    /\ D1.b_title b = Some (D1.title row) /\ D1.b_text b = Some (D1.text row)
    /\ D1.is_public row = 0%Z /\ D1.share_id row = None
    /\ D1.created_at row = D1.now env
    /\ D1.tags_of (D1.id row)
         (snd (D1.handle (D1.CreateQuery (Some caller) b) env db))
       = processedTags (D1.b_tags b)
    /\ (D1.queries_seq db < D1.id row)%Z
    /\ forall other, other <> caller ->
         ~ In row (D1.listByOwner other
                     (snd (D1.handle (D1.CreateQuery (Some caller) b) env db))).
Proof. apply D1More.d1_create_listed. Qed.

Lemma X20_d1_create_then_list_witness :
  exists row,
    In row
      (D1.listByOwner 2
         (snd (D1.handle
                 (D1.CreateQuery (Some 2%Z)
                    (Sample.dbody (Some "u") (Some "select 3")
                       (Some [" X "; "y"])))
                 Sample.denv' Sample.d1_one)))
    /\ D1.tags_of (D1.id row)
         (snd (D1.handle
                 (D1.CreateQuery (Some 2%Z)
                    (Sample.dbody (Some "u") (Some "select 3")
                       (Some [" X "; "y"])))
                 Sample.denv' Sample.d1_one))
       = ["x"; "y"]
    /\ (1 < D1.id row)%Z.
Proof.
  destruct (X20_d1_create_then_list 2
              (Sample.dbody (Some "u") (Some "select 3") (Some [" X "; "y"]))
              Sample.denv' Sample.d1_one d1_one_reachable eq_refl)
    as [row (L & _ & _ & _ & _ & _ & T & I & _)].
  exists row. split; [exact L|]. split; [exact T | exact I].
Defined.

(** X21: in the relational store an id is never handed out twice.
    Whatever requests are served after a row was seen, a row found
    under the same id later has the same owner and creation time: it
    is that row, up to what update and share change, and never a new
    one, also when the row was deleted in between. *)
Theorem X21_d1_ids_never_reused (db : D1.DB) (q : D1.QueryRow)
  (rs : list (D1.Request * D1.Env)) (row : D1.QueryRow) :
  D1.reachable db -> In q (D1.queries db) ->
  In row (D1.queries (D1.serve_all rs db)) -> D1.id row = D1.id q ->
  D1.user_id row = D1.user_id q /\ D1.created_at row = D1.created_at q.
Proof. apply D1More.id_keeps_its_row. Qed.

Lemma X21_d1_ids_never_reused_witness :
  D1.user_id (D1.set_content "renamed" "select 2" Sample.d1_alice_query)
  = D1.user_id Sample.d1_alice_query
  /\ D1.created_at (D1.set_content "renamed" "select 2" Sample.d1_alice_query)
     = D1.created_at Sample.d1_alice_query.
Proof.
  exact (X21_d1_ids_never_reused Sample.d1_one Sample.d1_alice_query
           [(D1.UpdateQuery (Some 1%Z) 1 Sample.dbody_greedy, Sample.denv');
            (D1.CreateQuery (Some 2%Z)
               (Sample.dbody (Some "u") (Some "select 3") None),
             Sample.denv')]
           (D1.set_content "renamed" "select 2" Sample.d1_alice_query)
           d1_one_reachable (or_introl eq_refl) (or_introl eq_refl) eq_refl).
Defined.

(** X22: in the relational store a request leaves the tags of every
    query it does not address as they are, whether it succeeds, is
    refused or stops half-way: an update, delete or share of one id
    does not touch the tags of another, and a create does not touch
    the tags of a stored query. *)
Theorem X22_d1_tags_of_others_kept (db : D1.DB) (env : D1.Env)
  (p : option Z) (q' qid : Z) :
  q' <> qid -> In q' (map D1.id (D1.queries db)) ->
  (forall b, D1.tags_of q' (snd (D1.handle (D1.UpdateQuery p qid b) env db))
             = D1.tags_of q' db)
  /\ D1.tags_of q' (snd (D1.handle (D1.DeleteQuery p qid) env db))
     = D1.tags_of q' db
  /\ D1.tags_of q' (snd (D1.handle (D1.ShareQuery p qid) env db))
     = D1.tags_of q' db
  /\ (forall b, D1.tags_of q' (snd (D1.handle (D1.CreateQuery p b) env db))
                = D1.tags_of q' db).
Proof.
  intros Hne Hin.
  split; [intros b; now apply D1More.other_tags_kept with qid|].
  split; [now apply D1More.other_tags_kept with qid|].
  split; [now apply D1More.other_tags_kept with qid|].
  intros b.
  apply D1More.other_tags_kept
    with (Z.max (D1.queries_seq db) (D1.max_id (D1.queries db)) + 1)%Z;
    [|reflexivity].
  apply in_map_iff in Hin as [x [<- Hx]].
  pose proof (D1Facts.max_id_ge _ _ Hx). lia.
Qed.

Lemma X22_d1_tags_of_others_kept_witness :
  (forall b,
      D1.tags_of 1 (snd (D1.handle (D1.UpdateQuery (Some 1%Z) 2 b)
                           Sample.denv' Sample.d1_one))
      = D1.tags_of 1 Sample.d1_one)
  /\ D1.tags_of 1 (snd (D1.handle (D1.DeleteQuery (Some 1%Z) 2)
                          Sample.denv' Sample.d1_one))
     = D1.tags_of 1 Sample.d1_one
  /\ D1.tags_of 1 (snd (D1.handle (D1.ShareQuery (Some 1%Z) 2)
                          Sample.denv' Sample.d1_one))
     = D1.tags_of 1 Sample.d1_one
  /\ (forall b,
         D1.tags_of 1 (snd (D1.handle (D1.CreateQuery (Some 1%Z) b)
                              Sample.denv' Sample.d1_one))
         = D1.tags_of 1 Sample.d1_one).
Proof.
  assert (N : 1%Z <> 2%Z) by discriminate.
  exact (X22_d1_tags_of_others_kept Sample.d1_one Sample.denv' (Some 1%Z)
           1 2 N (or_introl eq_refl)).
Defined.

(** ** The authorization check of the relational store *)

(** X23: for a header made of a scheme word, a space and a token,
    [getAuthPayload] hands [verify] the token, the second
    space-separated piece, and never looks at the scheme word: whatever
    non-empty word it is, the payload is what [verify] says of the
    token, and whatever follows a second space is ignored. *)
Theorem X23_d1_auth_reads_second_piece
  (verify : string -> string -> option Z) (key scheme token : string) :
  JS.truthy key = true ->
  JS.truthy scheme = true -> JS.truthy token = true ->
  JS.has_char " " scheme = false -> JS.has_char " " token = false ->
  D1.getAuthPayload verify (Some key)
    (Some (scheme ++ String " " token)%string)
  = verify token key
  /\ (forall more,
         D1.getAuthPayload verify (Some key)
           (Some (scheme ++ String " " (token ++ String " " more))%string)
         = verify token key).
Proof.
  intros Hk _ _ Hs Ht. split; [now apply D1More.auth_token|].
  intros more. now apply D1More.auth_token_then_more.
Qed.

Lemma X23_d1_auth_reads_second_piece_witness :
  D1.getAuthPayload Sample.verify_demo (Some "secret") (Some "Basic good")
  = Some 1%Z
  /\ (forall more,
         D1.getAuthPayload Sample.verify_demo (Some "secret")
           (Some ("Basic" ++ String " " ("good" ++ String " " more))%string)
         = Some 1%Z).
Proof.
  exact (X23_d1_auth_reads_second_piece Sample.verify_demo "secret" "Basic"
           "good" eq_refl eq_refl eq_refl eq_refl eq_refl).
Defined.

(** X24: when the secret is missing or empty, when the Authorization
    header is missing or empty, or when the header holds no space,
    [getAuthPayload] gives no payload without consulting [verify], and
    each protected endpoint answers 401 and leaves the database as it
    is. *)
Theorem X24_d1_no_payload_no_access (verify : string -> string -> option Z)
  (secret auth : option string) (env : D1.Env) (db : D1.DB) :
  JS.truthy_opt secret = false \/ JS.truthy_opt auth = false
  \/ (exists a, auth = Some a /\ JS.has_char " " a = false) ->
  D1.getAuthPayload verify secret auth = None
  /\ D1.handle (D1.ListQueries (D1.getAuthPayload verify secret auth)) env db
     = (D1.unauthorized, db)
  /\ D1.run (D1.get_tags (D1.getAuthPayload verify secret auth)) db
     = (D1.unauthorized, db)
  /\ (forall b,
         D1.handle (D1.CreateQuery (D1.getAuthPayload verify secret auth) b)
           env db
         = (D1.unauthorized, db))
  /\ (forall qid b,
         D1.handle
           (D1.UpdateQuery (D1.getAuthPayload verify secret auth) qid b) env db
         = (D1.unauthorized, db))
  /\ (forall qid,
         D1.handle (D1.DeleteQuery (D1.getAuthPayload verify secret auth) qid)
           env db
         = (D1.unauthorized, db))
  /\ (forall qid,
         D1.handle (D1.ShareQuery (D1.getAuthPayload verify secret auth) qid)
           env db
         = (D1.unauthorized, db)).
Proof.
  intros H.
  assert (E : D1.getAuthPayload verify secret auth = None).
  { destruct H as [H|[H|[a [-> H]]]].
    - apply D1More.auth_closed. now left.
    - apply D1More.auth_closed. now right.
    - now apply D1More.auth_one_piece. }
  rewrite E. split; [reflexivity|].
  apply D1More.unauthorized_everywhere.
Qed.

Lemma X24_d1_no_payload_no_access_witness :
  D1.getAuthPayload Sample.verify_demo (Some "secret") (Some "good") = None
  /\ D1.handle
       (D1.DeleteQuery
          (D1.getAuthPayload Sample.verify_demo (Some "secret") (Some "good"))
          1)
       Sample.denv Sample.d1_one
     = (D1.unauthorized, Sample.d1_one).
Proof.
  destruct (X24_d1_no_payload_no_access Sample.verify_demo (Some "secret")
              (Some "good") Sample.denv Sample.d1_one
              (or_intror (or_intror
                 (ex_intro _ "good" (conj eq_refl eq_refl)))))
    as (E & _ & _ & _ & _ & D & _).
  split; [exact E | exact (D 1%Z)].
Defined.

(** ** Accounts of the relational store *)

(** X25: POST /signup with a user name in use answers 409 and leaves
    the database as it is; with a free name it answers 201 and adds one
    user, with the next id and the hash of the password, and touches
    nothing else.  It never answers 500. *)
Theorem X25_d1_signup_outcome (bcrypt_hash : string -> string -> string)
  (name password salt : string) (db : D1.DB) :
  (In name (map D1.username (D1.users db))
   /\ D1.signup bcrypt_hash name password salt db
      = (message 409 "Username already exists.", db))
  \/ (~ In name (map D1.username (D1.users db))
      /\ D1.signup bcrypt_hash name password salt db
         = (message 201 "User created successfully.",
            {| D1.users :=
                 D1.users db
                 ++ [{| D1.uid := D1.max_uid (D1.users db) + 1;
                        D1.username := name;
                        D1.password_hash := bcrypt_hash password salt |}];
               D1.queries := D1.queries db;
               D1.query_tags := D1.query_tags db;
               D1.queries_seq := D1.queries_seq db |})).
Proof. apply D1More.signup_cases. Qed.

(** X26: in a database that started empty and served signups and
    requests, user names are unique, user ids are unique, and every
    query belongs to a registered user. *)
Theorem X26_d1_accounts_consistent (bcrypt_hash : string -> string -> string)
  (db : D1.DB) :
  D1.served bcrypt_hash db ->
  NoDup (map D1.username (D1.users db))
  /\ NoDup (map D1.uid (D1.users db))
  /\ Forall (fun q => D1.registered (D1.user_id q) db) (D1.queries db).
Proof.
  intros H.
  destruct (D1More.served_invariant bcrypt_hash db H) as (N & U & _ & O).
  now repeat split.
Qed.

Lemma X26_d1_accounts_consistent_witness :
  NoDup (map D1.username
           (D1.users
              (snd (D1.handle
                      (D1.CreateQuery (Some 1%Z)
                         (Sample.dbody (Some "t") (Some "select 1") None))
                      Sample.denv Sample.d1_signed_up))))
  /\ NoDup (map D1.uid
              (D1.users
                 (snd (D1.handle
                         (D1.CreateQuery (Some 1%Z)
                            (Sample.dbody (Some "t") (Some "select 1") None))
                         Sample.denv Sample.d1_signed_up))))
  /\ Forall (fun q =>
               D1.registered (D1.user_id q)
                 (snd (D1.handle
                         (D1.CreateQuery (Some 1%Z)
                            (Sample.dbody (Some "t") (Some "select 1") None))
                         Sample.denv Sample.d1_signed_up)))
            (D1.queries
               (snd (D1.handle
                       (D1.CreateQuery (Some 1%Z)
                          (Sample.dbody (Some "t") (Some "select 1") None))
                       Sample.denv Sample.d1_signed_up))).
Proof.
  exact (X26_d1_accounts_consistent Sample.plain_hash _
           (D1.served_request Sample.plain_hash _
              (D1.CreateQuery (Some 1%Z)
                 (Sample.dbody (Some "t") (Some "select 1") None))
              Sample.denv
              (D1.served_signup Sample.plain_hash _ "alice" "wonderland"
                 "salt" (D1.served_init Sample.plain_hash)))).
Defined.

(** X27: after a signup that answers 201, a login with the same name
    and password answers 200 with a token for the new user, provided
    [bcrypt.compare] accepts the password against the hash that
    [bcrypt.hash] made of it. *)
Theorem X27_d1_signup_then_login (bcrypt_hash : string -> string -> string)
  (bcrypt_compare : string -> string -> bool)
  (sign : Z -> string -> Z -> string)
  (name password salt : string) (env : D1.Env) (db : D1.DB) :
  bcrypt_compare password (bcrypt_hash password salt) = true ->
  fst (D1.signup bcrypt_hash name password salt db)
  = message 201 "User created successfully." ->
  D1.login bcrypt_compare sign name password env
    (snd (D1.signup bcrypt_hash name password salt db))
  = mkResponse 200
      (JObj [("token",
              JStr (sign (D1.max_uid (D1.users db) + 1)%Z name
                         (D1.now env + 3600)%Z));
             ("user", JObj [("username", JStr name)])]).
Proof. apply D1More.signup_then_login. Qed.

Lemma X27_d1_signup_then_login_witness :
  D1.login Sample.plain_compare Sample.d1_sign "alice" "wonderland"
    Sample.denv Sample.d1_signed_up
  = mkResponse 200
      (JObj [("token", JStr "token-alice");
             ("user", JObj [("username", JStr "alice")])]).
Proof.
  exact (X27_d1_signup_then_login Sample.plain_hash Sample.plain_compare
           Sample.d1_sign "alice" "wonderland" "salt" Sample.denv
           Sample.d1_empty eq_refl eq_refl).
Defined.

(** ** Creating with repeated tags, and the add form *)

(** X28: in the relational store, a create by a registered user with a
    title and a text answers 201 exactly when the normalised tags of
    the body are pairwise distinct; otherwise a tag insert fails, the
    answer is the 500 of an uncaught exception, and the query row is
    stored all the same. *)
Theorem X28_d1_create_outcome (caller : Z) (t x : string) (b : D1.Body)
  (env : D1.Env) (db : D1.DB) :
  D1.reachable db -> D1.registered caller db ->
  D1.b_title b = Some t -> D1.b_text b = Some x ->
  (status (fst (D1.handle (D1.CreateQuery (Some caller) b) env db)) = 201%Z
   <-> NoDup (processedTags (D1.b_tags b)))
  /\ (status (fst (D1.handle (D1.CreateQuery (Some caller) b) env db)) = 201%Z
      \/ fst (D1.handle (D1.CreateQuery (Some caller) b) env db)
         = D1.internal_error)
  /\ D1.queries (snd (D1.handle (D1.CreateQuery (Some caller) b) env db))
     = D1.queries db
       ++ [{| D1.id := Z.max (D1.queries_seq db) (D1.max_id (D1.queries db)) + 1;
              D1.user_id := caller; D1.title := t; D1.text := x;
              D1.is_public := 0; D1.share_id := None;
              D1.created_at := D1.now env |}].
Proof. apply D1More.create_outcome. Qed.

Lemma X28_d1_create_outcome_witness :
  fst (D1.handle
         (D1.CreateQuery (Some 2%Z)
            (Sample.dbody (Some "u") (Some "select 3") (Some Sample.sql_tags)))
         Sample.denv' Sample.d1_one)
  = D1.internal_error
  /\ D1.queries
       (snd (D1.handle
               (D1.CreateQuery (Some 2%Z)
                  (Sample.dbody (Some "u") (Some "select 3")
                     (Some Sample.sql_tags)))
               Sample.denv' Sample.d1_one))
     = D1.queries Sample.d1_one
       ++ [{| D1.id := 2; D1.user_id := 2; D1.title := "u";
              D1.text := "select 3"; D1.is_public := 0;
              D1.share_id := None; D1.created_at := 200 |}].
Proof.
  destruct (X28_d1_create_outcome 2 "u" "select 3"
              (Sample.dbody (Some "u") (Some "select 3") (Some Sample.sql_tags))
              Sample.denv' Sample.d1_one d1_one_reachable eq_refl eq_refl
              eq_refl) as (_ & _ & Q).
  split; [reflexivity | exact Q].
Defined.

(** X29: what the add form sends has a trimmed, non-empty title and
    text and the tags of [processTags]; the document store never
    refuses it with 400, and when it answers 201 the stored document
    carries exactly the trimmed title and text and those tags. *)
Theorem X29_form_to_mongo (tv xv gv t x : string) (tags : list string)
  (caller : Mongo.ObjectId) (env : Mongo.Env) (db : Mongo.DB) :
  Client.submit tv xv gv = Some (t, x, tags) ->
  JS.truthy t = true /\ JS.truthy x = true
  /\ status (fst (Mongo.post_queries caller (Client.mongo_body t x tags)
                    env db)) <> 400%Z
  /\ (status (fst (Mongo.post_queries caller (Client.mongo_body t x tags)
                     env db)) = 201%Z ->
      exists doc,
        In doc (Mongo.queries
                  (snd (Mongo.post_queries caller
                          (Client.mongo_body t x tags) env db)))
        /\ Mongo.user doc = caller
        /\ Mongo.title doc = JS.trim tv /\ Mongo.text doc = JS.trim xv
        /\ Mongo.tags doc = Frontend.processTags gv).
Proof.
  intros Hs.
  destruct (ClientFacts.submit_Some _ _ _ _ _ _ Hs) as (-> & -> & -> & Ht & Hx).
  split; [exact Ht|]. split; [exact Hx|].
  split; [now apply ClientFacts.mongo_create_not_refused|].
  intros H201.
  destruct (MongoMore.mongo_create_listed caller _ env db H201)
    as [doc (_ & L & Et & Ex & Eg & _)].
  apply MongoFacts.mongo_In_listByOwner in L as [L U].
  exists doc. split; [exact L|]. split; [exact U|].
  cbn [Client.mongo_body Mongo.b_title Mongo.b_text Mongo.b_tags] in Et, Ex, Eg.
  inversion Et. inversion Ex.
  rewrite Eg, FrontendFacts.processTags_fixed. now repeat split.
Qed.

Lemma X29_form_to_mongo_witness :
  Client.submit " Top ten " "select 1 " "SQL, perf,"
  = Some ("Top ten", "select 1", ["sql"; "perf"])
  /\ status (fst (Mongo.post_queries 1
                    (Client.mongo_body "Top ten" "select 1" ["sql"; "perf"])
                    Sample.menv Sample.mongo_init)) <> 400%Z.
Proof.
  split; [reflexivity|].
  destruct (X29_form_to_mongo " Top ten " "select 1 " "SQL, perf,"
              "Top ten" "select 1" ["sql"; "perf"] 1 Sample.menv
              Sample.mongo_init eq_refl) as (_ & _ & N & _).
  exact N.
Defined.

(** X30: in the relational store, what the add form sends for a
    registered user is stored and answered with 201 exactly when the
    tags field names no tag twice, lower case and surrounding blanks
    aside. *)
Theorem X30_form_to_d1 (tv xv gv t x : string) (tags : list string)
  (caller : Z) (env : D1.Env) (db : D1.DB) :
  D1.reachable db -> D1.registered caller db ->
  Client.submit tv xv gv = Some (t, x, tags) ->
  (status (fst (D1.handle
                  (D1.CreateQuery (Some caller) (Client.d1_body t x tags))
                  env db)) = 201%Z
   <-> NoDup (Frontend.processTags gv)).
Proof.
  intros Hr Hc Hs.
  destruct (ClientFacts.submit_Some _ _ _ _ _ _ Hs) as (-> & -> & -> & _ & _).
  destruct (D1More.create_outcome caller (JS.trim tv) (JS.trim xv)
              (Client.d1_body (JS.trim tv) (JS.trim xv)
                 (Frontend.processTags gv))
              env db Hr Hc eq_refl eq_refl) as (I & _).
  cbn [Client.d1_body D1.b_tags] in I.
  now rewrite FrontendFacts.processTags_fixed in I.
Qed.

Lemma X30_form_to_d1_witness :
  Client.submit " Top ten " "select 1 " "SQL, perf,"
  = Some ("Top ten", "select 1", ["sql"; "perf"])
  /\ status (fst (D1.handle
                    (D1.CreateQuery (Some 2%Z)
                       (Client.d1_body "Top ten" "select 1" ["sql"; "perf"]))
                    Sample.denv' Sample.d1_one)) = 201%Z.
Proof.
  split; [reflexivity|].
  apply (X30_form_to_d1 " Top ten " "select 1 " "SQL, perf," "Top ten"
           "select 1" ["sql"; "perf"] 2 Sample.denv' Sample.d1_one
           d1_one_reachable eq_refl eq_refl).
  repeat constructor; simpl; intuition discriminate.
Defined.
